(** * Seweex memory pool: a shallow embedding of [include/Memory.hxx]

    The development follows the header file: [Detail::PageBlockInfo], the
    [Page] class template with its nested [Hint], and the [Pool] class
    template.  Conventions of the embedding:

    - [size_t] and [uintptr_t] are 64-bit: values are integers of [Z] reduced
      by [to_size_t]; [ptrdiff_t] is reduced by [to_ptrdiff_t].
    - An iterator into a page's directory [myInfo] is the pair of the array it
      walks and its offset from [begin()].  The C++ standard leaves iterator
      arithmetic outside [begin(), end()] and a dereference of [end()]
      undefined: the operations return [Undefined] there.
    - A loop that does not terminate is [Diverges].  The scan of [fit] runs
      on blocks_count + 1 rounds of fuel, which [fit_loop_fuel] shows to be
      enough when the stored sizes are [ptrdiff_t] values.
    - A [float] is a rational of [Q].  [Float] gives the arithmetic of IEEE
      binary32 on them, every operation rounded to 24 significant bits, to
      nearest and ties to even; [load_of], the bound [occupy] looks up and
      the running average of the requests use it.  The gauge [myLoad] of a
      page is kept as the exact sum of the shares the code adds and subtracts:
      what is proved of it is stated of that sum, and nothing is concluded
      from it on the value the rounded sums of the code reach.
    - [++hint] on [end()] of the multimap is not defined by the standard, and
      what happens is up to the library: it is the parameter [past_end] of
      [Pool.increment] and [Pool.occupy].
    - The bytes of [myData] are never read by the code; a page only keeps the
      address of that buffer. *)

From Stdlib Require Import ZArith QArith Qabs Lia Bool.
From stdpp Require Import base option list.

Local Open Scope Z_scope.

(** ** Machine integers *)

Definition size_t_modulus : Z := 2 ^ 64.

Definition to_size_t (z : Z) : Z := z mod size_t_modulus.

Definition to_ptrdiff_t (z : Z) : Z :=
  (z + 2 ^ 63) mod size_t_modulus - 2 ^ 63.

(** ** Arithmetic of [float] *)

Module Float.

(** 2 ^ e, for any integer e. *)
Definition pow2 (e : Z) : Q :=
  if 0 <=? e then inject_Z (2 ^ e) else 1 # Z.to_pos (2 ^ (- e)).

(** The e with 2 ^ e <= |q| < 2 ^ (e + 1), for q other than 0. *)
Definition exponent (q : Q) : Z :=
  let e := Z.log2 (Z.abs (Qnum q)) - Z.log2 (Z.pos (Qden q)) in
  if Qle_bool (pow2 e) (Qabs q) then e else e - 1.

(** The integer nearest to q, the even one when two are as near. *)
Definition nearest_even (q : Q) : Z :=
  let n := Qnum q in
  let d := Z.pos (Qden q) in
  let lo := n / d in
  let r := n mod d in
  if 2 * r <? d then lo
  else if d <? 2 * r then lo + 1
  else if Z.even lo then lo else lo + 1.

(** The binary32 value nearest to q: 24 significant bits.  The exponent is
    not bounded.  A magnitude of 2 ^ 128 or more, which the code turns into
    an infinity, and one below 2 ^ -126, where the values of the code get
    less precise, are rounded to 24 bits like any other; the sizes and
    counts of this program are below 2 ^ 64, and the load of a request of
    less than 2 ^ 64 bytes is in neither range.  Infinities and NaN are not
    values of the model. *)
Definition round (q : Q) : Q :=
  if Qeq_bool q 0 then 0%Q
  else
    let ulp := pow2 (exponent q - 23) in
    Qred (inject_Z (nearest_even (q / ulp)) * ulp).

(** The conversion of an integer, and the four operations. *)
Definition of_Z (z : Z) : Q := round (inject_Z z).
Definition add (a b : Q) : Q := round (a + b).
Definition sub (a b : Q) : Q := round (a - b).
Definition mul (a b : Q) : Q := round (a * b).
Definition div (a b : Q) : Q := round (a / b).

End Float.

(** ** Outcomes of a call *)

Inductive outcome (A : Type) : Type :=
  | Ret (a : A)
  | Undefined
  | Diverges.

Arguments Ret {A} a.
Arguments Undefined {A}.
Arguments Diverges {A}.

Definition bind {A B : Type} (m : outcome A) (k : A -> outcome B) : outcome B :=
  match m with
  | Ret a => k a
  | Undefined => Undefined
  | Diverges => Diverges
  end.

Notation "x <- m ;; k" := (bind m (fun x => k))
  (at level 100, m at next level, right associativity).

(** A requested element type: what [sizeof] and [alignof] give for it. *)
Record Ty : Type := { sizeof : Z; alignof : Z }.

Definition char : Ty := {| sizeof := 1; alignof := 1 |}.

(** ** Detail::PageBlockInfo *)

Module PageBlockInfo.

(** [myPrev] points at a cell of the same directory, or is null: it is the
    offset of that cell.  [mySize] is a [ptrdiff_t]; conversions and the
    negation wrap around. *)
Record t : Type := { myPrev : option Z; mySize : Z }.

Definition default : t := {| myPrev := None; mySize := 0 |}.

Definition make_head (free : bool) (size : Z) (c : t) : t :=
  {| myPrev := myPrev c;
     mySize := if free then to_ptrdiff_t size
               else to_ptrdiff_t (- to_ptrdiff_t size) |}.

Definition remove_head (c : t) : t := {| myPrev := None; mySize := 0 |}.

Definition set_prev (info : option Z) (c : t) : t :=
  {| myPrev := info; mySize := mySize c |}.

Definition prev (c : t) : option Z := myPrev c.

Definition size (c : t) : Z :=
  to_size_t (if 0 <=? mySize c then mySize c else - mySize c).

Definition is_free (c : t) : bool := 0 <? mySize c.

End PageBlockInfo.

(** ** Memory::Page *)

Module Page.

(** An iterator of [info_type]. *)
Record iterator : Type := { it_array : Z; it_pos : Z }.

Definition iterator_eqb (a b : iterator) : bool :=
  (it_array a =? it_array b) && (it_pos a =? it_pos b).

Module Hint.
Record t : Type := { myIter : iterator; myEnd : option iterator }.

(** [Hint(iter, end)] and [Hint(end)]. *)
Definition make (iter end_ : iterator) : t :=
  {| myIter := iter; myEnd := Some end_ |}.
Definition make_end (end_ : iterator) : t :=
  {| myIter := end_; myEnd := Some end_ |}.

(** The defaulted constructor: [myEnd] holds [std::monostate]. *)
Definition default : t :=
  {| myIter := {| it_array := 0; it_pos := 0 |}; myEnd := None |}.

Definition is_valid (h : t) : bool :=
  match myEnd h with
  | Some e => negb (iterator_eqb (myIter h) e)
  | None => false
  end.

Definition is_valid_at (h : t) (trueEnd : iterator) : bool :=
  match myEnd h with
  | Some e => iterator_eqb e trueEnd && negb (iterator_eqb (myIter h) e)
  | None => false
  end.
End Hint.

Record t : Type := {
  myData : Z;
  myInfo : list PageBlockInfo.t;
  myLoad : Q
}.

Section Geometry.

(** The template parameters. *)
Variables _Size _Alignment : Z.

Definition blocks_count : Z := _Size / _Alignment.

Definition size_in_blocks (T : Ty) (count : Z) : Z :=
  Z.land
    (to_size_t (to_size_t (to_size_t (sizeof T * count) + _Alignment) - 1))
    (to_size_t (Z.lnot (to_size_t (_Alignment - 1)))).

Definition cbegin (p : t) : iterator :=
  {| it_array := myData p; it_pos := 0 |}.
Definition cend (p : t) : iterator :=
  {| it_array := myData p; it_pos := blocks_count |}.

(** [*iter] for an iterator at offset [pos]. *)
Definition deref (info : list PageBlockInfo.t) (pos : Z)
  : outcome PageBlockInfo.t :=
  if (0 <=? pos) && (pos <? blocks_count) then
    match info !! Z.to_nat pos with
    | Some c => Ret c
    | None => Undefined
    end
  else Undefined.

(** [iter + n] for a [size_t] n. *)
Definition advance (pos n : Z) : outcome Z :=
  let pos' := pos + to_ptrdiff_t n in
  if (0 <=? pos') && (pos' <=? blocks_count) then Ret pos' else Undefined.

(** A member call [iter->f(...)] that writes the cell. *)
Definition update (info : list PageBlockInfo.t) (pos : Z)
    (f : PageBlockInfo.t -> PageBlockInfo.t)
  : outcome (list PageBlockInfo.t) :=
  c <- deref info pos ;;
  Ret (<[Z.to_nat pos := f c]> info).

(** The offset in [myInfo] the hint designates; [blocks_count] stands for
    [myInfo.end()]. *)
Definition from_hint (p : t) (hint : Hint.t) : Z :=
  if Hint.is_valid_at hint (cend p)
  then it_pos (Hint.myIter hint) - it_pos (cbegin p)
  else blocks_count.

Definition Page (addr : Z) : t :=
  {| myData := addr;
     myInfo := <[0%nat := PageBlockInfo.make_head true blocks_count
                           PageBlockInfo.default]>
                 (replicate (Z.to_nat blocks_count) PageBlockInfo.default);
     myLoad := 0 |}.

(** [step] is the quotient of two [float] values, the product converts
    [count] to [float]. *)
Definition load_of (T : Ty) (count : Z) : Q :=
  let step := Float.div (Float.of_Z (sizeof T)) (Float.of_Z _Size) in
  Float.mul step (Float.of_Z count).

Definition max_load : Q := 1%Q.

Definition load (p : t) : Q := myLoad p.

(** The [while] loop of [fit], from [iter] on: the offset of the head it
    returns from, or [None] when it leaves the loop at [end()]. *)
Fixpoint fit_loop (fuel : nat) (info : list PageBlockInfo.t)
    (blocks iter : Z) : outcome (option Z) :=
  if iter =? blocks_count then Ret None
  else
    match fuel with
    | O => Diverges
    | S fuel' =>
        c <- deref info iter ;;
        let size := PageBlockInfo.size c in
        if PageBlockInfo.is_free c && (blocks <=? size) then Ret (Some iter)
        else
          iter' <- advance iter size ;;
          fit_loop fuel' info blocks iter'
    end.

Definition fit (T : Ty) (count : Z) (p : t) : outcome Hint.t :=
  if alignof T <=? _Alignment then
    let blocks := size_in_blocks T count in
    found <- fit_loop (S (Z.to_nat blocks_count)) (myInfo p) blocks 0 ;;
    match found with
    | Some iter =>
        Ret (Hint.make {| it_array := myData p; it_pos := iter |} (cend p))
    | None => Ret (Hint.make_end (cend p))
    end
  else Ret (Hint.make_end (cend p)).

Definition contains (T : Ty) (data count : Z) (p : t) : outcome Hint.t :=
  if alignof T <=? _Alignment then
    let storageBegin := myData p in
    let storageEnd := to_size_t (storageBegin + _Size) in
    let dataBegin := data in
    let dataEnd := to_size_t (data + sizeof T * count) in
    if (storageBegin <=? dataBegin) && (dataEnd <=? storageEnd)
       && (dataBegin mod _Alignment =? 0)
    then
      let offset := (dataBegin - storageBegin) / _Alignment in
      let blocks := size_in_blocks T count in
      iter <- advance 0 offset ;;
      c <- deref (myInfo p) iter ;;
      if negb (PageBlockInfo.is_free c)
         && (PageBlockInfo.size c =? blocks)
      then Ret (Hint.make {| it_array := myData p; it_pos := iter |}
                  (cend p))
      else Ret (Hint.make_end (cend p))
    else Ret (Hint.make_end (cend p))
  else Ret (Hint.make_end (cend p)).

(** [try_occupy<_Ty>(count, hint)]; a null result is [None]. *)
Definition try_occupy_at (T : Ty) (count : Z) (hint : Hint.t) (p : t)
  : outcome (option Z * t) :=
  let blocks := size_in_blocks T count in
  let iter := from_hint p hint in
  if negb (iter =? blocks_count) then
    c <- deref (myInfo p) iter ;;
    let size := PageBlockInfo.size c in
    info1 <-
      (if blocks <? size then
         next <- advance iter blocks ;;
         if negb (next =? blocks_count) then
           info' <- update (myInfo p) next
                      (PageBlockInfo.make_head true
                         (to_size_t (size - blocks))) ;;
           update info' next (PageBlockInfo.set_prev (Some iter))
         else Ret (myInfo p)
       else Ret (myInfo p)) ;;
    let load' := (myLoad p + inject_Z blocks / inject_Z blocks_count)%Q in
    info2 <- update info1 iter (PageBlockInfo.make_head false blocks) ;;
    let offset := iter - 0 in
    Ret (Some (myData p + offset * _Alignment),
         {| myData := myData p; myInfo := info2; myLoad := load' |})
  else Ret (None, p).

(** [try_occupy<_Ty>(count)]. *)
Definition try_occupy (T : Ty) (count : Z) (p : t)
  : outcome (option Z * t) :=
  hint <- fit T count p ;;
  try_occupy_at T count hint p.

(** [release(hint)]. *)
Definition release (hint : Hint.t) (p : t) : outcome (bool * t) :=
  let iter := from_hint p hint in
  if negb (iter =? blocks_count) then
    c <- deref (myInfo p) iter ;;
    let size := PageBlockInfo.size c in
    let prev := PageBlockInfo.prev c in
    next <- advance iter size ;;
    let farNext := blocks_count in
    let load' := (myLoad p - inject_Z size / inject_Z blocks_count)%Q in
    info1 <- update (myInfo p) iter (PageBlockInfo.make_head true size) ;;
    merged <-
      (if negb (next =? blocks_count) then
         n <- deref info1 next ;;
         if PageBlockInfo.is_free n then
           let nextSize := PageBlockInfo.size n in
           farNext <- advance next nextSize ;;
           info' <-
             (if negb (farNext =? blocks_count)
              then update info1 farNext (PageBlockInfo.set_prev (Some iter))
              else Ret info1) ;;
           let size := to_size_t (size + nextSize) in
           info'' <- update info' iter (PageBlockInfo.make_head true size) ;;
           info''' <- update info'' next PageBlockInfo.remove_head ;;
           Ret (info''', size, farNext)
         else Ret (info1, size, farNext)
       else Ret (info1, size, farNext)) ;;
    let '(info2, size, farNext) := merged in
    info3 <-
      match prev with
      | Some pr =>
          pc <- deref info2 pr ;;
          if PageBlockInfo.is_free pc then
            info' <- update info2 pr
                       (PageBlockInfo.make_head true
                          (to_size_t (size + PageBlockInfo.size pc))) ;;
            info'' <- update info' iter PageBlockInfo.remove_head ;;
            if negb (farNext =? blocks_count)
            then update info'' farNext (PageBlockInfo.set_prev (Some pr))
            else Ret info''
          else Ret info2
      | None => Ret info2
      end ;;
    Ret (true, {| myData := myData p; myInfo := info3; myLoad := load' |})
  else Ret (false, p).

(** [release(ptr, count)]. *)
Definition release_ptr (T : Ty) (ptr count : Z) (p : t)
  : outcome (bool * t) :=
  hint <- contains T ptr count p ;;
  release hint p.

End Geometry.

End Page.

(** ** Memory::Pool *)

Module Pool.

(** [myPages] is the multimap in iteration order (ascending keys); an
    iterator of it is an index, the length standing for [end()].  The
    worker thread and the two mutexes are not part of the state. *)
Record t : Type := {
  myPages : list (Q * Page.t);
  myAverageLoadRequest : Q;
  myRequestsCount : Z
}.

Definition Qltb (a b : Q) : bool := negb (Qle_bool b a).

(** [std::multimap::upper_bound] and [lower_bound] with [std::less<float>]. *)
Fixpoint upper_bound (pages : list (Q * Page.t)) (x : Q) : nat :=
  match pages with
  | [] => O
  | (k, _) :: rest => if Qltb x k then O else S (upper_bound rest x)
  end.

Fixpoint lower_bound (pages : list (Q * Page.t)) (x : Q) : nat :=
  match pages with
  | [] => O
  | (k, _) :: rest => if Qltb k x then S (lower_bound rest x) else O
  end.

(** [emplace_hint]: the element goes where its key belongs, as close as
    possible to the position just before [hint]. *)
Definition emplace_hint (hint : nat) (key : Q) (page : Page.t)
    (pages : list (Q * Page.t)) : list (Q * Page.t) :=
  let pos := Nat.max (lower_bound pages key)
               (Nat.min hint (upper_bound pages key)) in
  take pos pages ++ (key, page) :: drop pos pages.

(** [++hint] on an iterator of a container with [n] elements.  The standard
    does not define the increment of [end()]; [past_end] is what the library
    makes of it: [Undefined] for the reading of the standard, [Ret] of the
    position its iterator then stands at, or [Diverges] when the increment
    does not return. *)
Definition increment (past_end : outcome nat) (n hint : nat)
  : outcome nat :=
  if (hint <? n)%nat then Ret (S hint) else past_end.

Section Geometry.

Variables _Size _Alignment : Z.

(** [make_pages(count)]: [fresh] lists the addresses [std::make_unique]
    gives the [count] new pages. *)
Fixpoint make_pages (fresh : list Z) (pool : t) : t :=
  match fresh with
  | [] => pool
  | addr :: fresh' =>
      let page := Page.Page _Size _Alignment addr in
      let load := Page.load page in
      make_pages fresh'
        {| myPages := emplace_hint O load page (myPages pool);
           myAverageLoadRequest := myAverageLoadRequest pool;
           myRequestsCount := myRequestsCount pool |}
  end.

(** Lines 397 to 404 of [occupy]: the entry the request is served from.
    The difference is one of [float]. *)
Definition select (pages : list (Q * Page.t)) (load : Q) : option nat :=
  let iter := upper_bound pages (Float.sub Page.max_load load) in
  if (iter =? 0)%nat then None else Some (pred iter).

(** [occupy<_Ty>(count)].  [hint] is the iterator [upper_bound] returned:
    once the entry before it is extracted it sits at the index that entry
    had.  C++ does not sequence the two operands of the division in the
    statistics update; the left one reads the counter before the increment
    here, as the specification has it.  Both uses of the counter convert it
    to [float], and each of the three operations rounds; a counter that
    wraps to 0 divides by zero, which is outside the model. *)
Definition occupy (past_end : outcome nat) (T : Ty) (count : Z) (pool : t)
  : outcome (option Z * t) :=
  let load := Page.load_of _Size T count in
  r <-
    (match myPages pool with
     | _ :: _ =>
         match select (myPages pool) load with
         | None => Ret (None, myPages pool)
         | Some iter =>
             match myPages pool !! iter with
             | Some (_, page) =>
                 let hint := iter in
                 let pages := delete iter (myPages pool) in
                 let load := Page.load page in
                 r <- Page.try_occupy _Size _Alignment T count page ;;
                 hint <- increment past_end (length pages) hint ;;
                 Ret (r.1, emplace_hint hint load r.2 pages)
             | None => Undefined
             end
         end
     | [] => Ret (None, myPages pool)
     end) ;;
  Ret (r.1,
       {| myPages := r.2;
          myAverageLoadRequest :=
            Float.div
              (Float.add
                 (Float.mul (myAverageLoadRequest pool)
                    (Float.of_Z (myRequestsCount pool)))
                 load)
              (Float.of_Z (to_size_t (myRequestsCount pool + 1)));
          myRequestsCount := to_size_t (myRequestsCount pool + 1) |}).

(** The constructor leaves no page and no request counted; the thread it
    starts runs [pages_allocating_proc]. *)
Definition Pool : t :=
  {| myPages := []; myAverageLoadRequest := 0; myRequestsCount := 0 |}.

(** One round of the loop of [pages_allocating_proc], no other thread
    running in between: [fresh] is the address [make_pages(1)] would get.
    The two loads are added exactly; this is the sum of the code when one of
    them is 0, as after a round that allocated. *)
Definition pages_allocating_round (fresh : Z) (pool : t) : t :=
  let maxLoad := Page.max_load in
  let maxPageLoad :=
    match myPages pool with
    | (first, _) :: _ => first
    | [] => maxLoad
    end in
  let averageLoad := myAverageLoadRequest pool in
  if Qle_bool maxLoad (maxPageLoad + averageLoad)
  then make_pages [fresh] pool
  else pool.

(** The rounds [pages_allocating_proc] runs before the stop is requested,
    one per address of [fresh]. *)
Fixpoint pages_allocating_proc (fresh : list Z) (pool : t) : t :=
  match fresh with
  | [] => pool
  | addr :: fresh' =>
      pages_allocating_proc fresh' (pages_allocating_round addr pool)
  end.

End Geometry.

(** The key the first entry has is not negative. *)
Definition first_key_nonneg (pages : list (Q * Page.t)) : bool :=
  match pages with
  | (first, _) :: _ => Qle_bool 0 first
  | [] => true
  end.

(** Every entry is a page as the constructor leaves it, under key 0. *)
Definition all_fresh (_Size _Alignment : Z) (pages : list (Q * Page.t))
  : Prop :=
  Forall (fun e => exists addr,
            e = (0%Q, Page.Page _Size _Alignment addr)) pages.

End Pool.

(** ** Observations on a page and on a pool *)

Module Observe.

(** What [release] is called with. *)
Inductive release_arg : Type :=
  | ByHint (hint : Page.Hint.t)
  | ByPointer (T : Ty) (ptr count : Z).

Section Geometry.

Variables _Size _Alignment : Z.

(** The specification's required number of blocks:
    ceil(sizeof(T) * count / Alignment). *)
Definition required_blocks_spec (T : Ty) (count : Z) : Z :=
  (sizeof T * count + _Alignment - 1) / _Alignment.

(** The scan of [fit] run with the specification's requirement. *)
Definition fit_spec (T : Ty) (count : Z) (p : Page.t)
  : outcome (option Z) :=
  Page.fit_loop _Size _Alignment
    (S (Z.to_nat (Page.blocks_count _Size _Alignment)))
    (Page.myInfo p) (required_blocks_spec T count) 0.

(** The run heads a scan of the directory meets from [pos] on, advancing
    by each run's block count. *)
Fixpoint heads (fuel : nat) (info : list PageBlockInfo.t) (pos : Z)
  : list PageBlockInfo.t :=
  match fuel with
  | O => []
  | S fuel' =>
      if (0 <=? pos) && (pos <? Page.blocks_count _Size _Alignment) then
        match info !! Z.to_nat pos with
        | Some c =>
            c :: (if PageBlockInfo.size c =? 0 then []
                  else heads fuel' info (pos + PageBlockInfo.size c))
        | None => []
        end
      else []
  end.

Definition run_heads (p : Page.t) : list PageBlockInfo.t :=
  heads (Z.to_nat (Page.blocks_count _Size _Alignment)) (Page.myInfo p) 0.

(** The operations a caller applies to one page. *)
Inductive op : Type :=
  | Occupy (T : Ty) (count : Z)
  | Release (T : Ty) (ptr count : Z).

Inductive result : Type :=
  | Pointer (ptr : option Z)
  | Released (ok : bool).

Definition step (o : op) (p : Page.t) : outcome (result * Page.t) :=
  match o with
  | Occupy T count =>
      r <- Page.try_occupy _Size _Alignment T count p ;;
      Ret (Pointer r.1, r.2)
  | Release T ptr count =>
      r <- Page.release_ptr _Size _Alignment T ptr count p ;;
      Ret (Released r.1, r.2)
  end.

Fixpoint run (ops : list op) (p : Page.t)
  : outcome (list result * Page.t) :=
  match ops with
  | [] => Ret ([], p)
  | o :: ops' =>
      r <- step o p ;;
      rs <- run ops' r.2 ;;
      Ret (r.1 :: rs.1, rs.2)
  end.

(** A caller that releases its allocations in the reverse order of its
    requests: [Push] is a call of [try_occupy], whose pointer, when it is
    not null, is kept on top of [live]; [Pop] is a call of [release] with
    the pointer and the count on top of [live]. *)
Inductive stack_op : Type :=
  | Push (T : Ty) (count : Z)
  | Pop.

(** The request is one a page of this alignment can take: a type it can
    align, a byte count the rounding does not wrap, at least one block. *)
Definition push_ok (o : stack_op) : bool :=
  match o with
  | Push T count =>
      (alignof T <=? _Alignment) && (0 <=? sizeof T * count)
      && (sizeof T * count + _Alignment - 1 <? 2 ^ 64)
      && (1 <=? Page.size_in_blocks _Alignment T count)
  | Pop => true
  end.

Fixpoint run_stack (ops : list stack_op) (live : list (Ty * Z * Z))
    (p : Page.t) : outcome (list result * list (Ty * Z * Z) * Page.t) :=
  match ops with
  | [] => Ret ([], live, p)
  | Push T count :: ops' =>
      r <- Page.try_occupy _Size _Alignment T count p ;;
      let live' :=
        match r.1 with
        | Some ptr => (T, count, ptr) :: live
        | None => live
        end in
      rs <- run_stack ops' live' r.2 ;;
      Ret (Pointer r.1 :: rs.1.1, rs.1.2, rs.2)
  | Pop :: ops' =>
      match live with
      | (T, count, ptr) :: live' =>
          r <- Page.release_ptr _Size _Alignment T ptr count p ;;
          rs <- run_stack ops' live' r.2 ;;
          Ret (Released r.1 :: rs.1.1, rs.1.2, rs.2)
      | [] => run_stack ops' live p
      end
  end.

(** The directory is well formed: it has [blocks_count] cells, every
    stored size is a [ptrdiff_t] other than its minimum, every run ends
    inside the directory and every backward link points into it. *)
Definition cell_ok (i : nat) (c : PageBlockInfo.t) : bool :=
  (- 2 ^ 63 <? PageBlockInfo.mySize c) && (PageBlockInfo.mySize c <? 2 ^ 63)
  && (Z.of_nat i + PageBlockInfo.size c
        <=? Page.blocks_count _Size _Alignment)
  && match PageBlockInfo.myPrev c with
     | Some pr => (0 <=? pr) && (pr <? Page.blocks_count _Size _Alignment)
     | None => true
     end.

Fixpoint cells_ok (i : nat) (info : list PageBlockInfo.t) : bool :=
  match info with
  | [] => true
  | c :: info' => cell_ok i c && cells_ok (S i) info'
  end.

Definition wf (p : Page.t) : bool :=
  (Z.of_nat (length (Page.myInfo p)) =? Page.blocks_count _Size _Alignment)
  && cells_ok 0 (Page.myInfo p).

Definition release_with (arg : release_arg) (p : Page.t)
  : outcome (bool * Page.t) :=
  match arg with
  | ByHint hint => Page.release _Size _Alignment hint p
  | ByPointer T ptr count =>
      Page.release_ptr _Size _Alignment T ptr count p
  end.

(** The argument does not designate an occupied head of the expected
    size: a hint that is not valid for this page's directory; a pointer
    of an over-aligned type, below the buffer, ending past it, not
    aligned on a block, or whose cell is free or of another size. *)
Definition rejected (arg : release_arg) (p : Page.t) : bool :=
  match arg with
  | ByHint hint =>
      negb (Page.Hint.is_valid_at hint (Page.cend _Size _Alignment p))
  | ByPointer T ptr count =>
      (_Alignment <? alignof T)
      || (ptr <? Page.myData p)
      || (to_size_t (Page.myData p + _Size)
            <? to_size_t (ptr + sizeof T * count))
      || negb (ptr mod _Alignment =? 0)
      || match Page.deref _Size _Alignment (Page.myInfo p)
                 (to_ptrdiff_t ((ptr - Page.myData p) / _Alignment)) with
         | Ret c =>
             PageBlockInfo.is_free c
             || negb (PageBlockInfo.size c
                        =? Page.size_in_blocks _Alignment T count)
         | _ => false
         end
  end.

End Geometry.

(** Two consecutive run heads that are both free. *)
Fixpoint adjacent_free (hs : list PageBlockInfo.t) : bool :=
  match hs with
  | a :: (b :: _) as rest =>
      (PageBlockInfo.is_free a && PageBlockInfo.is_free b)
      || adjacent_free rest
  | _ => false
  end.

(** The sum of the sizes of the run heads: the cells inside a run hold
    size 0. *)
Definition sum_sizes (info : list PageBlockInfo.t) : Z :=
  foldr (fun c acc => PageBlockInfo.size c + acc) 0 info.

(** Every key of the mapping is the load of the page it owns. *)
Definition keys_are_loads (pages : list (Q * Page.t)) : bool :=
  forallb (fun e => Qeq_bool e.1 (Page.load e.2)) pages.

(** The keys ascend, as [std::multimap] keeps them. *)
Fixpoint keys_sorted (pages : list (Q * Page.t)) : bool :=
  match pages with
  | a :: (b :: _) as rest => Qle_bool a.1 b.1 && keys_sorted rest
  | _ => true
  end.

End Observe.

(** ** Sample pages and pools *)

Module Sample.

Import Observe.

(** A [Page<4, 1>] at address 4096, as its constructor leaves it. *)
Definition fresh : Page.t :=
  {| Page.myData := 4096;
     Page.myInfo :=
       [ {| PageBlockInfo.myPrev := None; PageBlockInfo.mySize := 4 |};
         PageBlockInfo.default; PageBlockInfo.default;
         PageBlockInfo.default ];
     Page.myLoad := 0 |}.

(** A [Page<4, 1>] at address 8192 whose four blocks form one occupied
    run. *)
Definition full : Page.t :=
  {| Page.myData := 8192;
     Page.myInfo :=
       [ {| PageBlockInfo.myPrev := None; PageBlockInfo.mySize := -4 |};
         PageBlockInfo.default; PageBlockInfo.default;
         PageBlockInfo.default ];
     Page.myLoad := 1 |}.

(** A [Page<8, 4>] at address 4096: two blocks of four bytes. *)
Definition two_blocks : Page.t := Page.Page 8 4 4096.

Definition pool : Pool.t :=
  {| Pool.myPages := [ (0%Q, fresh); (1%Q, full) ];
     Pool.myAverageLoadRequest := 0;
     Pool.myRequestsCount := 0 |}.

(** Two runs of two blocks are occupied, then the first is released. *)
Definition freed_first : list op :=
  [ Occupy char 2; Occupy char 2; Release char 4096 2 ].

(** ... then one block is occupied in the freed run and the second run is
    released. *)
Definition split_then_release : list op :=
  freed_first ++ [ Occupy char 1; Release char 4098 2 ].

(** The first run is split twice, both parts and the second run are
    released, and one block is occupied again. *)
Definition steal : list op :=
  freed_first
  ++ [ Occupy char 1; Occupy char 1; Release char 4096 1;
       Release char 4098 2; Occupy char 1 ].

(** A [Page<4, 1>] at address 4096 after [try_occupy<char>(2)] on the fresh
    page: blocks 0-1 occupied, blocks 2-3 free. *)
Definition first_half : Page.t :=
  {| Page.myData := 4096;
     Page.myInfo :=
       [ {| PageBlockInfo.myPrev := None; PageBlockInfo.mySize := -2 |};
         PageBlockInfo.default;
         {| PageBlockInfo.myPrev := Some 0; PageBlockInfo.mySize := 2 |};
         PageBlockInfo.default ];
     Page.myLoad := 1 # 2 |}.

(** A [Page<20, 1>] at [addr] with its first [n] blocks occupied by one
    request. *)
Definition occupied (addr n : Z) : Page.t :=
  match Page.try_occupy 20 1 char n (Page.Page 20 1 addr) with
  | Ret r => r.2
  | _ => Page.Page 20 1 addr
  end.

(** Calls on a fresh [Page<16, 1>] at address 4096, every release with a
    pointer and a count an earlier call returned and was given: three
    requests fill the page, the middle one is released and taken again in
    two parts, the first two runs are released and three blocks are taken
    from them. *)
Definition stale_ops : list op :=
  [ Occupy char 3; Occupy char 7; Occupy char 6;
    Release char 4099 7;
    Occupy char 2; Occupy char 5;
    Release char 4096 3; Release char 4099 2;
    Occupy char 3 ].

(** The page these calls leave: blocks 0-2 occupied, 3-4 free, 5-9 and
    10-15 occupied, the last run still linked to block 3. *)
Definition stale : Page.t :=
  match run 16 1 stale_ops (Page.Page 16 1 4096) with
  | Ret r => r.2
  | _ => Page.Page 16 1 4096
  end.

(** The pool of the specification's example: loads 0.1, 0.4 and 0.8. *)
Definition loads_1_4_8 : Pool.t :=
  {| Pool.myPages :=
       [ ((1 # 10)%Q, occupied 4096 2); ((4 # 10)%Q, occupied 8192 8);
         ((8 # 10)%Q, occupied 12288 16) ];
     Pool.myAverageLoadRequest := 0;
     Pool.myRequestsCount := 0 |}.

(** The same pool with a full page behind the three. *)
Definition loads_1_4_8_10 : Pool.t :=
  {| Pool.myPages :=
       Pool.myPages loads_1_4_8 ++ [ (1%Q, occupied 16384 20) ];
     Pool.myAverageLoadRequest := 0;
     Pool.myRequestsCount := 0 |}.

End Sample.

(** ** The directory as a sequence of runs *)

Module Layout.

(** A run: whether it is free, its number of blocks, and the backward link
    its head holds. *)
Record run : Type := { free : bool; blocks : Z; link : option Z }.

(** The head cell of a run, then the unused cells of its other blocks. *)
Definition head (r : run) : PageBlockInfo.t :=
  {| PageBlockInfo.myPrev := link r;
     PageBlockInfo.mySize := if free r then blocks r else - blocks r |}.

Definition cells (r : run) : list PageBlockInfo.t :=
  head r :: replicate (Z.to_nat (blocks r - 1)) PageBlockInfo.default.

(** The directory that holds these runs one after the other. *)
Fixpoint render (runs : list run) : list PageBlockInfo.t :=
  match runs with
  | [] => []
  | r :: runs' => cells r ++ render runs'
  end.

Fixpoint total (runs : list run) : Z :=
  match runs with
  | [] => 0
  | r :: runs' => blocks r + total runs'
  end.

(** Every run has at least one block. *)
Definition sized (runs : list run) : bool :=
  forallb (fun r => 1 <=? blocks r) runs.

Definition option_Z_eqb (a b : option Z) : bool :=
  match a, b with
  | Some x, Some y => x =? y
  | None, None => true
  | _, _ => false
  end.

(** From offset [pos] on, every head links back to the head before it;
    [prev] is the head before [pos]. *)
Fixpoint linked (pos : Z) (prev : option Z) (runs : list run) : bool :=
  match runs with
  | [] => true
  | r :: runs' =>
      option_Z_eqb (link r) prev && linked (pos + blocks r) (Some pos) runs'
  end.

(** A run that serves a request of [n] blocks. *)
Definition fits (n : Z) (r : run) : bool := free r && (n <=? blocks r).

(** Two free runs side by side. *)
Fixpoint two_free (runs : list run) : bool :=
  match runs with
  | a :: (b :: _) as rest => (free a && free b) || two_free rest
  | _ => false
  end.

(** The blocks of the occupied runs. *)
Fixpoint occupied (runs : list run) : Z :=
  match runs with
  | [] => 0
  | r :: runs' => (if free r then 0 else blocks r) + occupied runs'
  end.

(** The runs after [try_occupy] has taken [n] blocks from the run [r] that
    follows [before]: an occupied run and, when [r] is larger, the free
    remainder, whose head links back to the occupied one. *)
Definition occupy_run (n : Z) (before : list run) (r : run)
    (after : list run) : list run :=
  before
  ++ {| free := false; blocks := n; link := link r |}
  :: (if n <? blocks r
      then [{| free := true; blocks := blocks r - n;
               link := Some (total before) |}]
      else [])
  ++ after.

(** The directory of [p] holds exactly these runs, and they fill it. *)
Definition lays_out (_Size _Alignment : Z) (p : Page.t) (runs : list run)
  : Prop :=
  Page.myInfo p = render runs /\ sized runs = true /\
  total runs = Page.blocks_count _Size _Alignment.

(** Requests of [ns] blocks served one behind the other in a buffer of
    [bc] blocks of [_Alignment] bytes at [base], [used] blocks being taken
    already; a request that does not fit any more is refused. *)
Fixpoint bump (base _Alignment bc used : Z) (ns : list Z)
  : list (option Z) :=
  match ns with
  | [] => []
  | n :: ns' =>
      if used + n <=? bc
      then Some (base + used * _Alignment)
           :: bump base _Alignment bc (used + n) ns'
      else None :: bump base _Alignment bc used ns'
  end.

Fixpoint bump_used (bc used : Z) (ns : list Z) : Z :=
  match ns with
  | [] => used
  | n :: ns' =>
      if used + n <=? bc then bump_used bc (used + n) ns'
      else bump_used bc used ns'
  end.

(** The runs with the backward link of the first one rewritten. *)
Definition relink (l : option Z) (runs : list run) : list run :=
  match runs with
  | [] => []
  | r :: rest => {| free := free r; blocks := blocks r; link := l |} :: rest
  end.

(** The head right before the runs [before] end, as a backward link. *)
Definition back_link (before : list run) : option Z :=
  match last before with
  | Some _ => Some (total (removelast before))
  | None => None
  end.

(** Whether the run behind a released one is free, the blocks of the
    released run with those of a free run behind it, and the runs that
    follow the two, the first of them linked back to [l]. *)
Definition right_free (after : list run) : bool :=
  match after with
  | r2 :: _ => free r2
  | [] => false
  end.

Definition merged_size (r : run) (after : list run) : Z :=
  match after with
  | r2 :: _ => if free r2 then blocks r + blocks r2 else blocks r
  | [] => blocks r
  end.

Definition merged_rest (l : option Z) (after : list run) : list run :=
  match after with
  | r2 :: after' => if free r2 then relink l after' else after
  | [] => []
  end.

(** The runs after [release] of the run [r] between [before] and [after]:
    [r] is free, joined with a free run behind it and with a free run
    before it. *)
Definition release_run (before : list run) (r : run) (after : list run)
  : list run :=
  let alone :=
    before
    ++ {| free := true; blocks := merged_size r after; link := link r |}
    :: merged_rest (Some (total before)) after in
  match last before with
  | Some r0 =>
      if free r0
      then removelast before
           ++ {| free := true; blocks := merged_size r after + blocks r0;
                 link := link r0 |}
           :: merged_rest (Some (total (removelast before))) after
      else alone
  | None => alone
  end.

(** Occupied runs of [ns] blocks one behind the other from offset [pos]
    on, each linked back to the head before it; [prev] is the head before
    [pos]. *)
Fixpoint stack_occs (pos : Z) (prev : option Z) (ns : list Z) : list run :=
  match ns with
  | [] => []
  | n :: ns' =>
      {| free := false; blocks := n; link := prev |}
      :: stack_occs (pos + n) (Some pos) ns'
  end.

(** These runs, and one free run for the blocks that are left. *)
Definition stack_runs (bc : Z) (ns : list Z) : list run :=
  let occs := stack_occs 0 None ns in
  occs ++ if total occs <? bc
          then [ {| free := true; blocks := bc - total occs;
                    link := back_link occs |} ]
          else [].

(** The blocks of the allocations in [live], the oldest first. *)
Definition stack_sizes (_Alignment : Z) (live : list (Ty * Z * Z))
  : list Z :=
  rev (map (fun e : Ty * Z * Z =>
              Page.size_in_blocks _Alignment e.1.1 e.1.2) live).

(** Every allocation in [live] starts right behind the older ones. *)
Fixpoint stacked_at (addr _Alignment : Z) (live : list (Ty * Z * Z))
  : Prop :=
  match live with
  | [] => True
  | (_, _, ptr) :: live' =>
      ptr = addr
            + total (stack_occs 0 None (stack_sizes _Alignment live'))
              * _Alignment
      /\ stacked_at addr _Alignment live'
  end.

(** The page at [addr] that holds the allocations of [live] and nothing
    else. *)
Definition stack_state (_Size _Alignment addr : Z)
    (live : list (Ty * Z * Z)) (p : Page.t) : Prop :=
  lays_out _Size _Alignment p
    (stack_runs (Page.blocks_count _Size _Alignment)
       (stack_sizes _Alignment live)) /\
  Page.myData p = addr /\
  stacked_at addr _Alignment live /\
  Forall (fun e : Ty * Z * Z =>
            Observe.push_ok _Alignment (Observe.Push e.1.1 e.1.2) = true)
    live.

(** The page at [addr] after requests served one behind the other: [used]
    blocks are taken by occupied runs and the rest, if any, is one free
    run. *)
Definition bump_state (_Size _Alignment addr used : Z) (p : Page.t)
  : Prop :=
  exists occs l,
    lays_out _Size _Alignment p
      (occs ++ if used <? Page.blocks_count _Size _Alignment
               then [ {| free := true;
                         blocks := Page.blocks_count _Size _Alignment - used;
                         link := l |} ]
               else []) /\
    Forall (fun r => free r = false) occs /\
    total occs = used /\
    Page.myData p = addr.

End Layout.

Import Observe.

(** * Lemmas on the embedding *)

(** ** Outcomes and machine integers *)

Lemma bind_Ret {A B : Type} (m : outcome A) (k : A -> outcome B) (b : B) :
  bind m k = Ret b -> exists a, m = Ret a /\ k a = Ret b.
Proof. destruct m; simpl; intros H; try discriminate; eauto. Qed.

Lemma to_ptrdiff_t_id (z : Z) :
  - 2 ^ 63 <= z < 2 ^ 63 -> to_ptrdiff_t z = z.
Proof.
  intros H. unfold to_ptrdiff_t, size_t_modulus.
  rewrite Z.mod_small; lia.
Qed.

Lemma to_size_t_id (z : Z) : 0 <= z < 2 ^ 64 -> to_size_t z = z.
Proof. intros H. unfold to_size_t, size_t_modulus. apply Z.mod_small; lia. Qed.

(** ** The arithmetic of [float] *)

(** Values of [Float.round]: 0.1 and 2/3 go to the nearest value of 24
    bits; an integer of 25 bits halfway between two such values goes to the
    even one; a value of 24 bits or less is kept. *)
Lemma round_values :
  Float.round (1 # 10) = (13421773 # 134217728)%Q /\
  Float.round (2 # 3) = (11184811 # 16777216)%Q /\
  Float.of_Z 16777217 = 16777216%Q /\
  Float.of_Z 16777219 = 16777220%Q /\
  Float.round (- (5 # 16)) = (- (5 # 16))%Q /\
  Float.of_Z (2 ^ 64 - 1) = inject_Z (2 ^ 64).
Proof. repeat split; vm_compute; reflexivity. Qed.

(** Values of [load_of]: the step 1/20 and the step 1/6 are rounded before
    the product, which is rounded again. *)
Lemma load_of_values :
  Page.load_of 20 char 3 = (5033165 # 33554432)%Q /\
  Page.load_of 6 char 5 = (6990507 # 8388608)%Q /\
  Page.load_of 20 char 12 = (5033165 # 8388608)%Q /\
  Page.load_of 4 char 1 = (1 # 4)%Q /\
  Page.load_of 20 char 40 = 2%Q.
Proof. repeat split; vm_compute; reflexivity. Qed.

Section PageFacts.

Variables _Size _Alignment : Z.

Local Abbreviation bc := (Page.blocks_count _Size _Alignment).

Lemma deref_Ret info pos c :
  Page.deref _Size _Alignment info pos = Ret c <->
  0 <= pos < bc /\ info !! Z.to_nat pos = Some c.
Proof.
  unfold Page.deref.
  destruct (0 <=? pos) eqn:H0, (pos <? bc) eqn:H1; simpl;
    try (split; [discriminate | lia]).
  destruct (info !! Z.to_nat pos) eqn:E.
  - split; [intros [= ->]; split; [lia | done] | intros [_ [= ->]]; done].
  - split; [discriminate | intros [_ [=]]].
Qed.

Lemma update_Ret info pos f info' :
  Page.update _Size _Alignment info pos f = Ret info' <->
  exists c, 0 <= pos < bc /\ info !! Z.to_nat pos = Some c
            /\ info' = <[Z.to_nat pos := f c]> info.
Proof.
  unfold Page.update. split.
  - intros H. apply bind_Ret in H as (c & Hc & [= <-]).
    apply deref_Ret in Hc as [? ?]. eauto.
  - intros (c & Hr & Hl & ->).
    assert (Page.deref _Size _Alignment info pos = Ret c) as ->
      by (apply deref_Ret; done).
    reflexivity.
Qed.

Lemma advance_Ret pos n pos' :
  Page.advance _Size _Alignment pos n = Ret pos' <->
  pos' = pos + to_ptrdiff_t n /\ 0 <= pos' <= bc.
Proof.
  unfold Page.advance.
  destruct (0 <=? pos + to_ptrdiff_t n) eqn:H0,
           (pos + to_ptrdiff_t n <=? bc) eqn:H1; simpl;
    (split; [intros [= <-] | intros [-> ?]]); try lia; done.
Qed.

Lemma from_hint_invalid p hint :
  Page.Hint.is_valid_at hint (Page.cend _Size _Alignment p) = false ->
  Page.from_hint _Size _Alignment p hint = bc.
Proof. unfold Page.from_hint. intros ->. reflexivity. Qed.

Lemma release_invalid_hint p hint :
  Page.Hint.is_valid_at hint (Page.cend _Size _Alignment p) = false ->
  Page.release _Size _Alignment hint p = Ret (false, p).
Proof.
  intros H. unfold Page.release.
  rewrite (from_hint_invalid _ _ H), Z.eqb_refl. reflexivity.
Qed.

Lemma make_end_invalid p :
  Page.Hint.is_valid_at (Page.Hint.make_end (Page.cend _Size _Alignment p))
    (Page.cend _Size _Alignment p) = false.
Proof.
  unfold Page.Hint.is_valid_at, Page.Hint.make_end; simpl.
  unfold Page.iterator_eqb. rewrite !Z.eqb_refl. reflexivity.
Qed.

Lemma contains_rejects T ptr count p :
  rejected _Size _Alignment (ByPointer T ptr count) p = true ->
  Page.contains _Size _Alignment T ptr count p
  = Ret (Page.Hint.make_end (Page.cend _Size _Alignment p)).
Proof.
  unfold rejected, Page.contains. intros H.
  destruct (alignof T <=? _Alignment) eqn:Ha; [| reflexivity].
  destruct (Page.myData p <=? ptr) eqn:Hb; [| reflexivity].
  destruct (to_size_t (ptr + sizeof T * count)
              <=? to_size_t (Page.myData p + _Size)) eqn:Hc; [| reflexivity].
  destruct (ptr mod _Alignment =? 0) eqn:Hd; [| reflexivity].
  simpl.
  replace (_Alignment <? alignof T) with false in H by lia.
  replace (ptr <? Page.myData p) with false in H by lia.
  replace (to_size_t (Page.myData p + _Size)
             <? to_size_t (ptr + sizeof T * count)) with false in H by lia.
  simpl in H.
  destruct (Page.deref _Size _Alignment (Page.myInfo p)
              (to_ptrdiff_t ((ptr - Page.myData p) / _Alignment)))
    as [c | |] eqn:Hderef; try discriminate.
  pose proof Hderef as Hr. apply deref_Ret in Hr as [Hr _].
  assert (Page.advance _Size _Alignment 0
            ((ptr - Page.myData p) / _Alignment)
          = Ret (to_ptrdiff_t ((ptr - Page.myData p) / _Alignment))) as ->
    by (apply advance_Ret; lia).
  simpl. rewrite Hderef. simpl.
  destruct (PageBlockInfo.is_free c); simpl in *; [reflexivity |].
  rewrite negb_true_iff in H. rewrite H. reflexivity.
Qed.

End PageFacts.

(** ** Sizes stored in a cell *)

Lemma size_in_range c :
  - 2 ^ 63 < PageBlockInfo.mySize c < 2 ^ 63 ->
  PageBlockInfo.size c = Z.abs (PageBlockInfo.mySize c)
  /\ 0 <= PageBlockInfo.size c < 2 ^ 63.
Proof.
  intros H. unfold PageBlockInfo.size.
  destruct (0 <=? PageBlockInfo.mySize c) eqn:E;
    rewrite to_size_t_id by lia; lia.
Qed.

Lemma size_make_head free n c :
  0 <= n < 2 ^ 63 ->
  PageBlockInfo.size (PageBlockInfo.make_head free n c) = n.
Proof.
  intros H. unfold PageBlockInfo.size, PageBlockInfo.make_head; simpl.
  destruct free.
  - rewrite to_ptrdiff_t_id by lia.
    destruct (0 <=? n) eqn:E; [| lia]. apply to_size_t_id. lia.
  - rewrite (to_ptrdiff_t_id n) by lia. rewrite to_ptrdiff_t_id by lia.
    destruct (0 <=? - n) eqn:E; rewrite to_size_t_id; lia.
Qed.

Lemma size_set_prev link c :
  PageBlockInfo.size (PageBlockInfo.set_prev link c) = PageBlockInfo.size c.
Proof. reflexivity. Qed.

Lemma is_free_make_head_true n c :
  0 <= n < 2 ^ 63 ->
  PageBlockInfo.is_free (PageBlockInfo.make_head true n c) = (0 <? n).
Proof.
  intros H. unfold PageBlockInfo.is_free, PageBlockInfo.make_head; simpl.
  by rewrite to_ptrdiff_t_id by lia.
Qed.

Lemma is_free_make_head_false n c :
  0 <= n < 2 ^ 63 ->
  PageBlockInfo.is_free (PageBlockInfo.make_head false n c) = false.
Proof.
  intros H. unfold PageBlockInfo.is_free, PageBlockInfo.make_head; simpl.
  rewrite (to_ptrdiff_t_id n) by lia. rewrite to_ptrdiff_t_id by lia. lia.
Qed.

Lemma to_size_t_nonneg z : 0 <= to_size_t z < 2 ^ 64.
Proof. unfold to_size_t, size_t_modulus. apply Z.mod_pos_bound. lia. Qed.

Lemma size_in_blocks_nonneg _Alignment T count :
  0 <= Page.size_in_blocks _Alignment T count.
Proof.
  unfold Page.size_in_blocks. apply Z.land_nonneg. left.
  apply to_size_t_nonneg.
Qed.

(** ** [size_in_blocks] in general *)

(** For an alignment 2^k and a byte count the rounding does not overflow,
    [size_in_blocks] is the alignment times the number of blocks the
    specification asks for: the two agree only for an alignment of 1 (or a
    request of zero bytes). *)
Lemma size_in_blocks_is_rounded_bytes (k : Z) (T : Ty) (count : Z) :
  0 <= k < 64 ->
  0 <= sizeof T * count ->
  sizeof T * count + 2 ^ k - 1 < 2 ^ 64 ->
  Page.size_in_blocks (2 ^ k) T count
  = 2 ^ k * required_blocks_spec (2 ^ k) T count.
Proof.
  intros Hk Hbytes Hfit.
  unfold Page.size_in_blocks, required_blocks_spec.
  set (x := sizeof T * count) in *.
  assert (0 < 2 ^ k) as Hpos by (apply Z.pow_pos_nonneg; lia).
  assert (2 ^ k <= 2 ^ 63) as Hk63 by (apply Z.pow_le_mono_r; lia).
  assert (to_size_t (to_size_t (to_size_t x + 2 ^ k) - 1) = x + 2 ^ k - 1)
    as ->.
  { unfold to_size_t, size_t_modulus.
    rewrite (Z.mod_small x) by lia.
    rewrite Zminus_mod_idemp_l. apply Z.mod_small. lia. }
  assert (to_size_t (2 ^ k - 1) = Z.ones k) as ->.
  { rewrite Z.ones_equiv. unfold to_size_t, size_t_modulus.
    rewrite Z.mod_small; lia. }
  assert (to_size_t (Z.lnot (Z.ones k)) = Z.land (Z.lnot (Z.ones k)) (Z.ones 64))
    as -> by (unfold to_size_t, size_t_modulus; by rewrite Z.land_ones).
  rewrite Z.land_assoc, (Z.land_comm (x + 2 ^ k - 1)), <- Z.land_assoc.
  rewrite (Z.land_ones (x + 2 ^ k - 1) 64) by lia.
  rewrite (Z.mod_small (x + 2 ^ k - 1)) by lia.
  rewrite Z.land_comm, <- Z.ldiff_land, Z.ldiff_ones_r by lia.
  rewrite Z.shiftr_div_pow2, Z.shiftl_mul_pow2 by lia.
  lia.
Qed.

(** The required size is at least the byte count. *)
Lemma size_in_blocks_ge_bytes k T count :
  0 <= k < 64 ->
  0 <= sizeof T * count ->
  sizeof T * count + 2 ^ k - 1 < 2 ^ 64 ->
  sizeof T * count <= Page.size_in_blocks (2 ^ k) T count.
Proof.
  intros Hk H0 Hfit.
  rewrite size_in_blocks_is_rounded_bytes by done.
  unfold required_blocks_spec.
  assert (0 < 2 ^ k) as Hpos by (apply Z.pow_pos_nonneg; lia).
  pose proof (Z.mod_pos_bound (sizeof T * count + 2 ^ k - 1) (2 ^ k) Hpos).
  pose proof (Z.div_mod (sizeof T * count + 2 ^ k - 1) (2 ^ k)). lia.
Qed.

(** ** What [try_occupy] does with a hint *)

Section OccupyFacts.

Variables _Size _Alignment : Z.

Local Abbreviation bc := (Page.blocks_count _Size _Alignment).

Lemma update_length info pos f info' :
  Page.update _Size _Alignment info pos f = Ret info' ->
  length info' = length info.
Proof.
  intros H. apply update_Ret in H as (c & _ & _ & ->). apply length_insert.
Qed.

Lemma update_in_range info pos f :
  Z.of_nat (length info) = bc -> 0 <= pos < bc ->
  exists c, info !! Z.to_nat pos = Some c /\
            Page.update _Size _Alignment info pos f
            = Ret (<[Z.to_nat pos := f c]> info).
Proof.
  intros Hlen Hpos.
  destruct (lookup_lt_is_Some_2 info (Z.to_nat pos)) as [c Hc]; [lia |].
  exists c. split; [done |]. apply update_Ret. eauto.
Qed.

Lemma deref_in_range info pos :
  Z.of_nat (length info) = bc -> 0 <= pos < bc ->
  exists c, info !! Z.to_nat pos = Some c /\
            Page.deref _Size _Alignment info pos = Ret c.
Proof.
  intros Hlen Hpos.
  destruct (lookup_lt_is_Some_2 info (Z.to_nat pos)) as [c Hc]; [lia |].
  exists c. split; [done |]. apply deref_Ret. eauto.
Qed.

(** The result of [try_occupy(count, hint)] for a hint that is valid for the
    page: the directory [info1] after the split, then the head rewritten as
    occupied, the load raised and the address of the run returned. *)
Lemma try_occupy_at_Ret T count hint p r q :
  Page.try_occupy_at _Size _Alignment T count hint p = Ret (r, q) ->
  Page.from_hint _Size _Alignment p hint <> bc ->
  exists c c1 info1,
    let iter := Page.from_hint _Size _Alignment p hint in
    let blocks := Page.size_in_blocks _Alignment T count in
    let next := iter + to_ptrdiff_t blocks in
    0 <= iter < bc /\
    Page.myInfo p !! Z.to_nat iter = Some c /\
    length info1 = length (Page.myInfo p) /\
    info1 !! Z.to_nat iter = Some c1 /\
    ((info1 = Page.myInfo p /\ (PageBlockInfo.size c <= blocks \/ next = bc))
     \/ (blocks < PageBlockInfo.size c /\ 0 <= next < bc /\
         exists cn,
           Page.myInfo p !! Z.to_nat next = Some cn /\
           info1 = <[Z.to_nat next :=
                       PageBlockInfo.set_prev (Some iter)
                         (PageBlockInfo.make_head true
                            (to_size_t (PageBlockInfo.size c - blocks)) cn)]>
                     (Page.myInfo p))) /\
    r = Some (Page.myData p + iter * _Alignment) /\
    q = {| Page.myData := Page.myData p;
           Page.myInfo :=
             <[Z.to_nat iter := PageBlockInfo.make_head false blocks c1]> info1;
           Page.myLoad :=
             (Page.myLoad p + inject_Z blocks / inject_Z bc)%Q |}.
Proof.
  intros H Hvalid. unfold Page.try_occupy_at in H.
  destruct (Page.from_hint _Size _Alignment p hint =? bc) eqn:E; [lia |].
  simpl in H.
  apply bind_Ret in H as (c & Hc & H).
  apply bind_Ret in H as (info1 & Hsplit & H).
  apply bind_Ret in H as (info2 & Hocc & H).
  injection H as <- <-.
  apply deref_Ret in Hc as [Hiter Hc].
  apply update_Ret in Hocc as (c1 & _ & Hc1 & ->).
  exists c, c1, info1. cbv zeta.
  rewrite Z.sub_0_r.
  assert (length info1 = length (Page.myInfo p)
          /\ ((info1 = Page.myInfo p /\
               (PageBlockInfo.size c <= Page.size_in_blocks _Alignment T count
                \/ Page.from_hint _Size _Alignment p hint
                   + to_ptrdiff_t (Page.size_in_blocks _Alignment T count)
                   = bc))
              \/ (Page.size_in_blocks _Alignment T count < PageBlockInfo.size c
                  /\ 0 <= Page.from_hint _Size _Alignment p hint
                          + to_ptrdiff_t
                              (Page.size_in_blocks _Alignment T count) < bc
                  /\ exists cn,
                       Page.myInfo p
                         !! Z.to_nat
                              (Page.from_hint _Size _Alignment p hint
                               + to_ptrdiff_t
                                   (Page.size_in_blocks _Alignment T count))
                       = Some cn /\
                       info1
                       = <[Z.to_nat
                             (Page.from_hint _Size _Alignment p hint
                              + to_ptrdiff_t
                                  (Page.size_in_blocks _Alignment T count)) :=
                             PageBlockInfo.set_prev
                               (Some (Page.from_hint _Size _Alignment p hint))
                               (PageBlockInfo.make_head true
                                  (to_size_t
                                     (PageBlockInfo.size c
                                      - Page.size_in_blocks _Alignment T count))
                                  cn)]>
                           (Page.myInfo p)))) as [Hlen Hinfo1].
  { destruct (Page.size_in_blocks _Alignment T count <? PageBlockInfo.size c)
      eqn:Hlt.
    - apply bind_Ret in Hsplit as (next & Hnext & Hsplit).
      apply advance_Ret in Hnext as [-> Hnext].
      destruct (_ =? bc) eqn:Hend in Hsplit; simpl in Hsplit.
      + injection Hsplit as <-. split; [done |]. left. split; [done |]. lia.
      + apply bind_Ret in Hsplit as (info' & Hmk & Hprev).
        apply update_Ret in Hmk as (cn & _ & Hcn & ->).
        apply update_Ret in Hprev as (cn' & _ & Hcn' & ->).
        rewrite list_lookup_insert_eq in Hcn'
          by (by apply lookup_lt_Some in Hcn).
        injection Hcn' as <-.
        rewrite list_insert_insert_eq.
        split; [apply length_insert |].
        right. split; [lia |]. split; [lia |]. eauto.
    - injection Hsplit as <-. split; [done |]. left. split; [done |]. lia. }
  repeat split; try done; lia.
Qed.


End OccupyFacts.

Lemma try_occupy_at_end _Size _Alignment T count hint p :
  Page.from_hint _Size _Alignment p hint
  = Page.blocks_count _Size _Alignment ->
  Page.try_occupy_at _Size _Alignment T count hint p = Ret (None, p).
Proof.
  intros H. unfold Page.try_occupy_at. rewrite H, Z.eqb_refl. reflexivity.
Qed.

(** ** What [fit] returns *)

Section FitFacts.

Variables _Size _Alignment : Z.

Local Abbreviation bc := (Page.blocks_count _Size _Alignment).

Lemma fit_loop_Some fuel info blocks pos i :
  Page.fit_loop _Size _Alignment fuel info blocks pos = Ret (Some i) ->
  exists c,
    0 <= i < bc /\ info !! Z.to_nat i = Some c /\
    PageBlockInfo.is_free c = true /\ blocks <= PageBlockInfo.size c.
Proof.
  revert pos. induction fuel as [| fuel IH]; intros pos; simpl.
  - destruct (pos =? bc); discriminate.
  - destruct (pos =? bc); [discriminate |].
    intros H. apply bind_Ret in H as (c & Hc & H).
    destruct (PageBlockInfo.is_free c && (blocks <=? PageBlockInfo.size c))
      eqn:Hfit.
    + injection H as <-. apply deref_Ret in Hc as [? ?].
      apply andb_true_iff in Hfit as [? ?]. exists c. repeat split; try done; lia.
    + apply bind_Ret in H as (pos' & _ & H). eauto.
Qed.

Lemma from_hint_make p i :
  i <> bc ->
  Page.from_hint _Size _Alignment p
    (Page.Hint.make {| Page.it_array := Page.myData p; Page.it_pos := i |}
       (Page.cend _Size _Alignment p)) = i.
Proof.
  intros Hi. unfold Page.from_hint, Page.Hint.is_valid_at, Page.iterator_eqb.
  simpl. rewrite !Z.eqb_refl. simpl.
  destruct (i =? bc) eqn:E; [lia |]. simpl. lia.
Qed.

Lemma from_hint_make_end p :
  Page.from_hint _Size _Alignment p
    (Page.Hint.make_end (Page.cend _Size _Alignment p)) = bc.
Proof. apply from_hint_invalid, make_end_invalid. Qed.

(** [fit] returns [Hint(end)], or a hint to a free head of at least the
    size [size_in_blocks] gives; the latter only for a type the page can
    align. *)
Lemma fit_Ret T count p hint :
  Page.fit _Size _Alignment T count p = Ret hint ->
  Page.from_hint _Size _Alignment p hint = bc \/
  exists c,
    0 <= Page.from_hint _Size _Alignment p hint < bc /\
    Page.myInfo p !! Z.to_nat (Page.from_hint _Size _Alignment p hint)
    = Some c /\
    PageBlockInfo.is_free c = true /\
    Page.size_in_blocks _Alignment T count <= PageBlockInfo.size c /\
    alignof T <= _Alignment /\
    hint = Page.Hint.make
             {| Page.it_array := Page.myData p;
                Page.it_pos := Page.from_hint _Size _Alignment p hint |}
             (Page.cend _Size _Alignment p).
Proof.
  unfold Page.fit. intros H.
  destruct (alignof T <=? _Alignment) eqn:Ha.
  - apply bind_Ret in H as ([i |] & Hloop & H); injection H as <-.
    + apply fit_loop_Some in Hloop as (c & Hi & Hc & Hfree & Hsize).
      right. rewrite from_hint_make by lia. exists c.
      repeat split; try done; lia.
    + left. apply from_hint_make_end.
  - injection H as <-. left. apply from_hint_make_end.
Qed.

(** A hint keeps designating the same cell as long as the page stays at its
    address. *)
Lemma from_hint_same_page p q hint :
  Page.myData q = Page.myData p ->
  Page.from_hint _Size _Alignment q hint
  = Page.from_hint _Size _Alignment p hint.
Proof.
  intros H. unfold Page.from_hint, Page.cend, Page.cbegin. rewrite H. done.
Qed.

End FitFacts.

(** ** The fuel of [fit] *)

Section FitFuel.

Variables _Size _Alignment : Z.

Local Abbreviation bc := (Page.blocks_count _Size _Alignment).

(** A head of size 0 that does not hold the request stops the scan for
    ever: the iterator no longer moves. *)
Lemma fit_loop_stuck info blocks pos c :
  Page.deref _Size _Alignment info pos = Ret c ->
  PageBlockInfo.size c = 0 ->
  PageBlockInfo.is_free c && (blocks <=? PageBlockInfo.size c) = false ->
  forall fuel,
    Page.fit_loop _Size _Alignment fuel info blocks pos = Diverges.
Proof.
  intros Hc Hsize Hfit fuel.
  pose proof Hc as Hr. apply deref_Ret in Hr as [Hr _].
  induction fuel as [| fuel IH]; simpl.
  - destruct (pos =? bc) eqn:E; [lia | done].
  - destruct (pos =? bc) eqn:E; [lia |].
    rewrite Hc. simpl. rewrite Hfit, Hsize.
    unfold Page.advance. rewrite (to_ptrdiff_t_id 0) by lia.
    rewrite Z.add_0_r.
    replace ((0 <=? pos) && (pos <=? bc)) with true by lia.
    simpl. exact IH.
Qed.

(** When every stored size is a [ptrdiff_t] other than its minimum, the scan
    from [pos] needs at most blocks_count - pos + 1 rounds: more fuel does
    not change its outcome, so [Diverges] stands for a loop that does not
    end. *)
Lemma fit_loop_fuel info blocks :
  Forall (fun c => - 2 ^ 63 < PageBlockInfo.mySize c < 2 ^ 63) info ->
  forall k pos fuel1 fuel2,
    0 <= pos <= bc -> bc - pos <= Z.of_nat k ->
    (k < fuel1)%nat -> (k < fuel2)%nat ->
    Page.fit_loop _Size _Alignment fuel1 info blocks pos
    = Page.fit_loop _Size _Alignment fuel2 info blocks pos.
Proof.
  intros Hrange k.
  induction k as [| k IH]; intros pos fuel1 fuel2 Hpos Hk H1 H2;
    destruct fuel1 as [| fuel1]; try lia;
    destruct fuel2 as [| fuel2]; try lia; simpl.
  - replace (pos =? bc) with true by lia. reflexivity.
  - destruct (pos =? bc) eqn:E; [reflexivity |].
    destruct (Page.deref _Size _Alignment info pos) as [c | |] eqn:Hc;
      simpl; try reflexivity.
    destruct (PageBlockInfo.is_free c && (blocks <=? PageBlockInfo.size c))
      eqn:Hfit; [reflexivity |].
    pose proof Hc as Hl. apply deref_Ret in Hl as [_ Hl].
    pose proof (proj1 (Forall_lookup _ _) Hrange _ _ Hl) as Hcr.
    simpl in Hcr. destruct (size_in_range c Hcr) as [_ Hsz].
    destruct (decide (PageBlockInfo.size c = 0)) as [Hz | Hnz].
    + assert (Page.advance _Size _Alignment pos (PageBlockInfo.size c)
              = Ret pos) as ->.
      { apply advance_Ret. rewrite Hz, to_ptrdiff_t_id; lia. }
      simpl. rewrite !(fit_loop_stuck info blocks pos c); done.
    + destruct (Page.advance _Size _Alignment pos (PageBlockInfo.size c))
        as [pos' | |] eqn:Hadv; simpl; try reflexivity.
      apply advance_Ret in Hadv as [-> Hadv].
      rewrite to_ptrdiff_t_id in * by lia.
      apply IH; lia.
Qed.

End FitFuel.

(** ** When [release] returns *)

Section ReleaseFacts.

Variables _Size _Alignment : Z.

Local Abbreviation bc := (Page.blocks_count _Size _Alignment).

(** [release(hint)] returns true, with the load lowered by the share of the
    head's size, as soon as the iterators it forms stay inside the
    directory. *)
Lemma release_returns hint p c :
  let iter := Page.from_hint _Size _Alignment p hint in
  let next := iter + to_ptrdiff_t (PageBlockInfo.size c) in
  Z.of_nat (length (Page.myInfo p)) = bc ->
  0 <= iter < bc ->
  Page.myInfo p !! Z.to_nat iter = Some c ->
  0 <= next <= bc ->
  (forall n,
     <[Z.to_nat iter :=
         PageBlockInfo.make_head true (PageBlockInfo.size c) c]>
       (Page.myInfo p) !! Z.to_nat next = Some n ->
     next < bc ->
     PageBlockInfo.is_free n = true ->
     0 <= next + to_ptrdiff_t (PageBlockInfo.size n) <= bc) ->
  (forall pr, PageBlockInfo.prev c = Some pr -> 0 <= pr < bc) ->
  exists q,
    Page.release _Size _Alignment hint p = Ret (true, q) /\
    Page.myData q = Page.myData p /\
    length (Page.myInfo q) = length (Page.myInfo p) /\
    Page.myLoad q
    = (Page.myLoad p - inject_Z (PageBlockInfo.size c) / inject_Z bc)%Q.
Proof.
  intros iter next Hlen Hiter Hc Hnext Hfar Hprev.
  unfold Page.release. fold iter.
  destruct (iter =? bc) eqn:E; [lia |]. simpl.
  assert (Page.deref _Size _Alignment (Page.myInfo p) iter = Ret c) as ->
    by (by apply deref_Ret).
  simpl.
  assert (Page.advance _Size _Alignment iter (PageBlockInfo.size c)
          = Ret next) as -> by (by apply advance_Ret).
  simpl.
  assert (Page.update _Size _Alignment (Page.myInfo p) iter
            (PageBlockInfo.make_head true (PageBlockInfo.size c))
          = Ret (<[Z.to_nat iter :=
                     PageBlockInfo.make_head true (PageBlockInfo.size c) c]>
                   (Page.myInfo p))) as ->
    by (apply update_Ret; eauto).
  simpl.
  set (info1 := <[Z.to_nat iter := _]> (Page.myInfo p)) in *.
  assert (Z.of_nat (length info1) = bc) as Hlen1
    by (unfold info1; by rewrite length_insert).
  (* the merge with the next run *)
  assert (exists info2 size farNext,
            (if negb (next =? bc) then
               n <- Page.deref _Size _Alignment info1 next ;;
               if PageBlockInfo.is_free n then
                 farNext <- Page.advance _Size _Alignment next
                              (PageBlockInfo.size n) ;;
                 info' <-
                   (if negb (farNext =? bc)
                    then Page.update _Size _Alignment info1 farNext
                           (PageBlockInfo.set_prev (Some iter))
                    else Ret info1) ;;
                 info'' <- Page.update _Size _Alignment info' iter
                             (PageBlockInfo.make_head true
                                (to_size_t (PageBlockInfo.size c
                                            + PageBlockInfo.size n))) ;;
                 info''' <- Page.update _Size _Alignment info'' next
                              PageBlockInfo.remove_head ;;
                 Ret (info''',
                      to_size_t (PageBlockInfo.size c + PageBlockInfo.size n),
                      farNext)
               else Ret (info1, PageBlockInfo.size c, bc)
             else Ret (info1, PageBlockInfo.size c, bc))
            = Ret (info2, size, farNext)
            /\ Z.of_nat (length info2) = bc /\ 0 <= farNext <= bc)
    as (info2 & size & farNext & -> & Hlen2 & HfarNext).
  { destruct (next =? bc) eqn:En; simpl.
    { do 3 eexists. split; [reflexivity |]. split; [done | lia]. }
    destruct (deref_in_range _Size _Alignment info1 next) as (n & Hn & ->);
      [done | lia |]. simpl.
    destruct (PageBlockInfo.is_free n) eqn:Hfree.
    2: { do 3 eexists. split; [reflexivity |]. split; [done | lia]. }
    specialize (Hfar n Hn ltac:(lia) Hfree).
    assert (Page.advance _Size _Alignment next (PageBlockInfo.size n)
            = Ret (next + to_ptrdiff_t (PageBlockInfo.size n))) as ->
      by (by apply advance_Ret).
    simpl.
    set (far := next + to_ptrdiff_t (PageBlockInfo.size n)) in *.
    assert (exists info',
              (if negb (far =? bc)
               then Page.update _Size _Alignment info1 far
                      (PageBlockInfo.set_prev (Some iter))
               else Ret info1) = Ret info'
              /\ Z.of_nat (length info') = bc) as (info' & -> & Hlen').
    { destruct (far =? bc) eqn:Ef; simpl; [eauto |].
      destruct (update_in_range _Size _Alignment info1 far
                  (PageBlockInfo.set_prev (Some iter)))
        as (cf & _ & ->); [done | lia |].
      eexists. split; [done |]. by rewrite length_insert. }
    simpl.
    destruct (update_in_range _Size _Alignment info' iter
                (PageBlockInfo.make_head true
                   (to_size_t (PageBlockInfo.size c + PageBlockInfo.size n))))
      as (ci & _ & ->); [done | lia |].
    simpl.
    destruct (update_in_range _Size _Alignment
                (<[Z.to_nat iter :=
                     PageBlockInfo.make_head true
                       (to_size_t (PageBlockInfo.size c
                                   + PageBlockInfo.size n)) ci]> info')
                next PageBlockInfo.remove_head)
      as (cn & _ & ->); [by rewrite length_insert | lia |].
    simpl. do 3 eexists. split; [reflexivity |].
    split; [by rewrite !length_insert | lia]. }
  simpl.
  (* the merge into the previous run *)
  assert (exists info3,
            match PageBlockInfo.prev c with
            | Some pr =>
                pc <- Page.deref _Size _Alignment info2 pr ;;
                if PageBlockInfo.is_free pc then
                  info' <- Page.update _Size _Alignment info2 pr
                             (PageBlockInfo.make_head true
                                (to_size_t (size + PageBlockInfo.size pc))) ;;
                  info'' <- Page.update _Size _Alignment info' iter
                              PageBlockInfo.remove_head ;;
                  if negb (farNext =? bc)
                  then Page.update _Size _Alignment info'' farNext
                         (PageBlockInfo.set_prev (Some pr))
                  else Ret info''
                else Ret info2
            | None => Ret info2
            end = Ret info3
            /\ Z.of_nat (length info3) = bc) as (info3 & -> & Hlen3).
  { destruct (PageBlockInfo.prev c) as [pr |] eqn:Hpr; [| eauto].
    specialize (Hprev pr eq_refl).
    destruct (deref_in_range _Size _Alignment info2 pr) as (pc & Hpc & ->);
      [done | lia |]. simpl.
    destruct (PageBlockInfo.is_free pc); [| eauto].
    destruct (update_in_range _Size _Alignment info2 pr
                (PageBlockInfo.make_head true
                   (to_size_t (size + PageBlockInfo.size pc))))
      as (c0 & _ & ->); [done | lia |].
    simpl.
    destruct (update_in_range _Size _Alignment
                (<[Z.to_nat pr :=
                     PageBlockInfo.make_head true
                       (to_size_t (size + PageBlockInfo.size pc)) c0]> info2)
                iter PageBlockInfo.remove_head)
      as (c1 & _ & ->); [by rewrite length_insert | lia |].
    simpl.
    destruct (farNext =? bc) eqn:Ef; simpl.
    { eexists. split; [done |]. by rewrite !length_insert. }
    destruct (update_in_range _Size _Alignment
                (<[Z.to_nat iter := PageBlockInfo.remove_head c1]>
                   (<[Z.to_nat pr :=
                        PageBlockInfo.make_head true
                          (to_size_t (size + PageBlockInfo.size pc)) c0]>
                      info2))
                farNext (PageBlockInfo.set_prev (Some pr)))
      as (c2 & _ & ->); [by rewrite !length_insert | lia |].
    eexists. split; [done |]. by rewrite !length_insert. }
  simpl. eexists. split; [reflexivity |]. simpl.
  split; [done |]. split; [lia | done].
Qed.

End ReleaseFacts.

(** ** The head of a released run *)

Section ReleaseHead.

Variables _Size _Alignment : Z.

Local Abbreviation bc := (Page.blocks_count _Size _Alignment).

(** Writing a backward link does not change any stored size. *)
Lemma lookup_set_prev (info : list PageBlockInfo.t) (j : nat) link cj
    (i : nat) :
  info !! j = Some cj ->
  PageBlockInfo.mySize <$> (<[j := PageBlockInfo.set_prev link cj]> info) !! i
  = PageBlockInfo.mySize <$> info !! i.
Proof.
  intros Hj. destruct (decide (j = i)) as [-> | Hne].
  - rewrite list_lookup_insert_eq by (by apply lookup_lt_Some in Hj).
    by rewrite Hj.
  - by rewrite list_lookup_insert_ne.
Qed.

(** After a [release] that returns, the cell of a head of at least one block
    holds a positive size (a free head) or 0 (merged into the run before
    it). *)
Lemma release_Ret_head hint p b q c :
  Page.release _Size _Alignment hint p = Ret (b, q) ->
  Page.from_hint _Size _Alignment p hint <> bc ->
  Page.myInfo p !! Z.to_nat (Page.from_hint _Size _Alignment p hint)
  = Some c ->
  Forall (fun c => - 2 ^ 63 < PageBlockInfo.mySize c < 2 ^ 63)
    (Page.myInfo p) ->
  bc < 2 ^ 63 ->
  1 <= PageBlockInfo.size c ->
  b = true /\ Page.myData q = Page.myData p /\
  exists m,
    PageBlockInfo.mySize
      <$> Page.myInfo q !! Z.to_nat (Page.from_hint _Size _Alignment p hint)
    = Some m /\ 0 <= m.
Proof.
  intros H Hvalid Hc Hrange Hbc Hsize.
  set (iter := Page.from_hint _Size _Alignment p hint) in *.
  pose proof (proj1 (Forall_lookup _ _) Hrange) as Hlk. simpl in Hlk.
  destruct (size_in_range c (Hlk _ _ Hc)) as [_ Hsz].
  unfold Page.release in H. fold iter in H.
  destruct (iter =? bc) eqn:E; [lia |]. simpl in H.
  apply bind_Ret in H as (c0 & Hc0 & H).
  apply deref_Ret in Hc0 as [Hiter Hc0]. rewrite Hc in Hc0.
  injection Hc0 as <-.
  apply bind_Ret in H as (next & Hnext & H).
  apply advance_Ret in Hnext as [-> Hnext].
  rewrite to_ptrdiff_t_id in * by lia.
  apply bind_Ret in H as (info1 & Hinfo1 & H).
  apply update_Ret in Hinfo1 as (c0 & _ & Hc0 & ->).
  rewrite Hc in Hc0. injection Hc0 as <-.
  apply bind_Ret in H as ([[info2 size2] farNext] & Hmerge & H).
  apply bind_Ret in H as (info3 & Hleft & H).
  injection H as <- <-. split; [done |]. split; [done |]. simpl.
  set (info1 := <[Z.to_nat iter :=
                    PageBlockInfo.make_head true (PageBlockInfo.size c) c]>
                  (Page.myInfo p)) in *.
  assert (Z.to_nat iter < length (Page.myInfo p))%nat as Hlt
    by (by apply lookup_lt_Some in Hc).
  (* after the merge with the next run the head is free *)
  assert (exists m, PageBlockInfo.mySize <$> info2 !! Z.to_nat iter = Some m
                    /\ 0 < m) as (m2 & Hm2 & Hpos2).
  { destruct (iter + PageBlockInfo.size c =? bc) eqn:En; simpl in Hmerge.
    { injection Hmerge as <- _ _. unfold info1.
      rewrite list_lookup_insert_eq by done. simpl.
      rewrite to_ptrdiff_t_id by lia. eexists. split; [done | lia]. }
    apply bind_Ret in Hmerge as (n & Hn & Hmerge).
    apply deref_Ret in Hn as [_ Hn].
    destruct (PageBlockInfo.is_free n) eqn:Hfree.
    2: { injection Hmerge as <- _ _. unfold info1.
         rewrite list_lookup_insert_eq by done. simpl.
         rewrite to_ptrdiff_t_id by lia. eexists. split; [done | lia]. }
    assert (Z.to_nat iter <> Z.to_nat (iter + PageBlockInfo.size c)) as Hne
      by lia.
    unfold info1 in Hn. rewrite list_lookup_insert_ne in Hn by done.
    destruct (size_in_range n (Hlk _ _ Hn)) as [Habs Hnsz].
    unfold PageBlockInfo.is_free in Hfree.
    apply bind_Ret in Hmerge as (far & Hfar & Hmerge).
    apply advance_Ret in Hfar as [-> Hfar].
    rewrite to_ptrdiff_t_id in * by lia.
    apply bind_Ret in Hmerge as (info' & Hinfo' & Hmerge).
    apply bind_Ret in Hmerge as (info'' & Hinfo'' & Hmerge).
    apply bind_Ret in Hmerge as (info''' & Hinfo''' & Hmerge).
    injection Hmerge as <- _ _.
    apply update_Ret in Hinfo'' as (ci & _ & Hci & ->).
    apply update_Ret in Hinfo''' as (cn & _ & Hcn & ->).
    rewrite list_lookup_insert_ne by done.
    rewrite list_lookup_insert_eq by (by apply lookup_lt_Some in Hci).
    simpl. rewrite to_size_t_id by lia. rewrite to_ptrdiff_t_id by lia.
    eexists. split; [done | lia]. }
  (* the merge into the run before it leaves the head free or clears it *)
  destruct (PageBlockInfo.prev c) as [pr |]; simpl in Hleft.
  2: { injection Hleft as <-. exists m2. split; [done | lia]. }
  apply bind_Ret in Hleft as (pc & Hpc & Hleft).
  destruct (PageBlockInfo.is_free pc).
  2: { injection Hleft as <-. exists m2. split; [done | lia]. }
  apply bind_Ret in Hleft as (i' & Hi' & Hleft).
  apply bind_Ret in Hleft as (i'' & Hi'' & Hleft).
  apply update_Ret in Hi'' as (c1 & _ & Hc1 & ->).
  assert (PageBlockInfo.mySize
            <$> (<[Z.to_nat iter := PageBlockInfo.remove_head c1]> i')
                  !! Z.to_nat iter = Some 0) as Hzero.
  { rewrite list_lookup_insert_eq by (by apply lookup_lt_Some in Hc1). done. }
  destruct (farNext =? bc); simpl in Hleft.
  - injection Hleft as <-. exists 0. split; [done | lia].
  - apply update_Ret in Hleft as (c2 & _ & Hc2 & ->).
    rewrite (lookup_set_prev _ _ _ _ _ Hc2). exists 0. split; [done | lia].
Qed.

End ReleaseHead.

(** ** What [contains] accepts and rejects *)

Section ContainsFacts.

Variables _Size _Alignment : Z.

Local Abbreviation bc := (Page.blocks_count _Size _Alignment).

(** [contains] accepts the address of an occupied head of the required
    size, when the elements end inside the buffer. *)
Lemma contains_accepts T count p iter c :
  0 < _Alignment -> bc < 2 ^ 63 ->
  alignof T <= _Alignment ->
  Page.myData p mod _Alignment = 0 ->
  0 <= iter < bc ->
  to_size_t (Page.myData p + iter * _Alignment + sizeof T * count)
  <= to_size_t (Page.myData p + _Size) ->
  Page.myInfo p !! Z.to_nat iter = Some c ->
  PageBlockInfo.is_free c = false ->
  PageBlockInfo.size c = Page.size_in_blocks _Alignment T count ->
  Page.contains _Size _Alignment T
    (Page.myData p + iter * _Alignment) count p
  = Ret (Page.Hint.make
           {| Page.it_array := Page.myData p; Page.it_pos := iter |}
           (Page.cend _Size _Alignment p)).
Proof.
  intros HA Hbc Halign Hbase Hiter Hend Hc Hocc Hsize.
  unfold Page.contains.
  replace (alignof T <=? _Alignment) with true by lia.
  replace (Page.myData p <=? Page.myData p + iter * _Alignment) with true
    by nia.
  replace (to_size_t (Page.myData p + iter * _Alignment + sizeof T * count)
             <=? to_size_t (Page.myData p + _Size)) with true by lia.
  assert ((Page.myData p + iter * _Alignment) mod _Alignment = 0) as ->
    by (rewrite Z.mod_add by lia; done).
  simpl.
  replace (Page.myData p + iter * _Alignment - Page.myData p)
    with (iter * _Alignment) by lia.
  rewrite Z.div_mul by lia.
  assert (Page.advance _Size _Alignment 0 iter = Ret iter) as ->
    by (apply advance_Ret; rewrite to_ptrdiff_t_id; lia).
  simpl.
  assert (Page.deref _Size _Alignment (Page.myInfo p) iter = Ret c) as ->
    by (by apply deref_Ret).
  simpl. rewrite Hocc, Hsize, Z.eqb_refl. reflexivity.
Qed.

(** [release(ptr, count)] with a pointer [contains] rejects. *)
Lemma release_ptr_rejects T ptr count p :
  rejected _Size _Alignment (ByPointer T ptr count) p = true ->
  Page.release_ptr _Size _Alignment T ptr count p = Ret (false, p).
Proof.
  intros H. unfold Page.release_ptr.
  rewrite (contains_rejects _ _ _ _ _ _ H). simpl.
  apply release_invalid_hint, make_end_invalid.
Qed.

End ContainsFacts.

(** ** Well-formed directories *)

Section WfFacts.

Variables _Size _Alignment : Z.

Local Abbreviation bc := (Page.blocks_count _Size _Alignment).

Lemma cells_ok_lookup info k i c :
  cells_ok _Size _Alignment k info = true ->
  info !! i = Some c ->
  cell_ok _Size _Alignment (k + i) c = true.
Proof.
  revert k i. induction info as [| a info IH]; intros k i H Hc; [done |].
  simpl in H. apply andb_true_iff in H as [Ha H].
  destruct i as [| i]; simpl in Hc.
  - injection Hc as <-. by rewrite Nat.add_0_r.
  - replace (k + S i)%nat with (S k + i)%nat by lia. eauto.
Qed.

Lemma wf_length p :
  wf _Size _Alignment p = true -> Z.of_nat (length (Page.myInfo p)) = bc.
Proof. unfold wf. intros H. apply andb_true_iff in H as [H _]. lia. Qed.

Lemma wf_lookup p i c :
  wf _Size _Alignment p = true ->
  Page.myInfo p !! i = Some c ->
  - 2 ^ 63 < PageBlockInfo.mySize c < 2 ^ 63 /\
  Z.of_nat i + PageBlockInfo.size c <= bc /\
  (forall pr, PageBlockInfo.myPrev c = Some pr -> 0 <= pr < bc).
Proof.
  unfold wf. intros H Hc. apply andb_true_iff in H as [_ H].
  pose proof (cells_ok_lookup _ _ _ _ H Hc) as Hok. simpl in Hok.
  unfold cell_ok in Hok.
  repeat (apply andb_true_iff in Hok as [Hok ?]).
  split; [lia |]. split; [lia |].
  intros pr Hpr. rewrite Hpr in *. lia.
Qed.

End WfFacts.

(** What a successful [try_occupy] leaves on a well-formed page: an occupied
    head of the required size whose run lies inside the directory, and a
    directory on which the release of that run forms no iterator outside
    it. *)
Lemma try_occupy_wf (_Size _Alignment : Z) (T : Ty) (count : Z)
    (p : Page.t) (ptr : Z) (q : Page.t) :
  wf _Size _Alignment p = true ->
  Page.try_occupy _Size _Alignment T count p = Ret (Some ptr, q) ->
  exists hint c',
    let bc := Page.blocks_count _Size _Alignment in
    let iter := Page.from_hint _Size _Alignment p hint in
    let n := Page.size_in_blocks _Alignment T count in
    Page.fit _Size _Alignment T count p = Ret hint /\
    alignof T <= _Alignment /\
    hint = Page.Hint.make
             {| Page.it_array := Page.myData p; Page.it_pos := iter |}
             (Page.cend _Size _Alignment p) /\
    0 <= iter < bc /\ iter + n <= bc /\ 0 <= n < 2 ^ 63 /\
    ptr = Page.myData p + iter * _Alignment /\
    Page.myData q = Page.myData p /\
    Z.of_nat (length (Page.myInfo q)) = bc /\
    Forall (fun c => - 2 ^ 63 < PageBlockInfo.mySize c < 2 ^ 63)
      (Page.myInfo q) /\
    Page.myInfo q !! Z.to_nat iter = Some c' /\
    PageBlockInfo.is_free c' = false /\
    PageBlockInfo.size c' = n /\
    (forall pr, PageBlockInfo.prev c' = Some pr -> 0 <= pr < bc) /\
    (forall nx,
       <[Z.to_nat iter := PageBlockInfo.make_head true n c']> (Page.myInfo q)
         !! Z.to_nat (iter + n) = Some nx ->
       iter + n < bc ->
       PageBlockInfo.is_free nx = true ->
       0 <= iter + n + to_ptrdiff_t (PageBlockInfo.size nx) <= bc).
Proof.
  intros Hwf H. unfold Page.try_occupy in H.
  apply bind_Ret in H as (hint & Hfit & Hocc).
  exists hint. cbv zeta.
  set (bc := Page.blocks_count _Size _Alignment) in *.
  set (n := Page.size_in_blocks _Alignment T count) in *.
  assert (Page.from_hint _Size _Alignment p hint <> bc) as Hvalid.
  { intros E. rewrite (try_occupy_at_end _ _ _ _ _ _ E) in Hocc. discriminate. }
  destruct (fit_Ret _ _ _ _ _ _ Hfit)
    as [? | (c0 & _ & Hc0 & Hfree0 & Hsize0 & Halign & Hhint)]; [done |].
  apply try_occupy_at_Ret in Hocc as (c & c1 & info1 & Hocc); [| done].
  cbv zeta in Hocc. fold n bc in Hocc, Hsize0.
  destruct Hocc as (Hiter & Hc & Hlen & Hc1 & Hinfo1 & [= ->] & ->).
  set (iter := Page.from_hint _Size _Alignment p hint) in *.
  rewrite Hc in Hc0. injection Hc0 as <-.
  pose proof (wf_length _ _ _ Hwf) as Hplen. fold bc in Hplen.
  assert (Forall (fun c => - 2 ^ 63 < PageBlockInfo.mySize c < 2 ^ 63)
            (Page.myInfo p)) as Hpr.
  { apply Forall_lookup. intros i x Hx.
    by destruct (wf_lookup _ _ _ _ _ Hwf Hx) as (? & _). }
  destruct (wf_lookup _ _ _ _ _ Hwf Hc) as (Hrange & Hend & Hprev).
  fold bc in Hend, Hprev.
  destruct (size_in_range c Hrange) as [_ Hsz].
  pose proof (size_in_blocks_nonneg _Alignment T count) as Hn0. fold n in Hn0.
  assert (0 <= n < 2 ^ 63) as Hn by lia.
  assert (to_ptrdiff_t n = n) as Hpn by (apply to_ptrdiff_t_id; lia).
  rewrite Hpn in Hinfo1.
  set (c' := PageBlockInfo.make_head false n c1).
  exists c'. simpl.
  assert (PageBlockInfo.size c' = n) as Hsize' by (by apply size_make_head).
  assert (- 2 ^ 63 < PageBlockInfo.mySize c' < 2 ^ 63) as Hrange'.
  { unfold c'. simpl. rewrite (to_ptrdiff_t_id n), to_ptrdiff_t_id; lia. }
  assert (Forall (fun c => - 2 ^ 63 < PageBlockInfo.mySize c < 2 ^ 63) info1)
    as Hr1.
  { destruct Hinfo1 as [[-> _] | (Hsplit & _ & cn & _ & ->)]; [done |].
    apply Forall_insert; [done |]. simpl.
    rewrite to_size_t_id, to_ptrdiff_t_id; lia. }
  split; [done |]. split; [done |]. split; [done |].
  split; [lia |]. split; [lia |]. split; [lia |].
  split; [done |]. split; [done |].
  split; [rewrite length_insert; lia |].
  split; [by apply Forall_insert |].
  split; [apply list_lookup_insert_eq; by apply lookup_lt_Some in Hc1 |].
  split; [by apply is_free_make_head_false |].
  split; [done |].
  split.
  - (* the backward link of the occupied head points into the directory *)
    intros pr Hpr'. unfold c', PageBlockInfo.prev in Hpr'. simpl in Hpr'.
    destruct Hinfo1 as [[-> _] | (_ & Hnext & cn & Hcn & ->)].
    + rewrite Hc in Hc1. injection Hc1 as <-. by apply Hprev.
    + destruct (decide (Z.to_nat (iter + n) = Z.to_nat iter)) as [E | E].
      * rewrite E, list_lookup_insert_eq in Hc1
          by (by apply lookup_lt_Some in Hc).
        injection Hc1 as <-. simpl in Hpr'. injection Hpr' as <-. lia.
      * rewrite list_lookup_insert_ne in Hc1 by done.
        rewrite Hc in Hc1. injection Hc1 as <-. by apply Hprev.
  - (* the run after the occupied one ends inside the directory *)
    intros nx Hnx Hlt Hfree.
    rewrite list_insert_insert_eq in Hnx.
    destruct (decide (Z.to_nat iter = Z.to_nat (iter + n))) as [E | E].
    + rewrite <- E, list_lookup_insert_eq in Hnx
        by (rewrite Hlen; by apply lookup_lt_Some in Hc).
      injection Hnx as <-.
      rewrite is_free_make_head_true in Hfree by lia. lia.
    + rewrite list_lookup_insert_ne in Hnx by done.
      destruct Hinfo1 as [[-> _] | (Hsplit & Hnext & cn & Hcn & ->)].
      * destruct (wf_lookup _ _ _ _ _ Hwf Hnx) as (Hr & He & _).
        fold bc in He. destruct (size_in_range nx Hr) as [_ ?].
        rewrite to_ptrdiff_t_id by lia. lia.
      * rewrite list_lookup_insert_eq in Hnx
          by (by apply lookup_lt_Some in Hcn).
        injection Hnx as <-.
        assert (PageBlockInfo.size
                  (PageBlockInfo.set_prev (Some iter)
                     (PageBlockInfo.make_head true
                        (to_size_t (PageBlockInfo.size c - n)) cn))
                = PageBlockInfo.size c - n) as ->.
        { rewrite to_size_t_id by lia.
          apply (size_make_head true (PageBlockInfo.size c - n) cn). lia. }
        rewrite to_ptrdiff_t_id by lia. lia.
Qed.

(** The release of the run [try_occupy] has just occupied returns. *)
Lemma release_after_try_occupy (_Size _Alignment : Z) (T : Ty) (count : Z)
    (p : Page.t) (ptr : Z) (q : Page.t) (hint : Page.Hint.t) :
  wf _Size _Alignment p = true ->
  Page.try_occupy _Size _Alignment T count p = Ret (Some ptr, q) ->
  Page.fit _Size _Alignment T count p = Ret hint ->
  exists q',
    Page.release _Size _Alignment hint q = Ret (true, q') /\
    Page.myData q' = Page.myData q /\
    Page.myLoad q'
    = (Page.myLoad q
       - inject_Z (Page.size_in_blocks _Alignment T count)
         / inject_Z (Page.blocks_count _Size _Alignment))%Q.
Proof.
  intros Hwf Hocc Hfit.
  destruct (try_occupy_wf _ _ _ _ _ _ _ Hwf Hocc) as (hint' & c' & H).
  cbv zeta in H.
  destruct H as (Hfit' & _ & _ & Hiter & Hend & Hn & _ & Hdata & Hlen & _
                 & Hc' & _ & Hsize' & Hprev' & Hnext').
  rewrite Hfit in Hfit'. injection Hfit' as <-.
  assert (Page.from_hint _Size _Alignment q hint
          = Page.from_hint _Size _Alignment p hint) as Hq
    by (by apply from_hint_same_page).
  assert (to_ptrdiff_t (Page.size_in_blocks _Alignment T count)
          = Page.size_in_blocks _Alignment T count) as Hpn
    by (apply to_ptrdiff_t_id; lia).
  destruct (release_returns _Size _Alignment hint q c')
    as (q' & Hrel & Hdata' & _ & Hload).
  - done.
  - rewrite Hq. lia.
  - by rewrite Hq.
  - rewrite Hq, Hsize', Hpn. lia.
  - rewrite Hq, Hsize', Hpn. exact Hnext'.
  - exact Hprev'.
  - exists q'. rewrite Hsize' in Hload. done.
Qed.

(** ** Well-formed pages *)

Section WfPages.

Variables _Size _Alignment : Z.

Local Abbreviation bc := (Page.blocks_count _Size _Alignment).

Lemma cells_ok_replicate k n :
  Z.of_nat (k + n) <= bc -> bc < 2 ^ 63 ->
  cells_ok _Size _Alignment k (replicate n PageBlockInfo.default) = true.
Proof.
  revert k. induction n as [| n IH]; intros k Hk Hbc; [done |].
  simpl. rewrite IH by lia.
  unfold cell_ok, PageBlockInfo.size. simpl.
  rewrite to_size_t_id by lia.
  repeat (apply andb_true_iff; split); try done; lia.
Qed.

Lemma cells_ok_insert info k i x :
  cells_ok _Size _Alignment k info = true ->
  cell_ok _Size _Alignment (k + i) x = true ->
  cells_ok _Size _Alignment k (<[i := x]> info) = true.
Proof.
  revert k i. induction info as [| a info IH]; intros k i H Hx; [done |].
  simpl in H. apply andb_true_iff in H as [Ha H].
  destruct i as [| i]; simpl.
  - rewrite Nat.add_0_r in Hx. by rewrite Hx, H.
  - rewrite Ha. simpl. apply IH; [done |].
    by replace (S k + i)%nat with (k + S i)%nat by lia.
Qed.

(** The page its constructor builds is well formed. *)
Lemma Page_wf addr :
  0 < bc < 2 ^ 63 -> wf _Size _Alignment (Page.Page _Size _Alignment addr) = true.
Proof.
  intros Hbc. unfold wf, Page.Page. cbn [Page.myInfo].
  rewrite length_insert, length_replicate.
  apply andb_true_iff. split; [apply Z.eqb_eq; lia |].
  apply cells_ok_insert.
  - apply cells_ok_replicate; lia.
  - unfold cell_ok, PageBlockInfo.size, PageBlockInfo.make_head.
    cbn [PageBlockInfo.mySize PageBlockInfo.myPrev PageBlockInfo.default].
    rewrite to_ptrdiff_t_id by lia.
    replace (0 <=? bc) with true by lia.
    rewrite to_size_t_id by lia.
    rewrite !andb_true_iff.
    split; [split; [split |] |]; try done; try lia.
    apply Z.leb_le. rewrite Nat.add_0_r. lia.
Qed.

Lemma cell_ok_intro i c :
  - 2 ^ 63 < PageBlockInfo.mySize c < 2 ^ 63 ->
  Z.of_nat i + PageBlockInfo.size c <= bc ->
  (forall pr, PageBlockInfo.myPrev c = Some pr -> 0 <= pr < bc) ->
  cell_ok _Size _Alignment i c = true.
Proof.
  intros Hrange Hend Hprev. unfold cell_ok.
  rewrite !andb_true_iff. split; [split; [split |] |]; try lia.
  destruct (PageBlockInfo.myPrev c) as [pr |]; [| done].
  specialize (Hprev pr eq_refl). lia.
Qed.

(** A successful [try_occupy] keeps the page well formed. *)
Lemma try_occupy_keeps_wf T count p ptr q :
  wf _Size _Alignment p = true ->
  Page.try_occupy _Size _Alignment T count p = Ret (Some ptr, q) ->
  wf _Size _Alignment q = true.
Proof.
  intros Hwf H.
  pose proof Hwf as Hcells. unfold wf in Hcells.
  apply andb_true_iff in Hcells as [_ Hcells].
  destruct (try_occupy_wf _ _ _ _ _ _ _ Hwf H) as (hint & c' & Hq).
  cbv zeta in Hq.
  destruct Hq as (Hfit & _ & _ & Hiter & Hend & Hn & _ & _ & Hlen & _
                  & _ & _ & _ & _).
  unfold Page.try_occupy in H. rewrite Hfit in H. simpl in H.
  apply try_occupy_at_Ret in H as (c & c1 & info1 & H); [| lia].
  cbv zeta in H.
  destruct H as (_ & Hc & _ & Hc1 & Hinfo1 & _ & ->).
  set (iter := Page.from_hint _Size _Alignment p hint) in *.
  set (n := Page.size_in_blocks _Alignment T count) in *.
  destruct (wf_lookup _ _ _ _ _ Hwf Hc) as (Hrange & Hcend & Hprev).
  destruct (size_in_range c Hrange) as [_ Hsz].
  rewrite (to_ptrdiff_t_id n) in Hinfo1 by lia.
  unfold wf. cbn [Page.myInfo] in *.
  apply andb_true_iff. split; [apply Z.eqb_eq; exact Hlen |].
  assert (cells_ok _Size _Alignment 0 info1 = true
          /\ forall pr, PageBlockInfo.myPrev c1 = Some pr -> 0 <= pr < bc)
    as [Hok1 Hprev1].
  { destruct Hinfo1 as [[-> _] | (Hsplit & Hnext & cn & Hcn & ->)].
    - split; [done |]. rewrite Hc in Hc1. by injection Hc1 as <-.
    - split.
      + apply cells_ok_insert; [done |].
        apply cell_ok_intro.
        * simpl. rewrite to_size_t_id, to_ptrdiff_t_id; lia.
        * rewrite to_size_t_id, size_set_prev, size_make_head by lia. lia.
        * simpl. intros pr [= <-]. lia.
      + intros pr Hpr.
        destruct (decide (Z.to_nat (iter + n) = Z.to_nat iter)) as [E | E].
        * rewrite E, list_lookup_insert_eq in Hc1
            by (by apply lookup_lt_Some in Hc).
          injection Hc1 as <-. simpl in Hpr. injection Hpr as <-. lia.
        * rewrite list_lookup_insert_ne in Hc1 by done.
          rewrite Hc in Hc1. injection Hc1 as <-. by apply Hprev. }
  apply cells_ok_insert; [done |].
  apply cell_ok_intro.
  - simpl. rewrite (to_ptrdiff_t_id n) by lia. rewrite to_ptrdiff_t_id; lia.
  - rewrite (size_make_head false n c1) by lia. lia.
  - exact Hprev1.
Qed.

End WfPages.

(** ** The ordered mapping of a pool *)

Section PoolFacts.

Lemma Qltb_true (a b : Q) : Pool.Qltb a b = true <-> (a < b)%Q.
Proof.
  unfold Pool.Qltb. rewrite negb_true_iff. split.
  - intros H. apply Qnot_le_lt. intros Hle.
    apply Qle_bool_iff in Hle. congruence.
  - intros H. destruct (Qle_bool b a) eqn:E; [| done].
    apply Qle_bool_iff in E. apply Qlt_not_le in H. done.
Qed.

Lemma Qltb_false (a b : Q) : Pool.Qltb a b = false <-> (b <= a)%Q.
Proof.
  unfold Pool.Qltb. rewrite negb_false_iff. apply Qle_bool_iff.
Qed.

(** Every entry before [upper_bound] has a key that is not above [x]; the
    entry at [upper_bound], if any, has a key above [x]. *)
Lemma upper_bound_before pages x j e :
  (j < Pool.upper_bound pages x)%nat -> pages !! j = Some e -> (e.1 <= x)%Q.
Proof.
  revert j. induction pages as [| [k pg] pages IH]; intros j Hj He; [done |].
  simpl in Hj. destruct (Pool.Qltb x k) eqn:E; [lia |].
  destruct j as [| j]; simpl in He.
  - injection He as <-. by apply Qltb_false.
  - apply (IH j); [lia | done].
Qed.

Lemma upper_bound_at pages x e :
  pages !! Pool.upper_bound pages x = Some e -> (x < e.1)%Q.
Proof.
  induction pages as [| [k pg] pages IH]; [done |].
  simpl. destruct (Pool.Qltb x k) eqn:E; simpl.
  - intros [= <-]. by apply Qltb_true.
  - done.
Qed.

Lemma upper_bound_le_length pages x :
  (Pool.upper_bound pages x <= length pages)%nat.
Proof.
  induction pages as [| [k pg] pages IH]; simpl; [lia |].
  destruct (Pool.Qltb x k); simpl; lia.
Qed.

Lemma keys_sorted_head k pg pages j e :
  keys_sorted ((k, pg) :: pages) = true ->
  ((k, pg) :: pages) !! j = Some e -> (k <= e.1)%Q.
Proof.
  revert k pg j. induction pages as [| [k' pg'] pages IH]; intros k pg j Hs He.
  - destruct j; [| done]. injection He as <-. apply Qle_refl.
  - destruct j as [| j]; [injection He as <-; apply Qle_refl |].
    simpl in Hs. apply andb_true_iff in Hs as [Hk Hs].
    apply Qle_bool_iff in Hk. simpl in Hk.
    apply Qle_trans with k'; [done |]. by apply (IH k' pg' j).
Qed.

Lemma keys_sorted_tail e pages :
  keys_sorted (e :: pages) = true -> keys_sorted pages = true.
Proof.
  destruct pages; [done |]. simpl. intros H.
  by apply andb_true_iff in H as [_ H].
Qed.

Lemma keys_sorted_lookup pages i j a b :
  keys_sorted pages = true -> (i <= j)%nat ->
  pages !! i = Some a -> pages !! j = Some b -> (a.1 <= b.1)%Q.
Proof.
  revert i j. induction pages as [| [k pg] pages IH]; intros i j Hs Hij Ha Hb;
    [done |].
  destruct i as [| i].
  - injection Ha as <-. by apply (keys_sorted_head k pg pages j).
  - destruct j as [| j]; [lia |].
    apply (IH i j); [by apply keys_sorted_tail in Hs | lia | done | done].
Qed.

Lemma keys_are_loads_lookup pages i k pg :
  keys_are_loads pages = true -> pages !! i = Some (k, pg) ->
  (k == Page.load pg)%Q.
Proof.
  unfold keys_are_loads. rewrite forallb_forall. intros H Hi.
  apply Qeq_bool_iff. apply (H (k, pg)).
  apply list_elem_of_In, list_elem_of_lookup. eauto.
Qed.

End PoolFacts.

(** [make_pages] puts every new page in front, under the key 0. *)
Lemma make_pages_at_begin :
  Pool.myPages
    (Pool.make_pages 4 1 [ 4096; 8192 ]
       {| Pool.myPages := [];
          Pool.myAverageLoadRequest := 0;
          Pool.myRequestsCount := 0 |})
  = [ (0%Q, Page.Page 4 1 8192); (0%Q, Page.Page 4 1 4096) ].
Proof. reflexivity. Qed.

(** ** The sample states are states of the code *)

Lemma fresh_is_constructed : Sample.fresh = Page.Page 4 1 4096.
Proof. reflexivity. Qed.

Lemma first_half_is_reached :
  exists q,
    run 4 1 [ Occupy char 2 ] Sample.fresh = Ret ([ Pointer (Some 4096) ], q) /\
    Page.myData q = Page.myData Sample.first_half /\
    Page.myInfo q = Page.myInfo Sample.first_half /\
    (Page.load q == Page.load Sample.first_half)%Q.
Proof.
  eexists. split; [vm_compute; reflexivity |]. repeat split; reflexivity.
Qed.

Lemma full_is_reached :
  exists q,
    run 4 1 [ Occupy char 4 ] (Page.Page 4 1 8192)
    = Ret ([ Pointer (Some 8192) ], q) /\
    Page.myData q = Page.myData Sample.full /\
    Page.myInfo q = Page.myInfo Sample.full /\
    (Page.load q == Page.load Sample.full)%Q.
Proof.
  eexists. split; [vm_compute; reflexivity |]. repeat split; reflexivity.
Qed.

(** * Properties of the specification *)

(** ** The required number of blocks *)

(** C1.  [size_in_blocks] rounds the byte count up to a multiple of the
    alignment and does not divide it by the alignment.  On a fresh
    [Page<8, 4>] one [char] needs ceil(1/4) = 1 block and the free run of 2
    blocks holds it, as the scan run with that requirement finds; [fit] asks
    for 4 blocks and returns the invalid [Hint(end)]. *)
Theorem fit_requires_rounded_bytes :
  Page.size_in_blocks 4 char 1 = 4 /\
  required_blocks_spec 4 char 1 = 1 /\
  Page.myInfo Sample.two_blocks
    = [ {| PageBlockInfo.myPrev := None; PageBlockInfo.mySize := 2 |};
        PageBlockInfo.default ] /\
  fit_spec 8 4 char 1 Sample.two_blocks = Ret (Some 0) /\
  exists hint,
    Page.fit 8 4 char 1 Sample.two_blocks = Ret hint /\
    Page.Hint.is_valid hint = false.
Proof.
  repeat split; try reflexivity.
  eexists; split; [vm_compute; reflexivity | reflexivity].
Qed.

(** ** The key of a reinserted page *)

(** C2.  [occupy] reads [page->load()] before [try_occupy] and reinserts
    the page under that value.  In a pool whose keys are the loads of its
    pages, [occupy<char>(1)] selects the empty page, whose load becomes 1/4,
    and reinserts it under the key 0; the fuller page stands behind it, so
    that [++hint] does not leave the mapping, whatever the library makes of
    [++end()]. *)
Theorem occupy_reinserts_under_old_load (past_end : outcome nat) :
  keys_sorted (Pool.myPages Sample.pool) = true /\
  keys_are_loads (Pool.myPages Sample.pool) = true /\
  exists pool' key page,
    Pool.occupy 4 1 past_end char 1 Sample.pool = Ret (Some 4096, pool') /\
    Pool.myPages pool' = [ (key, page); (1%Q, Sample.full) ] /\
    (key == 0)%Q /\
    (Page.load page == 1 # 4)%Q /\
    keys_are_loads (Pool.myPages pool') = false.
Proof.
  split; [reflexivity | split; [reflexivity |]].
  do 3 eexists.
  split; [vm_compute; reflexivity |].
  split; [reflexivity |].
  repeat split; reflexivity.
Qed.

(** ** Splitting a run *)

(** C3.  When [try_occupy] splits a run it never touches the run after the
    tail.  With blocks 0-1 free and blocks 2-3 occupied (backward link to
    cell 0), occupying one block makes cell 0 an occupied head of 1 block
    and cell 1 the free tail linked back to it, and cell 2 still links back
    to the occupied cell 0 instead of the tail. *)
Theorem try_occupy_split_keeps_following_link :
  exists q hint q',
    run 4 1 Sample.freed_first Sample.fresh
      = Ret ([ Pointer (Some 4096); Pointer (Some 4098); Released true ], q) /\
    Page.myInfo q
      = [ {| PageBlockInfo.myPrev := None; PageBlockInfo.mySize := 2 |};
          PageBlockInfo.default;
          {| PageBlockInfo.myPrev := Some 0; PageBlockInfo.mySize := -2 |};
          PageBlockInfo.default ] /\
    Page.size_in_blocks 1 char 1 = 1 /\
    Page.fit 4 1 char 1 q = Ret hint /\
    Page.from_hint 4 1 q hint = 0 /\
    Page.try_occupy_at 4 1 char 1 hint q = Ret (Some 4096, q') /\
    Page.myInfo q'
      = [ {| PageBlockInfo.myPrev := None; PageBlockInfo.mySize := -1 |};
          {| PageBlockInfo.myPrev := Some 0; PageBlockInfo.mySize := 1 |};
          {| PageBlockInfo.myPrev := Some 0; PageBlockInfo.mySize := -2 |};
          PageBlockInfo.default ].
Proof.
  do 3 eexists.
  split; [vm_compute; reflexivity |].
  split; [reflexivity |].
  split; [reflexivity |].
  split; [vm_compute; reflexivity |].
  split; [reflexivity |].
  split; [vm_compute; reflexivity | reflexivity].
Qed.

(** ** Adjacent free runs *)

(** C4.  Five calls on a fresh [Page<4, 1>], all successful: occupy 2,
    occupy 2, release the first run, occupy 1, release the second run.  The
    last release follows the stale backward link of cell 2 to the occupied
    cell 0 and does not merge with the free cell 1: the scan then meets the
    free runs at 1 and 2 one after the other. *)
Theorem release_leaves_adjacent_free_runs :
  exists q,
    run 4 1 Sample.split_then_release Sample.fresh
      = Ret ([ Pointer (Some 4096); Pointer (Some 4098); Released true;
               Pointer (Some 4096); Released true ], q) /\
    run_heads 4 1 q
      = [ {| PageBlockInfo.myPrev := None; PageBlockInfo.mySize := -1 |};
          {| PageBlockInfo.myPrev := Some 0; PageBlockInfo.mySize := 1 |};
          {| PageBlockInfo.myPrev := Some 0; PageBlockInfo.mySize := 2 |} ] /\
    adjacent_free (run_heads 4 1 q) = true.
Proof.
  eexists.
  split; [vm_compute; reflexivity |].
  split; reflexivity.
Qed.

(** ** Conservation of the block count *)

(** C5.  Eight successful calls on a fresh [Page<4, 1>]: the stale backward
    link lets the release of blocks 2-3 merge them into the free cell 0
    across the occupied block 1; the next occupy splits that run and writes
    its tail over the head of block 1.  The sizes then sum to 3, not to the
    4 blocks of the page. *)
Theorem occupy_release_lose_a_block :
  exists q,
    run 4 1 Sample.steal Sample.fresh
      = Ret ([ Pointer (Some 4096); Pointer (Some 4098); Released true;
               Pointer (Some 4096); Pointer (Some 4097); Released true;
               Released true; Pointer (Some 4096) ], q) /\
    Page.myInfo q
      = [ {| PageBlockInfo.myPrev := None; PageBlockInfo.mySize := -1 |};
          {| PageBlockInfo.myPrev := Some 0; PageBlockInfo.mySize := 2 |};
          PageBlockInfo.default; PageBlockInfo.default ] /\
    sum_sizes (Page.myInfo q) = 3 /\
    Page.blocks_count 4 1 = 4.
Proof.
  eexists.
  split; [vm_compute; reflexivity |].
  repeat split; reflexivity.
Qed.

(** [try_occupy<char>(0)] on a fresh page erases the only head: the sizes
    sum to 0 and every later [fit] for a positive size loops on cell 0. *)
Lemma zero_count_erases_the_run :
  exists q,
    Page.try_occupy 4 1 char 0 Sample.fresh = Ret (Some 4096, q) /\
    sum_sizes (Page.myInfo q) = 0 /\
    forall fuel,
      Page.fit_loop 4 1 fuel (Page.myInfo q) (Page.size_in_blocks 1 char 1) 0
      = Diverges.
Proof.
  eexists. split; [vm_compute; reflexivity |]. split; [reflexivity |].
  intros fuel.
  apply (fit_loop_stuck 4 1 _ _ 0
           {| PageBlockInfo.myPrev := Some 0; PageBlockInfo.mySize := 0 |});
    reflexivity.
Qed.

(** ** Occupy, release, release again *)

(** C6, the claim as stated fails in two ways on a fresh [Page<4, 1>].
    After [try_occupy<char>(2)] the hint [contains] resolves is released
    twice and [release] returns true both times, the second taking the load
    from 0 to -1.  After [try_occupy<char>(0)], which needs 0 blocks and
    leaves cell 0 with size 0, [contains] takes that cell for an occupied
    head of 0 blocks every time: the second release of the same pointer and
    count returns true as the first did. *)
Lemma release_succeeds_twice :
  (exists q hint q1 q2,
     Page.try_occupy 4 1 char 2 Sample.fresh = Ret (Some 4096, q) /\
     Page.contains 4 1 char 4096 2 q = Ret hint /\
     Page.Hint.is_valid hint = true /\
     Page.release 4 1 hint q = Ret (true, q1) /\
     (Page.load q1 == 0)%Q /\
     Page.release 4 1 hint q1 = Ret (true, q2) /\
     (Page.load q2 == -1)%Q) /\
  (exists q hint q1 q2,
     Page.try_occupy 4 1 char 0 Sample.fresh = Ret (Some 4096, q) /\
     Page.myInfo q
       = [ {| PageBlockInfo.myPrev := Some 0; PageBlockInfo.mySize := 0 |};
           PageBlockInfo.default; PageBlockInfo.default;
           PageBlockInfo.default ] /\
     Page.contains 4 1 char 4096 0 q = Ret hint /\
     Page.Hint.is_valid hint = true /\
     Page.release_ptr 4 1 char 4096 0 q = Ret (true, q1) /\
     Page.release_ptr 4 1 char 4096 0 q1 = Ret (true, q2)).
Proof.
  split.
  - do 4 eexists.
    split; [vm_compute; reflexivity |].
    split; [vm_compute; reflexivity |].
    split; [reflexivity |].
    split; [vm_compute; reflexivity |].
    split; [reflexivity |].
    split; [vm_compute; reflexivity | reflexivity].
  - do 4 eexists.
    split; [vm_compute; reflexivity |].
    split; [reflexivity |].
    split; [vm_compute; reflexivity |].
    split; [reflexivity |].
    split; [vm_compute; reflexivity | vm_compute; reflexivity].
Qed.

(** C6, as amended.  On a well-formed page of a block-aligned buffer, for a
    request of at least one block whose byte count does not overflow: if
    [try_occupy<T>(count)] returns a non-null pointer, [contains] resolves
    it to a valid hint on the resulting page, [release] through that hint,
    and equally through the pointer and the count, returns true, and a
    second release of the same pointer and count on the page so obtained
    returns false and leaves it unchanged. *)
Theorem occupy_release_round_trip (k _Size _Alignment : Z) (T : Ty)
    (count : Z) (p : Page.t) (ptr : Z) (q : Page.t) :
  0 <= k < 64 -> _Alignment = 2 ^ k ->
  0 < _Size < 2 ^ 63 -> _Size mod _Alignment = 0 ->
  0 <= Page.myData p -> Page.myData p + _Size < 2 ^ 64 ->
  Page.myData p mod _Alignment = 0 ->
  wf _Size _Alignment p = true ->
  0 <= sizeof T * count -> sizeof T * count + _Alignment - 1 < 2 ^ 64 ->
  1 <= Page.size_in_blocks _Alignment T count ->
  Page.try_occupy _Size _Alignment T count p = Ret (Some ptr, q) ->
  exists hint q1,
    Page.contains _Size _Alignment T ptr count q = Ret hint /\
    Page.Hint.is_valid hint = true /\
    Page.release _Size _Alignment hint q = Ret (true, q1) /\
    Page.release_ptr _Size _Alignment T ptr count q = Ret (true, q1) /\
    Page.release_ptr _Size _Alignment T ptr count q1 = Ret (false, q1).
Proof.
  intros Hk -> HSize Hdiv Hbase Htop Haligned Hwf Hbytes Hnowrap Hn Hocc.
  set (A := 2 ^ k) in *.
  set (bc := Page.blocks_count _Size A).
  set (n := Page.size_in_blocks A T count) in *.
  assert (0 < A) as HA by (apply Z.pow_pos_nonneg; lia).
  assert (_Size = bc * A) as HSizeA.
  { unfold bc, Page.blocks_count.
    pose proof (Z.div_mod _Size A ltac:(lia)). lia. }
  assert (0 < bc < 2 ^ 63) as Hbc by nia.
  assert (sizeof T * count <= n) as Hge
    by (by apply size_in_blocks_ge_bytes).
  destruct (try_occupy_wf _ _ _ _ _ _ _ Hwf Hocc) as (hint & c' & H).
  cbv zeta in H. fold bc n in H.
  destruct H as (Hfit & Halign & Hhint & Hiter & Hend & _ & -> & Hdata & Hlen
                 & Hrange & Hc' & Hocc' & Hsize' & _).
  set (iter := Page.from_hint _Size A p hint) in *.
  assert (Page.cend _Size A q = Page.cend _Size A p) as Hcend
    by (unfold Page.cend; by rewrite Hdata).
  (* [contains] resolves the pointer to the hint of [fit] *)
  assert (Page.contains _Size A T (Page.myData p + iter * A) count q
          = Ret hint) as Hcont.
  { pose proof (contains_accepts _Size A T count q iter c') as Hacc.
    rewrite Hcend, Hdata, <- Hhint in Hacc.
    apply Hacc; try done; try lia.
    rewrite !to_size_t_id by nia. nia. }
  destruct (release_after_try_occupy _ _ _ _ _ _ _ _ Hwf Hocc Hfit)
    as (q1 & Hrel & Hdata1 & _).
  exists hint, q1.
  split; [done |].
  split.
  { rewrite Hhint. unfold Page.Hint.is_valid, Page.iterator_eqb. simpl.
    rewrite Z.eqb_refl. fold bc. simpl.
    destruct (iter =? bc) eqn:E; [lia | done]. }
  split; [done |].
  split; [unfold Page.release_ptr; rewrite Hcont; done |].
  (* the head is free or cleared: [contains] rejects the pointer *)
  assert (Page.from_hint _Size A q hint = iter) as Hq
    by (by apply from_hint_same_page).
  destruct (release_Ret_head _Size A hint q true q1 c')
    as (_ & _ & m & Hm & Hm0).
  - done.
  - rewrite Hq. fold bc. lia.
  - by rewrite Hq.
  - done.
  - fold bc. lia.
  - fold n in Hsize'. lia.
  - rewrite Hq in Hm.
    destruct (Page.myInfo q1 !! Z.to_nat iter) as [ci |] eqn:Hci;
      [| discriminate].
    injection Hm as Hm.
    apply release_ptr_rejects. unfold rejected.
    rewrite Hdata1, Hdata.
    replace (Page.myData p + iter * A - Page.myData p) with (iter * A) by lia.
    rewrite Z.div_mul, to_ptrdiff_t_id by lia.
    assert (Page.deref _Size A (Page.myInfo q1) iter = Ret ci) as ->
      by (by apply deref_Ret).
    apply orb_true_iff. right. fold n.
    unfold PageBlockInfo.is_free, PageBlockInfo.size. rewrite Hm.
    destruct (0 <? m) eqn:Hpos; [done |].
    assert (m = 0) as -> by lia.
    replace (0 <=? 0) with true by done.
    rewrite to_size_t_id by lia.
    destruct (0 =? n) eqn:E; [lia | done].
Qed.

Lemma occupy_release_round_trip_witness :
  wf 4 1 Sample.fresh = true /\
  exists q,
    Page.try_occupy 4 1 char 2 Sample.fresh = Ret (Some 4096, q) /\
    exists hint q1,
      Page.contains 4 1 char 4096 2 q = Ret hint /\
      Page.Hint.is_valid hint = true /\
      Page.release 4 1 hint q = Ret (true, q1) /\
      Page.release_ptr 4 1 char 4096 2 q = Ret (true, q1) /\
      Page.release_ptr 4 1 char 4096 2 q1 = Ret (false, q1).
Proof.
  split; [reflexivity |].
  eexists. split; [vm_compute; reflexivity |].
  apply (occupy_release_round_trip 0 4 1 char 2 Sample.fresh 4096);
    try reflexivity; vm_compute; intuition discriminate.
Defined.

(** ** The page [Pool::occupy] selects *)

(** C7.  In a non-empty mapping whose keys ascend and are the loads of the
    pages, with bound the [float] difference max_load - load_of<T>(count):
    when the first key is above the bound, [occupy] returns null and leaves
    the mapping as it is; otherwise the entry it extracts holds a page whose
    load is at most the bound and at least the load of every other page
    within the bound, and [occupy] serves the request from that page:
    whenever [try_occupy] on it and [++hint] return, [occupy] returns the
    pointer of [try_occupy] and has the page reinserted under the load it
    had, and [occupy] returns in no other way. *)
Theorem occupy_selects_tightest_fit (_Size _Alignment : Z)
    (past_end : outcome nat) (T : Ty) (count : Z) (pool : Pool.t) (k0 : Q)
    (pg0 : Page.t) (rest : list (Q * Page.t)) :
  Pool.myPages pool = (k0, pg0) :: rest ->
  keys_sorted (Pool.myPages pool) = true ->
  keys_are_loads (Pool.myPages pool) = true ->
  ((Float.sub Page.max_load (Page.load_of _Size T count) < k0)%Q ->
   Pool.select (Pool.myPages pool) (Page.load_of _Size T count) = None /\
   exists pool',
     Pool.occupy _Size _Alignment past_end T count pool
     = Ret (None, pool') /\
     Pool.myPages pool' = Pool.myPages pool) /\
  ((k0 <= Float.sub Page.max_load (Page.load_of _Size T count))%Q ->
   exists i k pg,
     Pool.select (Pool.myPages pool) (Page.load_of _Size T count) = Some i /\
     Pool.myPages pool !! i = Some (k, pg) /\
     (Page.load pg
      <= Float.sub Page.max_load (Page.load_of _Size T count))%Q /\
     (forall j k' pg',
        Pool.myPages pool !! j = Some (k', pg') ->
        (Page.load pg'
         <= Float.sub Page.max_load (Page.load_of _Size T count))%Q ->
        (Page.load pg' <= Page.load pg)%Q) /\
     (forall ptr pg' hint,
        Page.try_occupy _Size _Alignment T count pg = Ret (ptr, pg') ->
        Pool.increment past_end (length (delete i (Pool.myPages pool))) i
        = Ret hint ->
        exists pool',
          Pool.occupy _Size _Alignment past_end T count pool
          = Ret (ptr, pool') /\
          Pool.myPages pool'
          = Pool.emplace_hint hint (Page.load pg) pg'
              (delete i (Pool.myPages pool))) /\
     (forall ptr pool',
        Pool.occupy _Size _Alignment past_end T count pool
        = Ret (ptr, pool') ->
        exists pg' hint,
          Page.try_occupy _Size _Alignment T count pg = Ret (ptr, pg') /\
          Pool.increment past_end (length (delete i (Pool.myPages pool))) i
          = Ret hint /\
          Pool.myPages pool'
          = Pool.emplace_hint hint (Page.load pg) pg'
              (delete i (Pool.myPages pool)))).
Proof.
  intros Hpages Hsorted Hloads.
  set (load := Page.load_of _Size T count).
  set (bound := Float.sub Page.max_load load).
  split.
  - intros Hk0.
    assert (Pool.select (Pool.myPages pool) load = None) as Hsel.
    { unfold Pool.select. fold bound. rewrite Hpages. simpl.
      apply Qltb_true in Hk0. by rewrite Hk0. }
    split; [done |].
    unfold Pool.occupy. fold load. rewrite Hsel, Hpages. simpl.
    eexists. split; reflexivity.
  - intros Hk0.
    set (ub := Pool.upper_bound (Pool.myPages pool) bound).
    assert (ub <> 0%nat) as Hub.
    { unfold ub. rewrite Hpages. simpl.
      apply Qltb_false in Hk0. by rewrite Hk0. }
    assert (Pool.select (Pool.myPages pool) load = Some (pred ub)) as Hsel.
    { unfold Pool.select. fold bound ub.
      destruct (ub =? 0)%nat eqn:E; [| done].
      apply Nat.eqb_eq in E. done. }
    pose proof (upper_bound_le_length (Pool.myPages pool) bound) as Hle.
    fold ub in Hle.
    destruct (lookup_lt_is_Some_2 (Pool.myPages pool) (pred ub))
      as [[k pg] Hi]; [lia |].
    assert (k <= bound)%Q as Hk.
    { apply (upper_bound_before (Pool.myPages pool) bound (pred ub) (k, pg));
        [fold ub; lia | done]. }
    pose proof (keys_are_loads_lookup _ _ _ _ Hloads Hi) as Hkl.
    exists (pred ub), k, pg.
    split; [done |]. split; [done |].
    split; [by rewrite <- Hkl |].
    split; [| split].
    + intros j k' pg' Hj Hfit.
      pose proof (keys_are_loads_lookup _ _ _ _ Hloads Hj) as Hkl'.
      rewrite <- Hkl, <- Hkl'. rewrite <- Hkl' in Hfit.
      destruct (le_lt_dec j (pred ub)) as [Hjle | Hjgt].
      * apply (keys_sorted_lookup (Pool.myPages pool) j (pred ub)
                 (k', pg') (k, pg)); done.
      * (* an entry from [upper_bound] on has a key above the bound *)
        exfalso.
        destruct (lookup_lt_is_Some_2 (Pool.myPages pool) ub) as [e He].
        { apply lookup_lt_Some in Hj. lia. }
        pose proof (upper_bound_at _ bound e He) as Hab.
        assert (e.1 <= k')%Q as Hord.
        { apply (keys_sorted_lookup (Pool.myPages pool) ub j e (k', pg'));
            [done | lia | done | done]. }
        apply (Qlt_not_le _ _ Hab). by apply Qle_trans with k'.
    + intros ptr pg' hint Htry Hinc.
      remember (Pool.occupy _Size _Alignment past_end T count pool) as o
        eqn:Ho.
      unfold Pool.occupy in Ho. fold load in Ho.
      rewrite Hsel, Hi in Ho. rewrite Hpages in Ho at 1.
      rewrite Htry in Ho. cbn [bind] in Ho. rewrite Hinc in Ho.
      cbn [bind fst snd] in Ho. subst o.
      eexists. split; reflexivity.
    + intros ptr pool' Hocc.
      unfold Pool.occupy in Hocc. fold load in Hocc.
      rewrite Hsel, Hi in Hocc. rewrite Hpages in Hocc at 1.
      apply bind_Ret in Hocc as ([ptr' pages'] & Hocc & Hret).
      injection Hret as <- <-. simpl.
      apply bind_Ret in Hocc as ([ptr'' pg'] & Htry & Hocc).
      apply bind_Ret in Hocc as (hint & Hinc & Hocc).
      injection Hocc as <- <-.
      exists pg', hint. by repeat split.
Qed.

(** The example of the specification, loads 0.1, 0.4 and 0.8 and a request
    of load 0.15: the third entry is extracted, [++hint] is on [end()], and
    when it returns, here with the position 1, the pointer is in the page
    of load 0.8, at its block 16, and the page is back in third place. *)
Lemma occupy_selects_tightest_fit_witness :
  keys_sorted (Pool.myPages Sample.loads_1_4_8) = true /\
  keys_are_loads (Pool.myPages Sample.loads_1_4_8) = true /\
  (1 # 10 <= Float.sub Page.max_load (Page.load_of 20 char 3))%Q /\
  (exists i k pg,
     Pool.select (Pool.myPages Sample.loads_1_4_8) (Page.load_of 20 char 3)
     = Some i /\
     Pool.myPages Sample.loads_1_4_8 !! i = Some (k, pg) /\
     (Page.load pg <= Float.sub Page.max_load (Page.load_of 20 char 3))%Q /\
     (forall j k' pg',
        Pool.myPages Sample.loads_1_4_8 !! j = Some (k', pg') ->
        (Page.load pg'
         <= Float.sub Page.max_load (Page.load_of 20 char 3))%Q ->
        (Page.load pg' <= Page.load pg)%Q) /\
     (forall ptr pg' hint,
        Page.try_occupy 20 1 char 3 pg = Ret (ptr, pg') ->
        Pool.increment (Ret 1%nat)
          (length (delete i (Pool.myPages Sample.loads_1_4_8))) i
        = Ret hint ->
        exists pool',
          Pool.occupy 20 1 (Ret 1%nat) char 3 Sample.loads_1_4_8
          = Ret (ptr, pool') /\
          Pool.myPages pool'
          = Pool.emplace_hint hint (Page.load pg) pg'
              (delete i (Pool.myPages Sample.loads_1_4_8))) /\
     (forall ptr pool',
        Pool.occupy 20 1 (Ret 1%nat) char 3 Sample.loads_1_4_8
        = Ret (ptr, pool') ->
        exists pg' hint,
          Page.try_occupy 20 1 char 3 pg = Ret (ptr, pg') /\
          Pool.increment (Ret 1%nat)
            (length (delete i (Pool.myPages Sample.loads_1_4_8))) i
          = Ret hint /\
          Pool.myPages pool'
          = Pool.emplace_hint hint (Page.load pg) pg'
              (delete i (Pool.myPages Sample.loads_1_4_8)))) /\
  exists pool',
    Pool.occupy 20 1 (Ret 1%nat) char 3 Sample.loads_1_4_8
    = Ret (Some (12288 + 16), pool') /\
    map (fun e : Q * Page.t => Page.myData e.2) (Pool.myPages pool')
    = [ 4096; 8192; 12288 ].
Proof.
  assert (1 # 10 <= Float.sub Page.max_load (Page.load_of 20 char 3))%Q
    as Hle by (vm_compute; discriminate).
  split; [reflexivity |]. split; [reflexivity |]. split; [exact Hle |].
  split.
  - exact (proj2 (occupy_selects_tightest_fit 20 1 (Ret 1%nat) char 3
                    Sample.loads_1_4_8
                    (1 # 10)%Q (Sample.occupied 4096 2)
                    [ ((4 # 10)%Q, Sample.occupied 8192 8);
                      ((8 # 10)%Q, Sample.occupied 12288 16) ]
                    eq_refl eq_refl eq_refl) Hle).
  - eexists. split; vm_compute; reflexivity.
Defined.

(** The example in numbers: [load_of<char>(3)] on a page of 20 bytes is the
    [float] 5033165 / 2^25, next to 0.15, and the bound the [float]
    7130317 / 2^23, next to 0.85; the third entry, the page of load 0.8, is
    the last the bound admits. *)
Lemma select_loads_1_4_8 :
  Page.load_of 20 char 3 = (5033165 # 33554432)%Q /\
  Float.sub Page.max_load (Page.load_of 20 char 3)
  = (7130317 # 8388608)%Q /\
  Pool.select (Pool.myPages Sample.loads_1_4_8) (Page.load_of 20 char 3)
  = Some 2%nat /\
  exists pg,
    Pool.myPages Sample.loads_1_4_8 !! 2%nat = Some ((8 # 10)%Q, pg) /\
    (Page.load pg == 8 # 10)%Q.
Proof.
  split; [vm_compute; reflexivity |]. split; [vm_compute; reflexivity |].
  split; [vm_compute; reflexivity |].
  eexists. split; reflexivity.
Qed.

(** The position [++end()] returns does not matter to the example: the key
    of the page decides where it goes back. *)
Lemma occupy_loads_1_4_8_any_hint (hint : nat) :
  exists pool',
    Pool.occupy 20 1 (Ret hint) char 3 Sample.loads_1_4_8
    = Ret (Some (12288 + 16), pool') /\
    map (fun e : Q * Page.t => Page.myData e.2) (Pool.myPages pool')
    = [ 4096; 8192; 12288 ].
Proof.
  destruct hint as [| [| [| hint]]]; eexists; split; vm_compute; reflexivity.
Qed.

(** The bound is a [float]: [load_of<char>(12)] is the [float] next to 0.6,
    which is above 0.6, and the bound 3355443 / 2^23 is below 0.4.  The page
    of load 0.4 is then out of reach of a request of 12 bytes, and the page
    of load 0.1 serves it: the pointer is at its block 2. *)
Lemma select_loads_1_4_8_request_12 :
  Float.sub Page.max_load (Page.load_of 20 char 12)
  = (3355443 # 8388608)%Q /\
  Pool.select (Pool.myPages Sample.loads_1_4_8) (Page.load_of 20 char 12)
  = Some 0%nat /\
  forall past_end, exists pool',
    Pool.occupy 20 1 past_end char 12 Sample.loads_1_4_8
    = Ret (Some (4096 + 2), pool').
Proof.
  split; [vm_compute; reflexivity |]. split; [vm_compute; reflexivity |].
  intros past_end. eexists. vm_compute. reflexivity.
Qed.

(** The bound is the rounded difference, which can be above the exact one:
    for [load_of<char>(3)] it is the [float] next to 0.85, and a page of
    that load is within the bound though the two loads add up to more than
    [max_load]. *)
Lemma bound_is_rounded :
  (Page.max_load - Page.load_of 20 char 3
   < Float.sub Page.max_load (Page.load_of 20 char 3))%Q /\
  Float.sub Page.max_load (Page.load_of 20 char 3) = Float.round (85 # 100) /\
  (Page.max_load < Float.round (85 # 100) + Page.load_of 20 char 3)%Q.
Proof. repeat split; vm_compute; reflexivity. Qed.

(** With a full page after the three, the iterator [upper_bound] returns is
    not [end()] and the call returns whatever [++end()] would do: the
    pointer lies in the page of load 0.8, at its block 16. *)
Lemma occupy_loads_1_4_8_10 (past_end : outcome nat) :
  exists pool',
    Pool.occupy 20 1 past_end char 3 Sample.loads_1_4_8_10
    = Ret (Some (12288 + 16), pool').
Proof. eexists. vm_compute. reflexivity. Qed.

(** When no key is above the bound, the iterator [upper_bound] returns is
    [end()]: once [try_occupy] has returned, [++hint] increments [end()],
    and the call ends as that increment does. *)
Lemma occupy_past_end (_Size _Alignment : Z) (past_end : outcome nat)
    (T : Ty) (count : Z) (pool : Pool.t) (k : Q) (page : Page.t)
    (r : option Z * Page.t) :
  Pool.myPages pool <> [] ->
  Pool.select (Pool.myPages pool) (Page.load_of _Size T count)
  = Some (pred (length (Pool.myPages pool))) ->
  Pool.myPages pool !! pred (length (Pool.myPages pool)) = Some (k, page) ->
  Page.try_occupy _Size _Alignment T count page = Ret r ->
  (past_end = Undefined ->
   Pool.occupy _Size _Alignment past_end T count pool = Undefined) /\
  (past_end = Diverges ->
   Pool.occupy _Size _Alignment past_end T count pool = Diverges) /\
  (forall hint, past_end = Ret hint ->
   exists pool',
     Pool.occupy _Size _Alignment past_end T count pool = Ret (r.1, pool') /\
     Pool.myPages pool'
     = Pool.emplace_hint hint (Page.load page) r.2
         (delete (pred (length (Pool.myPages pool))) (Pool.myPages pool))).
Proof.
  intros Hne Hsel Hlast Htry. unfold Pool.occupy.
  destruct (Pool.myPages pool) as [| e rest] eqn:Hpages; [done |].
  rewrite Hsel, Hlast, Htry. cbn [bind].
  unfold Pool.increment. rewrite length_delete by eauto.
  assert ((pred (length (e :: rest)) <? length (e :: rest) - 1)%nat = false)
    as -> by (apply Nat.ltb_ge; simpl; lia).
  split; [| split].
  - by intros ->.
  - by intros ->.
  - intros hint ->. cbn [bind fst snd]. eexists. split; reflexivity.
Qed.

(** ** Releasing what is not an occupied head *)

(** C8, the claim as stated fails for a hint: on a fresh [Page<4, 1>] the
    hint [fit<char>(1)] returns is valid and designates the free head of the
    whole page; [release] of it returns true and takes the load from 0 to
    -1. *)
Lemma release_of_free_head_succeeds :
  exists hint q,
    Page.fit 4 1 char 1 Sample.fresh = Ret hint /\
    Page.Hint.is_valid_at hint (Page.cend 4 1 Sample.fresh) = true /\
    (PageBlockInfo.is_free <$> Page.myInfo Sample.fresh
       !! Z.to_nat (Page.from_hint 4 1 Sample.fresh hint)) = Some true /\
    release_with 4 1 (ByHint hint) Sample.fresh = Ret (true, q) /\
    (Page.load Sample.fresh == 0)%Q /\
    (Page.load q == -1)%Q.
Proof.
  do 2 eexists.
  split; [vm_compute; reflexivity |].
  split; [reflexivity |].
  split; [reflexivity |].
  split; [vm_compute; reflexivity |].
  split; reflexivity.
Qed.

(** C8, as amended.  [release] returns false and leaves the page as it is
    whenever its hint is not valid for this page's directory, and whenever
    its pointer is of an over-aligned type, lies below the buffer, ends past
    it, is not aligned on a block, or designates a cell that is free or whose
    size is not the required block count. *)
Theorem release_mismatch_is_noop (_Size _Alignment : Z)
    (arg : release_arg) (p : Page.t) :
  rejected _Size _Alignment arg p = true ->
  release_with _Size _Alignment arg p = Ret (false, p).
Proof.
  destruct arg as [hint | T ptr count]; intros H.
  - simpl in *. apply release_invalid_hint.
    by apply negb_true_iff.
  - unfold release_with, Page.release_ptr.
    rewrite (contains_rejects _ _ _ _ _ _ H). simpl.
    apply release_invalid_hint, make_end_invalid.
Qed.

Lemma release_mismatch_is_noop_witness :
  rejected 4 1 (ByPointer char 4098 2) Sample.first_half = true /\
  release_with 4 1 (ByPointer char 4098 2) Sample.first_half
  = Ret (false, Sample.first_half).
Proof.
  split; [reflexivity |].
  apply (release_mismatch_is_noop 4 1 (ByPointer char 4098 2)
           Sample.first_half).
  reflexivity.
Defined.

(** The default-constructed hint is never valid. *)
Lemma default_hint_is_invalid (_Size _Alignment : Z) (p : Page.t) :
  Page.Hint.is_valid Page.Hint.default = false /\
  Page.release _Size _Alignment Page.Hint.default p = Ret (false, p).
Proof. split; [reflexivity |]. by apply release_invalid_hint. Qed.

(** ** The load across an occupy and the release of its run *)



(** ** A hint is trusted by [try_occupy] *)

(** C10.  [try_occupy(count, hint)] only asks whether the hint is valid for
    the directory.  On the page with blocks 0-1 occupied and 2-3 free: the
    hint [contains] gives for the occupied head is accepted, the head is
    rewritten as occupied with the 1 block required and the load rises by
    1/4; the hint [fit<char>(1)] gives for the free run of 2 blocks is
    accepted for a request of 3 blocks, the head is rewritten as occupied
    with 3 blocks and the load rises by 3/4.  Both calls return a non-null
    pointer. *)
Theorem try_occupy_does_not_check_hint :
  (exists hint c ptr q c',
     Page.contains 4 1 char 4096 2 Sample.first_half = Ret hint /\
     Page.Hint.is_valid_at hint (Page.cend 4 1 Sample.first_half) = true /\
     Page.myInfo Sample.first_half
       !! Z.to_nat (Page.from_hint 4 1 Sample.first_half hint) = Some c /\
     PageBlockInfo.is_free c = false /\
     PageBlockInfo.size c = 2 /\
     Page.size_in_blocks 1 char 1 = 1 /\
     Page.try_occupy_at 4 1 char 1 hint Sample.first_half
     = Ret (Some ptr, q) /\
     Page.myInfo q !! Z.to_nat (Page.from_hint 4 1 Sample.first_half hint)
     = Some c' /\
     PageBlockInfo.is_free c' = false /\
     PageBlockInfo.size c' = 1 /\
     (Page.load q == Page.load Sample.first_half + (1 # 4))%Q) /\
  (exists hint c ptr q c',
     Page.fit 4 1 char 1 Sample.first_half = Ret hint /\
     Page.Hint.is_valid_at hint (Page.cend 4 1 Sample.first_half) = true /\
     Page.myInfo Sample.first_half
       !! Z.to_nat (Page.from_hint 4 1 Sample.first_half hint) = Some c /\
     PageBlockInfo.is_free c = true /\
     PageBlockInfo.size c = 2 /\
     Page.size_in_blocks 1 char 3 = 3 /\
     Page.try_occupy_at 4 1 char 3 hint Sample.first_half
     = Ret (Some ptr, q) /\
     Page.myInfo q !! Z.to_nat (Page.from_hint 4 1 Sample.first_half hint)
     = Some c' /\
     PageBlockInfo.is_free c' = false /\
     PageBlockInfo.size c' = 3 /\
     (Page.load q == Page.load Sample.first_half + (3 # 4))%Q).
Proof.
  split.
  - do 5 eexists.
    split; [vm_compute; reflexivity |].
    split; [reflexivity |].
    split; [reflexivity |].
    split; [reflexivity |].
    split; [reflexivity |].
    split; [reflexivity |].
    split; [vm_compute; reflexivity |].
    split; [reflexivity |].
    repeat split; reflexivity.
  - do 5 eexists.
    split; [vm_compute; reflexivity |].
    split; [reflexivity |].
    split; [reflexivity |].
    split; [reflexivity |].
    split; [reflexivity |].
    split; [reflexivity |].
    split; [vm_compute; reflexivity |].
    split; [reflexivity |].
    repeat split; reflexivity.
Qed.

(** * Further properties of the code *)

(** ** The encoding of a head *)

(** X1.  A head made with a size below 2^63 reads back that size and keeps
    its backward link; it reads as free exactly when it was made free with
    at least one block: a free head of 0 blocks reads as occupied. *)
Theorem make_head_reads_back (free : bool) (n : Z) (c : PageBlockInfo.t) :
  0 <= n < 2 ^ 63 ->
  PageBlockInfo.size (PageBlockInfo.make_head free n c) = n /\
  PageBlockInfo.is_free (PageBlockInfo.make_head free n c)
  = free && (0 <? n) /\
  PageBlockInfo.prev (PageBlockInfo.make_head free n c)
  = PageBlockInfo.prev c.
Proof.
  intros Hn. split; [by apply size_make_head |]. split; [| reflexivity].
  destruct free; simpl.
  - by apply is_free_make_head_true.
  - by apply is_free_make_head_false.
Qed.

Lemma make_head_reads_back_witness :
  0 <= 3 < 2 ^ 63 /\
  PageBlockInfo.size (PageBlockInfo.make_head false 3 PageBlockInfo.default)
  = 3 /\
  PageBlockInfo.is_free
    (PageBlockInfo.make_head false 3 PageBlockInfo.default)
  = false && (0 <? 3) /\
  PageBlockInfo.prev (PageBlockInfo.make_head false 3 PageBlockInfo.default)
  = PageBlockInfo.prev PageBlockInfo.default.
Proof.
  split; [lia |].
  apply (make_head_reads_back false 3 PageBlockInfo.default). lia.
Defined.

(** ** The required size *)

(** X2.  For an alignment 2^k and a byte count the rounding does not
    overflow, [size_in_blocks] is the least multiple of the alignment that
    is not below the byte count. *)
Theorem size_in_blocks_least_multiple (k : Z) (T : Ty) (count : Z) :
  0 <= k < 64 ->
  0 <= sizeof T * count ->
  sizeof T * count + 2 ^ k - 1 < 2 ^ 64 ->
  Page.size_in_blocks (2 ^ k) T count mod 2 ^ k = 0 /\
  sizeof T * count <= Page.size_in_blocks (2 ^ k) T count
  < sizeof T * count + 2 ^ k.
Proof.
  intros Hk H0 Hfit.
  rewrite size_in_blocks_is_rounded_bytes by done.
  unfold required_blocks_spec.
  assert (0 < 2 ^ k) as Hpos by (apply Z.pow_pos_nonneg; lia).
  pose proof (Z.mod_pos_bound (sizeof T * count + 2 ^ k - 1) (2 ^ k) Hpos).
  pose proof (Z.div_mod (sizeof T * count + 2 ^ k - 1) (2 ^ k)).
  split; [| lia].
  rewrite Z.mul_comm. apply Z.mod_mul. lia.
Qed.

Lemma size_in_blocks_least_multiple_witness :
  0 <= 2 < 64 /\
  Page.size_in_blocks (2 ^ 2) char 5 mod 2 ^ 2 = 0 /\
  sizeof char * 5 <= Page.size_in_blocks (2 ^ 2) char 5 < sizeof char * 5 + 2 ^ 2.
Proof.
  split; [lia |].
  apply (size_in_blocks_least_multiple 2 char 5);
    [lia | vm_compute; discriminate | reflexivity].
Defined.

(** ** Hints and the page that made them *)

Lemma fit_myEnd _Size _Alignment T count p hint :
  Page.fit _Size _Alignment T count p = Ret hint ->
  Page.Hint.myEnd hint = Some (Page.cend _Size _Alignment p).
Proof.
  unfold Page.fit. intros H.
  destruct (alignof T <=? _Alignment).
  - apply bind_Ret in H as ([i |] & _ & H); by injection H as <-.
  - by injection H as <-.
Qed.

Lemma contains_myEnd _Size _Alignment T data count p hint :
  Page.contains _Size _Alignment T data count p = Ret hint ->
  Page.Hint.myEnd hint = Some (Page.cend _Size _Alignment p).
Proof.
  unfold Page.contains. intros H.
  destruct (alignof T <=? _Alignment); [| by injection H as <-].
  destruct (_ && _) in H; [| by injection H as <-].
  apply bind_Ret in H as (iter & _ & H).
  apply bind_Ret in H as (c & _ & H).
  destruct (_ && _) in H; by injection H as <-.
Qed.

Lemma from_hint_other_page _Size _Alignment p p' hint :
  Page.Hint.myEnd hint = Some (Page.cend _Size _Alignment p) ->
  Page.myData p' <> Page.myData p ->
  Page.from_hint _Size _Alignment p' hint
  = Page.blocks_count _Size _Alignment.
Proof.
  intros Hend Hne. apply from_hint_invalid.
  unfold Page.Hint.is_valid_at. rewrite Hend.
  unfold Page.iterator_eqb at 1. simpl.
  destruct (Page.myData p =? Page.myData p') eqn:E; [lia | done].
Qed.

(** X3.  A hint is bound to the page that made it: the hint [fit] or
    [contains] returned for one page is refused by a page at another
    address, whose [try_occupy] returns null and whose [release] returns
    false, the page staying as it is. *)
Theorem hint_is_refused_by_another_page (_Size _Alignment : Z)
    (T : Ty) (data count : Z) (p p' : Page.t) (hint : Page.Hint.t)
    (T' : Ty) (count' : Z) :
  Page.fit _Size _Alignment T count p = Ret hint
  \/ Page.contains _Size _Alignment T data count p = Ret hint ->
  Page.myData p' <> Page.myData p ->
  Page.try_occupy_at _Size _Alignment T' count' hint p' = Ret (None, p') /\
  Page.release _Size _Alignment hint p' = Ret (false, p').
Proof.
  intros Hmade Hne.
  assert (Page.Hint.myEnd hint = Some (Page.cend _Size _Alignment p)) as Hend.
  { destruct Hmade as [H | H];
      [by apply fit_myEnd in H | by apply contains_myEnd in H]. }
  pose proof (from_hint_other_page _ _ _ _ _ Hend Hne) as Hfrom.
  split.
  - by apply try_occupy_at_end.
  - unfold Page.release. rewrite Hfrom, Z.eqb_refl. reflexivity.
Qed.

Lemma hint_is_refused_by_another_page_witness :
  exists hint,
    (Page.fit 4 1 char 1 Sample.fresh = Ret hint
     \/ Page.contains 4 1 char 0 1 Sample.fresh = Ret hint) /\
    Page.Hint.is_valid hint = true /\
    Page.myData Sample.full <> Page.myData Sample.fresh /\
    Page.try_occupy_at 4 1 char 1 hint Sample.full
    = Ret (None, Sample.full) /\
    Page.release 4 1 hint Sample.full = Ret (false, Sample.full).
Proof.
  eexists.
  assert (Page.myData Sample.full <> Page.myData Sample.fresh) as Hne
    by (vm_compute; discriminate).
  split; [left; vm_compute; reflexivity |].
  split; [reflexivity |]. split; [exact Hne |].
  apply (hint_is_refused_by_another_page 4 1 char 0 1 Sample.fresh
           Sample.full _ char 1);
    [left; vm_compute; reflexivity | exact Hne].
Defined.

(** ** A type the page cannot align *)

(** X4.  For a type whose alignment exceeds the page's, whatever the state
    of the page: [fit] and [contains] return [Hint(end)], [try_occupy]
    returns null and [release] by pointer returns false, and the page stays
    as it is. *)
Theorem over_aligned_type_is_never_served (_Size _Alignment : Z) (T : Ty)
    (data count : Z) (p : Page.t) :
  _Alignment < alignof T ->
  Page.fit _Size _Alignment T count p
  = Ret (Page.Hint.make_end (Page.cend _Size _Alignment p)) /\
  Page.contains _Size _Alignment T data count p
  = Ret (Page.Hint.make_end (Page.cend _Size _Alignment p)) /\
  Page.try_occupy _Size _Alignment T count p = Ret (None, p) /\
  Page.release_ptr _Size _Alignment T data count p = Ret (false, p).
Proof.
  intros Halign.
  assert (Page.fit _Size _Alignment T count p
          = Ret (Page.Hint.make_end (Page.cend _Size _Alignment p))) as Hfit.
  { unfold Page.fit. by replace (alignof T <=? _Alignment) with false by lia. }
  assert (Page.contains _Size _Alignment T data count p
          = Ret (Page.Hint.make_end (Page.cend _Size _Alignment p))) as Hcont.
  { unfold Page.contains.
    by replace (alignof T <=? _Alignment) with false by lia. }
  split; [done |]. split; [done |]. split.
  - unfold Page.try_occupy. rewrite Hfit. simpl.
    apply try_occupy_at_end, from_hint_make_end.
  - unfold Page.release_ptr. rewrite Hcont. simpl.
    apply release_invalid_hint, make_end_invalid.
Qed.

Lemma over_aligned_type_is_never_served_witness :
  1 < alignof {| sizeof := 8; alignof := 8 |} /\
  Page.fit 4 1 {| sizeof := 8; alignof := 8 |} 1 Sample.fresh
  = Ret (Page.Hint.make_end (Page.cend 4 1 Sample.fresh)) /\
  Page.contains 4 1 {| sizeof := 8; alignof := 8 |} 4096 1 Sample.fresh
  = Ret (Page.Hint.make_end (Page.cend 4 1 Sample.fresh)) /\
  Page.try_occupy 4 1 {| sizeof := 8; alignof := 8 |} 1 Sample.fresh
  = Ret (None, Sample.fresh) /\
  Page.release_ptr 4 1 {| sizeof := 8; alignof := 8 |} 4096 1 Sample.fresh
  = Ret (false, Sample.fresh).
Proof.
  split; [simpl; lia |].
  apply (over_aligned_type_is_never_served 4 1
           {| sizeof := 8; alignof := 8 |} 4096 1 Sample.fresh).
  simpl. lia.
Defined.

(** ** Calls that fail *)

Lemma try_occupy_at_None _Size _Alignment T count hint p q :
  Page.try_occupy_at _Size _Alignment T count hint p = Ret (None, q) -> q = p.
Proof.
  unfold Page.try_occupy_at. intros H.
  destruct (negb _) in H; [| by injection H as <-].
  apply bind_Ret in H as (c & _ & H).
  apply bind_Ret in H as (info1 & _ & H).
  apply bind_Ret in H as (info2 & _ & H). discriminate.
Qed.

Lemma release_false _Size _Alignment hint p q :
  Page.release _Size _Alignment hint p = Ret (false, q) -> q = p.
Proof.
  unfold Page.release. intros H.
  destruct (negb _) in H; [| by injection H as <-].
  apply bind_Ret in H as (c & _ & H).
  apply bind_Ret in H as (next & _ & H).
  apply bind_Ret in H as (info1 & _ & H).
  apply bind_Ret in H as ([[info2 size2] farNext] & _ & H).
  apply bind_Ret in H as (info3 & _ & H). discriminate.
Qed.

(** X5.  A call that fails changes nothing: when [try_occupy], with or
    without a hint, returns null, and when [release], by hint or by pointer,
    returns false, the page is the one the call received. *)
Theorem failed_call_leaves_page (_Size _Alignment : Z) (T : Ty)
    (data count : Z) (hint : Page.Hint.t) (p q : Page.t) :
  Page.try_occupy _Size _Alignment T count p = Ret (None, q)
  \/ Page.try_occupy_at _Size _Alignment T count hint p = Ret (None, q)
  \/ Page.release _Size _Alignment hint p = Ret (false, q)
  \/ Page.release_ptr _Size _Alignment T data count p = Ret (false, q) ->
  q = p.
Proof.
  intros [H | [H | [H | H]]].
  - unfold Page.try_occupy in H. apply bind_Ret in H as (h & _ & H).
    by apply try_occupy_at_None in H.
  - by apply try_occupy_at_None in H.
  - by apply release_false in H.
  - unfold Page.release_ptr in H. apply bind_Ret in H as (h & _ & H).
    by apply release_false in H.
Qed.

Lemma failed_call_leaves_page_witness :
  Page.try_occupy 4 1 char 1 Sample.full = Ret (None, Sample.full) /\
  Sample.full = Sample.full.
Proof.
  assert (Page.try_occupy 4 1 char 1 Sample.full = Ret (None, Sample.full))
    as H by (vm_compute; reflexivity).
  split; [exact H |].
  apply (failed_call_leaves_page 4 1 char 0 1 Page.Hint.default
           Sample.full Sample.full).
  left. exact H.
Defined.

(** ** The storage a request gets *)

(** X6.  On a well-formed page, for an alignment 2^k and a byte count the
    rounding does not overflow, the pointer [try_occupy] returns is at a
    whole number of blocks from the start of the buffer and the elements it
    is given for end inside the buffer. *)
Theorem occupied_storage_is_in_buffer (k _Size : Z) (T : Ty) (count : Z)
    (p : Page.t) (ptr : Z) (q : Page.t) :
  0 <= k < 64 ->
  0 <= sizeof T * count ->
  sizeof T * count + 2 ^ k - 1 < 2 ^ 64 ->
  wf _Size (2 ^ k) p = true ->
  Page.try_occupy _Size (2 ^ k) T count p = Ret (Some ptr, q) ->
  Page.myData p <= ptr /\
  (ptr - Page.myData p) mod 2 ^ k = 0 /\
  ptr + sizeof T * count <= Page.myData p + _Size.
Proof.
  intros Hk H0 Hnowrap Hwf Hocc.
  assert (0 < 2 ^ k) as HA by (apply Z.pow_pos_nonneg; lia).
  pose proof (size_in_blocks_ge_bytes k T count Hk H0 Hnowrap) as Hge.
  destruct (try_occupy_wf _ _ _ _ _ _ _ Hwf Hocc) as (hint & c' & H).
  cbv zeta in H.
  destruct H as (_ & _ & _ & Hiter & Hend & _ & -> & _).
  set (iter := Page.from_hint _Size (2 ^ k) p hint) in *.
  set (n := Page.size_in_blocks (2 ^ k) T count) in *.
  assert (2 ^ k * Page.blocks_count _Size (2 ^ k) <= _Size) as Hbc
    by (unfold Page.blocks_count; apply Z.mul_div_le; lia).
  set (bc := Page.blocks_count _Size (2 ^ k)) in *.
  split; [nia |]. split.
  - replace (Page.myData p + iter * 2 ^ k - Page.myData p)
      with (iter * 2 ^ k) by lia.
    apply Z.mod_mul. lia.
  - nia.
Qed.

Lemma occupied_storage_is_in_buffer_witness :
  wf 64 (2 ^ 2) (Page.Page 64 (2 ^ 2) 4096) = true /\
  exists q,
    Page.try_occupy 64 (2 ^ 2) char 5 (Page.Page 64 (2 ^ 2) 4096)
    = Ret (Some 4096, q) /\
    Page.myData (Page.Page 64 (2 ^ 2) 4096) <= 4096 /\
    (4096 - Page.myData (Page.Page 64 (2 ^ 2) 4096)) mod 2 ^ 2 = 0 /\
    4096 + sizeof char * 5 <= Page.myData (Page.Page 64 (2 ^ 2) 4096) + 64.
Proof.
  split; [reflexivity |].
  eexists. split; [vm_compute; reflexivity |].
  eapply (occupied_storage_is_in_buffer 2 64 char 5
            (Page.Page 64 (2 ^ 2) 4096) 4096);
    [lia | vm_compute; discriminate | reflexivity | reflexivity
    | vm_compute; reflexivity].
Defined.

(** ** Directories laid out as runs *)

Lemma insert_replicate_app {A : Type} (d t : A) (a b : nat) (R : list A) :
  <[a := t]> (replicate (a + S b) d ++ R)
  = replicate a d ++ t :: replicate b d ++ R.
Proof. induction a as [| a IH]; simpl; [done | by rewrite IH]. Qed.

Lemma insert_at_length {A : Type} (L R : list A) (x y : A) :
  <[length L := y]> (L ++ x :: R) = L ++ y :: R.
Proof.
  replace (length L) with (length L + 0)%nat by lia.
  by rewrite insert_app_r.
Qed.

Lemma lookup_at_length {A : Type} (L R : list A) (x : A) :
  (L ++ x :: R) !! length L = Some x.
Proof. by rewrite list_lookup_middle. Qed.

Lemma head_size r :
  0 <= Layout.blocks r < 2 ^ 63 ->
  PageBlockInfo.size (Layout.head r) = Layout.blocks r.
Proof.
  intros H. unfold PageBlockInfo.size, Layout.head. simpl.
  destruct (Layout.free r).
  - replace (0 <=? Layout.blocks r) with true by lia.
    apply to_size_t_id. lia.
  - destruct (0 <=? - Layout.blocks r) eqn:E; rewrite to_size_t_id; lia.
Qed.

Lemma head_is_free r :
  1 <= Layout.blocks r ->
  PageBlockInfo.is_free (Layout.head r) = Layout.free r.
Proof.
  intros H. unfold PageBlockInfo.is_free, Layout.head. simpl.
  destruct (Layout.free r); lia.
Qed.

Lemma sized_app a b :
  Layout.sized (a ++ b) = Layout.sized a && Layout.sized b.
Proof. unfold Layout.sized. apply forallb_app. Qed.

Lemma render_app a b :
  Layout.render (a ++ b) = Layout.render a ++ Layout.render b.
Proof.
  induction a as [| r a IH]; simpl; [done |]. by rewrite IH, <- app_assoc.
Qed.

Lemma total_app a b :
  Layout.total (a ++ b) = Layout.total a + Layout.total b.
Proof. induction a as [| r a IH]; simpl; lia. Qed.

Lemma length_cells r :
  1 <= Layout.blocks r ->
  Z.of_nat (length (Layout.cells r)) = Layout.blocks r.
Proof.
  intros H. unfold Layout.cells. simpl. rewrite length_replicate. lia.
Qed.

Lemma length_render runs :
  Layout.sized runs = true ->
  Z.of_nat (length (Layout.render runs)) = Layout.total runs.
Proof.
  induction runs as [| r runs IH]; simpl; [done |].
  intros H. apply andb_true_iff in H as [Hr H].
  rewrite length_app, length_replicate. rewrite Nat2Z.inj_succ.
  specialize (IH H). lia.
Qed.

Lemma total_ge_length runs :
  Layout.sized runs = true ->
  Z.of_nat (length runs) <= Layout.total runs.
Proof.
  induction runs as [| r runs IH]; simpl; [lia |].
  intros H. apply andb_true_iff in H as [Hr H]. specialize (IH H). lia.
Qed.

Lemma render_middle before r after :
  Layout.render (before ++ r :: after)
  = Layout.render before
    ++ Layout.head r
       :: replicate (Z.to_nat (Layout.blocks r - 1)) PageBlockInfo.default
    ++ Layout.render after.
Proof. rewrite render_app. simpl. reflexivity. Qed.

Lemma lookup_render_head before r after :
  Layout.sized before = true ->
  Layout.render (before ++ r :: after) !! Z.to_nat (Layout.total before)
  = Some (Layout.head r).
Proof.
  intros H. rewrite render_middle.
  rewrite <- (length_render before H), Nat2Z.id.
  apply lookup_at_length.
Qed.

Lemma lookup_render_interior before r after j :
  Layout.sized before = true ->
  0 < j < Layout.blocks r ->
  Layout.render (before ++ r :: after) !! Z.to_nat (Layout.total before + j)
  = Some PageBlockInfo.default.
Proof.
  intros H Hj. rewrite render_middle.
  pose proof (length_render before H) as Hlen.
  replace (Z.to_nat (Layout.total before + j))
    with (length (Layout.render before) + S (Z.to_nat (j - 1)))%nat by lia.
  rewrite lookup_app_r by lia.
  replace (length (Layout.render before) + S (Z.to_nat (j - 1))
           - length (Layout.render before))%nat
    with (S (Z.to_nat (j - 1))) by lia.
  simpl. rewrite lookup_app_l by (rewrite length_replicate; lia).
  apply lookup_replicate_2. lia.
Qed.

(** The directory after a run of s blocks has been split into an occupied
    run of n blocks and a free tail, or rewritten when n = s. *)
Lemma render_split before r after (h1 t : PageBlockInfo.t) n :
  Layout.sized before = true ->
  1 <= n < Layout.blocks r ->
  <[Z.to_nat (Layout.total before) := h1]>
    (<[Z.to_nat (Layout.total before + n) := t]>
       (Layout.render (before ++ r :: after)))
  = Layout.render before
    ++ (h1 :: replicate (Z.to_nat (n - 1)) PageBlockInfo.default)
    ++ (t :: replicate (Z.to_nat (Layout.blocks r - n - 1))
               PageBlockInfo.default)
    ++ Layout.render after.
Proof.
  intros H Hn. rewrite render_middle.
  pose proof (length_render before H) as Hlen.
  replace (Z.to_nat (Layout.total before + n))
    with (length (Layout.render before) + S (Z.to_nat (n - 1)))%nat by lia.
  replace (Z.to_nat (Layout.total before))
    with (length (Layout.render before)) by lia.
  rewrite insert_app_r. simpl.
  replace (Z.to_nat (Layout.blocks r - 1))
    with (Z.to_nat (n - 1) + S (Z.to_nat (Layout.blocks r - n - 1)))%nat
    by lia.
  rewrite insert_replicate_app, insert_at_length. reflexivity.
Qed.

Lemma render_rewrite_head before r after (h1 : PageBlockInfo.t) :
  Layout.sized before = true ->
  <[Z.to_nat (Layout.total before) := h1]>
    (Layout.render (before ++ r :: after))
  = Layout.render before
    ++ (h1 :: replicate (Z.to_nat (Layout.blocks r - 1))
                PageBlockInfo.default)
    ++ Layout.render after.
Proof.
  intros H. rewrite render_middle.
  pose proof (length_render before H) as Hlen.
  replace (Z.to_nat (Layout.total before))
    with (length (Layout.render before)) by lia.
  by rewrite insert_at_length.
Qed.

(** Either no run serves the request, or there is a first one that does. *)
Lemma first_fit_split n runs :
  Forall (fun r => Layout.fits n r = false) runs
  \/ exists before r after,
       runs = before ++ r :: after /\
       Forall (fun r => Layout.fits n r = false) before /\
       Layout.fits n r = true.
Proof.
  induction runs as [| r runs IH]; [by left |].
  destruct (Layout.fits n r) eqn:Hr.
  - right. exists [], r, runs. by repeat split.
  - destruct IH as [IH | (before & r' & after & -> & Hb & Hr')].
    + left. by constructor.
    + right. exists (r :: before), r', after.
      split; [done | split; [by constructor | done]].
Qed.

Lemma total_nonneg runs :
  Layout.sized runs = true -> 0 <= Layout.total runs.
Proof. intros H. pose proof (total_ge_length runs H). lia. Qed.

Lemma total_middle a r b :
  Layout.sized (a ++ r :: b) = true ->
  Layout.sized a = true /\ Layout.sized b = true /\
  1 <= Layout.blocks r /\ 0 <= Layout.total a /\ 0 <= Layout.total b /\
  Layout.total (a ++ r :: b)
  = Layout.total a + Layout.blocks r + Layout.total b.
Proof.
  rewrite sized_app. intros H. apply andb_true_iff in H as [Ha H].
  simpl in H. apply andb_true_iff in H as [Hr Hb].
  rewrite total_app. simpl.
  pose proof (total_nonneg a Ha). pose proof (total_nonneg b Hb).
  repeat split; try done; lia.
Qed.

Section LayoutFit.

Variables _Size _Alignment : Z.

Local Abbreviation bc := (Page.blocks_count _Size _Alignment).

Hypothesis Hbc : bc < 2 ^ 63.

Lemma deref_head info before r after :
  info = Layout.render (before ++ r :: after) ->
  Layout.sized (before ++ r :: after) = true ->
  Layout.total (before ++ r :: after) = bc ->
  Page.deref _Size _Alignment info (Layout.total before)
  = Ret (Layout.head r).
Proof.
  intros -> Hs Ht.
  destruct (total_middle _ _ _ Hs) as (Ha & Hb & Hr & Hta & Htb & Hsum).
  apply deref_Ret. split; [lia |]. by apply lookup_render_head.
Qed.

Lemma fit_loop_layout_found n before : forall done r after fuel info,
  info = Layout.render (done ++ before ++ r :: after) ->
  Layout.sized (done ++ before ++ r :: after) = true ->
  Layout.total (done ++ before ++ r :: after) = bc ->
  Forall (fun b => Layout.fits n b = false) before ->
  Layout.fits n r = true ->
  (length before < fuel)%nat ->
  Page.fit_loop _Size _Alignment fuel info n (Layout.total done)
  = Ret (Some (Layout.total done + Layout.total before)).
Proof.
  induction before as [| b before IH];
    intros done r after fuel info Hinfo Hs Ht Hnf Hr Hf.
  - destruct fuel as [| fuel]; [simpl in Hf; lia |].
    simpl app in *.
    destruct (total_middle _ _ _ Hs) as (Ha & Hb & Hr1 & Hta & Htb & Hsum).
    simpl Page.fit_loop.
    destruct (Layout.total done =? bc) eqn:E; [lia |].
    rewrite (deref_head info done r after Hinfo Hs Ht). simpl bind.
    rewrite head_size, head_is_free by lia.
    unfold Layout.fits in Hr. rewrite Hr. simpl Layout.total.
    by rewrite Z.add_0_r.
  - destruct fuel as [| fuel]; [simpl in Hf; lia |].
    apply Forall_cons in Hnf as [Hb Hnf].
    simpl app in *.
    destruct (total_middle _ _ _ Hs) as (Ha & Hrest & Hb1 & Hta & Htb & Hsum).
    simpl Page.fit_loop.
    destruct (Layout.total done =? bc) eqn:E; [lia |].
    rewrite (deref_head info done b _ Hinfo Hs Ht). simpl bind.
    rewrite head_size, head_is_free by lia.
    unfold Layout.fits in Hb. rewrite Hb.
    assert (Page.advance _Size _Alignment (Layout.total done)
              (Layout.blocks b)
            = Ret (Layout.total done + Layout.blocks b)) as ->.
    { apply advance_Ret. rewrite to_ptrdiff_t_id by lia. lia. }
    simpl bind.
    replace (Layout.total done + Layout.blocks b)
      with (Layout.total (done ++ [b]))
      by (rewrite total_app; simpl; lia).
    rewrite (IH (done ++ [b]) r after fuel info).
    + rewrite total_app. simpl. f_equal. f_equal. lia.
    + by rewrite <- app_assoc.
    + by rewrite <- app_assoc.
    + by rewrite <- app_assoc.
    + done.
    + done.
    + simpl in Hf. lia.
Qed.

Lemma fit_loop_layout_none n rest : forall done fuel info,
  info = Layout.render (done ++ rest) ->
  Layout.sized (done ++ rest) = true ->
  Layout.total (done ++ rest) = bc ->
  Forall (fun b => Layout.fits n b = false) rest ->
  (length rest <= fuel)%nat ->
  Page.fit_loop _Size _Alignment fuel info n (Layout.total done)
  = Ret None.
Proof.
  induction rest as [| b rest IH]; intros done fuel info Hinfo Hs Ht Hnf Hf.
  - rewrite app_nil_r in Ht.
    destruct fuel; simpl; by rewrite Ht, Z.eqb_refl.
  - destruct fuel as [| fuel]; [simpl in Hf; lia |].
    apply Forall_cons in Hnf as [Hb Hnf].
    destruct (total_middle _ _ _ Hs) as (Ha & Hrest & Hb1 & Hta & Htb & Hsum).
    simpl Page.fit_loop.
    destruct (Layout.total done =? bc) eqn:E; [lia |].
    rewrite (deref_head info done b _ Hinfo Hs Ht). simpl bind.
    rewrite head_size, head_is_free by lia.
    unfold Layout.fits in Hb. rewrite Hb.
    assert (Page.advance _Size _Alignment (Layout.total done)
              (Layout.blocks b)
            = Ret (Layout.total done + Layout.blocks b)) as ->.
    { apply advance_Ret. rewrite to_ptrdiff_t_id by lia. lia. }
    simpl bind.
    replace (Layout.total done + Layout.blocks b)
      with (Layout.total (done ++ [b]))
      by (rewrite total_app; simpl; lia).
    apply IH.
    + by rewrite <- app_assoc.
    + by rewrite <- app_assoc.
    + by rewrite <- app_assoc.
    + done.
    + simpl in Hf. lia.
Qed.

Lemma fit_layout_found T count p before r after :
  Layout.lays_out _Size _Alignment p (before ++ r :: after) ->
  alignof T <= _Alignment ->
  Forall (fun b =>
            Layout.fits (Page.size_in_blocks _Alignment T count) b = false)
    before ->
  Layout.fits (Page.size_in_blocks _Alignment T count) r = true ->
  Page.fit _Size _Alignment T count p
  = Ret (Page.Hint.make
           {| Page.it_array := Page.myData p;
              Page.it_pos := Layout.total before |}
           (Page.cend _Size _Alignment p)).
Proof.
  intros (Hinfo & Hs & Ht) Hal Hnf Hr. unfold Page.fit.
  replace (alignof T <=? _Alignment) with true by lia.
  destruct (total_middle _ _ _ Hs) as (Ha & Hb & Hr1 & Hta & Htb & Hsum).
  pose proof (total_ge_length before Ha) as Hlen.
  change 0 with (Layout.total []) at 1.
  rewrite (fit_loop_layout_found _ before [] r after _ (Page.myInfo p));
    try done; lia.
Qed.

Lemma fit_layout_none T count p runs :
  Layout.lays_out _Size _Alignment p runs ->
  Forall (fun b =>
            Layout.fits (Page.size_in_blocks _Alignment T count) b = false)
    runs ->
  Page.fit _Size _Alignment T count p
  = Ret (Page.Hint.make_end (Page.cend _Size _Alignment p)).
Proof.
  intros (Hinfo & Hs & Ht) Hnf. unfold Page.fit.
  destruct (alignof T <=? _Alignment); [| done].
  pose proof (total_ge_length runs Hs) as Hlen.
  change 0 with (Layout.total []) at 1.
  rewrite (fit_loop_layout_none _ runs [] _ (Page.myInfo p));
    try done; lia.
Qed.

End LayoutFit.

Section LayoutOccupy.

Variables _Size _Alignment : Z.

Local Abbreviation bc := (Page.blocks_count _Size _Alignment).

Hypothesis Hbc : bc < 2 ^ 63.

(** [try_occupy(count, hint)] for a hint that designates the head of the
    run [r]: the run is split, whether it was free or not. *)
Lemma try_occupy_at_layout T count hint p before r after :
  Layout.lays_out _Size _Alignment p (before ++ r :: after) ->
  Page.from_hint _Size _Alignment p hint = Layout.total before ->
  1 <= Page.size_in_blocks _Alignment T count <= Layout.blocks r ->
  Page.try_occupy_at _Size _Alignment T count hint p
  = Ret (Some (Page.myData p + Layout.total before * _Alignment),
         {| Page.myData := Page.myData p;
            Page.myInfo :=
              Layout.render
                (Layout.occupy_run (Page.size_in_blocks _Alignment T count)
                   before r after);
            Page.myLoad :=
              (Page.myLoad p
               + inject_Z (Page.size_in_blocks _Alignment T count)
                 / inject_Z bc)%Q |}).
Proof.
  intros (Hinfo & Hs & Ht) Hfrom Hn.
  destruct (total_middle _ _ _ Hs) as (Ha & Hb & Hr1 & Hta & Htb & Hsum).
  set (n := Page.size_in_blocks _Alignment T count) in *.
  unfold Page.try_occupy_at. fold n. rewrite Hfrom.
  replace (Layout.total before =? bc) with false by lia.
  cbn [negb].
  rewrite (deref_head _Size _Alignment _ before r after Hinfo Hs Ht).
  simpl bind. rewrite head_size by lia.
  pose proof (length_render _ Hs) as Hlen.
  destruct (n <? Layout.blocks r) eqn:E.
  - assert (Page.advance _Size _Alignment (Layout.total before) n
            = Ret (Layout.total before + n)) as ->.
    { apply advance_Ret. rewrite to_ptrdiff_t_id by lia. lia. }
    simpl bind.
    replace (Layout.total before + n =? bc) with false by lia.
    cbn [negb].
    set (f := PageBlockInfo.make_head true
                (to_size_t (Layout.blocks r - n))).
    assert (Page.update _Size _Alignment (Page.myInfo p)
              (Layout.total before + n) f
            = Ret (<[Z.to_nat (Layout.total before + n)
                     := f PageBlockInfo.default]> (Page.myInfo p))) as ->.
    { apply update_Ret. exists PageBlockInfo.default.
      split; [lia |]. split; [| done].
      rewrite Hinfo. apply lookup_render_interior; [done | lia]. }
    simpl bind.
    assert (Page.update _Size _Alignment
              (<[Z.to_nat (Layout.total before + n)
                 := f PageBlockInfo.default]> (Page.myInfo p))
              (Layout.total before + n)
              (PageBlockInfo.set_prev (Some (Layout.total before)))
            = Ret (<[Z.to_nat (Layout.total before + n)
                     := PageBlockInfo.set_prev (Some (Layout.total before))
                          (f PageBlockInfo.default)]> (Page.myInfo p)))
      as ->.
    { apply update_Ret. exists (f PageBlockInfo.default).
      split; [lia |]. split.
      - apply list_lookup_insert_eq. rewrite Hinfo. lia.
      - by rewrite list_insert_insert_eq. }
    simpl bind.
    assert (Page.update _Size _Alignment
              (<[Z.to_nat (Layout.total before + n)
                 := PageBlockInfo.set_prev (Some (Layout.total before))
                      (f PageBlockInfo.default)]> (Page.myInfo p))
              (Layout.total before)
              (PageBlockInfo.make_head false n)
            = Ret (<[Z.to_nat (Layout.total before)
                     := PageBlockInfo.make_head false n (Layout.head r)]>
                     (<[Z.to_nat (Layout.total before + n)
                        := PageBlockInfo.set_prev
                             (Some (Layout.total before))
                             (f PageBlockInfo.default)]> (Page.myInfo p))))
      as ->.
    { apply update_Ret. exists (Layout.head r).
      split; [lia |]. split; [| done].
      rewrite list_lookup_insert_ne by lia.
      rewrite Hinfo. by apply lookup_render_head. }
    simpl bind. rewrite Z.sub_0_r. do 3 f_equal.
    rewrite Hinfo, render_split by (done || lia).
    unfold Layout.occupy_run. rewrite E, render_app. simpl.
    unfold Layout.cells, Layout.head, f, PageBlockInfo.set_prev,
      PageBlockInfo.make_head. simpl.
    rewrite (to_ptrdiff_t_id n) by lia.
    rewrite (to_ptrdiff_t_id (- n)) by lia.
    rewrite (to_size_t_id (Layout.blocks r - n)) by lia.
    rewrite (to_ptrdiff_t_id (Layout.blocks r - n)) by lia.
    reflexivity.
  - assert (n = Layout.blocks r) as Hnr by lia.
    simpl bind.
    assert (Page.update _Size _Alignment (Page.myInfo p)
              (Layout.total before)
              (PageBlockInfo.make_head false n)
            = Ret (<[Z.to_nat (Layout.total before)
                     := PageBlockInfo.make_head false n (Layout.head r)]>
                     (Page.myInfo p))) as ->.
    { apply update_Ret. exists (Layout.head r).
      split; [lia |]. split; [| done].
      rewrite Hinfo. by apply lookup_render_head. }
    simpl bind. rewrite Z.sub_0_r. do 3 f_equal.
    rewrite Hinfo, render_rewrite_head by done.
    unfold Layout.occupy_run. rewrite E, render_app. simpl.
    unfold Layout.cells, Layout.head, PageBlockInfo.make_head. simpl.
    rewrite (to_ptrdiff_t_id n) by lia.
    rewrite (to_ptrdiff_t_id (- n)) by lia.
    by rewrite Hnr.
Qed.

Lemma occupy_run_sized n before r after :
  Layout.sized (before ++ r :: after) = true ->
  1 <= n <= Layout.blocks r ->
  Layout.sized (Layout.occupy_run n before r after) = true /\
  Layout.total (Layout.occupy_run n before r after)
  = Layout.total (before ++ r :: after).
Proof.
  intros Hs Hn.
  destruct (total_middle _ _ _ Hs) as (Ha & Hb & Hr1 & Hta & Htb & Hsum).
  unfold Layout.occupy_run. rewrite sized_app, !total_app.
  destruct (n <? Layout.blocks r) eqn:E; simpl.
  - rewrite Ha, Hb. split; [| lia].
    replace (1 <=? n) with true by lia.
    replace (1 <=? Layout.blocks r - n) with true by lia. done.
  - rewrite Ha, Hb. split; [| lia].
    replace (1 <=? n) with true by lia. done.
Qed.

Lemma try_occupy_layout T count p before r after :
  Layout.lays_out _Size _Alignment p (before ++ r :: after) ->
  alignof T <= _Alignment ->
  1 <= Page.size_in_blocks _Alignment T count ->
  Forall (fun b =>
            Layout.fits (Page.size_in_blocks _Alignment T count) b = false)
    before ->
  Layout.fits (Page.size_in_blocks _Alignment T count) r = true ->
  Page.try_occupy _Size _Alignment T count p
  = Ret (Some (Page.myData p + Layout.total before * _Alignment),
         {| Page.myData := Page.myData p;
            Page.myInfo :=
              Layout.render
                (Layout.occupy_run (Page.size_in_blocks _Alignment T count)
                   before r after);
            Page.myLoad :=
              (Page.myLoad p
               + inject_Z (Page.size_in_blocks _Alignment T count)
                 / inject_Z bc)%Q |}).
Proof.
  intros Hlay Hal Hn Hnf Hr. unfold Page.try_occupy.
  rewrite (fit_layout_found _Size _Alignment Hbc T count p before r after)
    by done.
  simpl bind.
  destruct Hlay as (Hinfo & Hs & Ht).
  destruct (total_middle _ _ _ Hs) as (Ha & Hb & Hr1 & Hta & Htb & Hsum).
  apply try_occupy_at_layout.
  - done.
  - apply from_hint_make. lia.
  - unfold Layout.fits in Hr. apply andb_true_iff in Hr as [_ Hr]. lia.
Qed.

Lemma try_occupy_layout_none T count p runs :
  Layout.lays_out _Size _Alignment p runs ->
  Forall (fun b =>
            Layout.fits (Page.size_in_blocks _Alignment T count) b = false)
    runs ->
  Page.try_occupy _Size _Alignment T count p = Ret (None, p).
Proof.
  intros Hlay Hnf. unfold Page.try_occupy.
  rewrite (fit_layout_none _Size _Alignment Hbc T count p runs) by done.
  simpl bind. unfold Page.try_occupy_at.
  rewrite from_hint_make_end, Z.eqb_refl. reflexivity.
Qed.

End LayoutOccupy.

Section LayoutFresh.

Variables _Size _Alignment : Z.

Local Abbreviation bc := (Page.blocks_count _Size _Alignment).

Hypothesis Hbc : 1 <= bc < 2 ^ 63.

(** The constructor leaves one free run that spans the page. *)
Lemma Page_layout addr :
  Layout.lays_out _Size _Alignment (Page.Page _Size _Alignment addr)
    [ {| Layout.free := true; Layout.blocks := bc; Layout.link := None |} ].
Proof.
  unfold Layout.lays_out, Page.Page. cbn [Page.myInfo].
  split; [| split].
  - replace (Z.to_nat bc) with (S (Z.to_nat (bc - 1))) by lia.
    cbn [Layout.render Layout.cells Layout.head Layout.blocks Layout.free
         Layout.link replicate].
    rewrite app_nil_r. cbn [insert list_insert].
    unfold PageBlockInfo.make_head. cbn [PageBlockInfo.myPrev
      PageBlockInfo.default].
    by rewrite to_ptrdiff_t_id by lia.
  - cbn [Layout.sized forallb Layout.blocks].
    replace (1 <=? bc) with true by lia. done.
  - cbn [Layout.total Layout.blocks]. lia.
Qed.

Lemma bump_state_fresh addr :
  Layout.bump_state _Size _Alignment addr 0
    (Page.Page _Size _Alignment addr).
Proof.
  exists [], None. replace (0 <? bc) with true by lia.
  rewrite Z.sub_0_r. split; [apply Page_layout |].
  split; [constructor |]. split; done.
Qed.

Lemma occupied_do_not_fit n occs :
  Forall (fun r => Layout.free r = false) occs ->
  Forall (fun b => Layout.fits n b = false) occs.
Proof.
  intros H. eapply Forall_impl; [exact H |].
  intros r Hr. unfold Layout.fits. by rewrite Hr.
Qed.

Lemma bump_state_step addr used p T count :
  Layout.bump_state _Size _Alignment addr used p ->
  alignof T <= _Alignment ->
  1 <= Page.size_in_blocks _Alignment T count ->
  let n := Page.size_in_blocks _Alignment T count in
  if used + n <=? bc
  then exists q,
         Page.try_occupy _Size _Alignment T count p
         = Ret (Some (addr + used * _Alignment), q) /\
         Layout.bump_state _Size _Alignment addr (used + n) q
  else Page.try_occupy _Size _Alignment T count p = Ret (None, p).
Proof.
  intros (occs & l & Hlay & Hocc & Htot & Hdata) Hal Hn n.
  assert (bc < 2 ^ 63) as Hbc' by lia.
  destruct (used + n <=? bc) eqn:E.
  - replace (used <? bc) with true in Hlay by lia.
    set (r := {| Layout.free := true; Layout.blocks := bc - used;
                 Layout.link := l |}) in *.
    assert (Layout.fits n r = true) as Hfit.
    { unfold Layout.fits, r. simpl. lia. }
    pose proof (try_occupy_layout _Size _Alignment Hbc' T count p occs r []
                  Hlay Hal Hn (occupied_do_not_fit _ _ Hocc) Hfit) as Hres.
    fold n in Hres. rewrite Hdata, Htot in Hres.
    eexists. split; [exact Hres |].
    destruct Hlay as (Hinfo & Hs & Ht).
    destruct (occupy_run_sized n occs r [] Hs) as [Hs' Ht'].
    { unfold r. simpl. lia. }
    exists (occs ++ [ {| Layout.free := false; Layout.blocks := n;
                         Layout.link := l |} ]), (Some used).
    split; [| split; [| split]].
    + unfold Layout.lays_out. cbn [Page.myInfo].
      assert (Layout.occupy_run n occs r []
              = (occs ++ [ {| Layout.free := false; Layout.blocks := n;
                              Layout.link := l |} ])
                ++ (if used + n <? bc
                    then [ {| Layout.free := true;
                              Layout.blocks := bc - (used + n);
                              Layout.link := Some used |} ]
                    else [])) as <-.
      { unfold Layout.occupy_run, r. cbn [Layout.blocks Layout.link].
        rewrite Htot, app_nil_r, <- app_assoc. simpl.
        destruct (n <? bc - used) eqn:E1, (used + n <? bc) eqn:E2;
          try lia; [| done].
        by replace (bc - used - n) with (bc - (used + n)) by lia. }
      split; [done |]. split; [done |]. by rewrite Ht'.
    + apply Forall_app. split; [done |]. by repeat constructor.
    + rewrite total_app. simpl. lia.
    + done.
  - apply (try_occupy_layout_none _Size _Alignment Hbc' T count p _ Hlay).
    apply Forall_app. split; [by apply occupied_do_not_fit |].
    destruct (used <? bc) eqn:E1; [| constructor].
    repeat constructor. unfold Layout.fits. simpl. fold n. lia.
Qed.

Lemma run_bump reqs : forall addr used p,
  Layout.bump_state _Size _Alignment addr used p ->
  Forall (fun r : Ty * Z =>
            alignof r.1 <= _Alignment /\
            1 <= Page.size_in_blocks _Alignment r.1 r.2) reqs ->
  exists q,
    run _Size _Alignment (map (fun r : Ty * Z => Occupy r.1 r.2) reqs) p
    = Ret (map Pointer
             (Layout.bump addr _Alignment bc used
                (map (fun r : Ty * Z =>
                        Page.size_in_blocks _Alignment r.1 r.2) reqs)),
           q) /\
    Layout.bump_state _Size _Alignment addr
      (Layout.bump_used bc used
         (map (fun r : Ty * Z =>
                 Page.size_in_blocks _Alignment r.1 r.2) reqs)) q.
Proof.
  induction reqs as [| [T count] reqs IH]; intros addr used p Hst Hreqs.
  - exists p. by split.
  - apply Forall_cons in Hreqs as [[Hal Hn] Hreqs]. simpl in Hal, Hn.
    pose proof (bump_state_step addr used p T count Hst Hal Hn) as Hstep.
    cbv zeta in Hstep.
    cbn [map run step Layout.bump Layout.bump_used fst snd].
    destruct (used + Page.size_in_blocks _Alignment T count <=? bc).
    + destruct Hstep as (q1 & Hocc & Hst1).
      destruct (IH addr _ q1 Hst1 Hreqs) as (q & Hrun & Hq).
      exists q. rewrite Hocc. simpl bind. cbn [fst snd].
      rewrite Hrun. simpl bind. by split.
    + destruct (IH addr used p Hst Hreqs) as (q & Hrun & Hq).
      exists q. rewrite Hstep. simpl bind. cbn [fst snd].
      rewrite Hrun. simpl bind. by split.
Qed.

End LayoutFresh.

Lemma bump_used_bounds bc ns : forall used,
  0 <= used <= bc ->
  Forall (fun n => 1 <= n) ns ->
  used <= Layout.bump_used bc used ns <= bc.
Proof.
  induction ns as [| n ns IH]; intros used Hu Hns; simpl; [lia |].
  apply Forall_cons in Hns as [Hn Hns].
  destruct (used + n <=? bc) eqn:E.
  - specialize (IH (used + n) ltac:(lia) Hns). lia.
  - apply IH; done.
Qed.

(** X7.  On a directory laid out as runs that fill the page, [fit] returns,
    and it is first fit: either no run is free with at least the blocks
    [size_in_blocks] asks for, and the hint is [Hint(end)]; or the hint
    designates the head of the first such run. *)
Theorem fit_is_first_fit (_Size _Alignment : Z) (T : Ty) (count : Z)
    (p : Page.t) (runs : list Layout.run) :
  Page.blocks_count _Size _Alignment < 2 ^ 63 ->
  alignof T <= _Alignment ->
  Layout.lays_out _Size _Alignment p runs ->
  (Forall (fun b =>
             Layout.fits (Page.size_in_blocks _Alignment T count) b = false)
     runs /\
   Page.fit _Size _Alignment T count p
   = Ret (Page.Hint.make_end (Page.cend _Size _Alignment p)))
  \/
  (exists before r after,
     runs = before ++ r :: after /\
     Forall (fun b =>
               Layout.fits (Page.size_in_blocks _Alignment T count) b
               = false) before /\
     Layout.fits (Page.size_in_blocks _Alignment T count) r = true /\
     Page.fit _Size _Alignment T count p
     = Ret (Page.Hint.make
              {| Page.it_array := Page.myData p;
                 Page.it_pos := Layout.total before |}
              (Page.cend _Size _Alignment p))).
Proof.
  intros Hbc Hal Hlay.
  destruct (first_fit_split (Page.size_in_blocks _Alignment T count) runs)
    as [Hnone | (before & r & after & -> & Hnf & Hr)].
  - left. split; [done |]. by apply (fit_layout_none _ _ Hbc _ _ _ runs).
  - right. exists before, r, after. repeat (split; [done |]).
    by apply (fit_layout_found _ _ Hbc _ _ _ before r after).
Qed.

Lemma fit_is_first_fit_witness :
  Layout.lays_out 4 1 Sample.first_half
    [ {| Layout.free := false; Layout.blocks := 2; Layout.link := None |};
      {| Layout.free := true; Layout.blocks := 2;
         Layout.link := Some 0 |} ] /\
  ((Forall (fun b =>
              Layout.fits (Page.size_in_blocks 1 char 1) b = false)
      [ {| Layout.free := false; Layout.blocks := 2; Layout.link := None |};
        {| Layout.free := true; Layout.blocks := 2;
           Layout.link := Some 0 |} ] /\
    Page.fit 4 1 char 1 Sample.first_half
    = Ret (Page.Hint.make_end (Page.cend 4 1 Sample.first_half)))
   \/
   (exists before r after,
      [ {| Layout.free := false; Layout.blocks := 2; Layout.link := None |};
        {| Layout.free := true; Layout.blocks := 2;
           Layout.link := Some 0 |} ] = before ++ r :: after /\
      Forall (fun b =>
                Layout.fits (Page.size_in_blocks 1 char 1) b = false)
        before /\
      Layout.fits (Page.size_in_blocks 1 char 1) r = true /\
      Page.fit 4 1 char 1 Sample.first_half
      = Ret (Page.Hint.make
               {| Page.it_array := Page.myData Sample.first_half;
                  Page.it_pos := Layout.total before |}
               (Page.cend 4 1 Sample.first_half)))).
Proof.
  assert (Layout.lays_out 4 1 Sample.first_half
            [ {| Layout.free := false; Layout.blocks := 2;
                 Layout.link := None |};
              {| Layout.free := true; Layout.blocks := 2;
                 Layout.link := Some 0 |} ]) as Hlay.
  { split; [reflexivity | split; reflexivity]. }
  split; [exact Hlay |].
  apply (fit_is_first_fit 4 1 char 1 Sample.first_half _);
    [reflexivity | vm_compute; discriminate | exact Hlay].
Defined.



(** X9.  A fresh page serves requests one behind the other.  For any
    requests of types the page can align, each of at least one block, the
    calls of [try_occupy] on [Page()] all return; a request is refused
    exactly when the blocks taken so far and its own exceed
    [blocks_count], and otherwise gets the address right behind the
    storage handed out before it, so no two results overlap.  At the end
    the blocks taken are at most [blocks_count]: they are the occupied
    runs of the directory, one per request served, and what is left of the
    page is one free run behind them. *)
Theorem fresh_page_serves_in_sequence (_Size _Alignment addr : Z)
    (reqs : list (Ty * Z)) :
  1 <= Page.blocks_count _Size _Alignment < 2 ^ 63 ->
  Forall (fun r : Ty * Z =>
            alignof r.1 <= _Alignment /\
            1 <= Page.size_in_blocks _Alignment r.1 r.2) reqs ->
  let ns := map (fun r : Ty * Z => Page.size_in_blocks _Alignment r.1 r.2)
              reqs in
  let used := Layout.bump_used (Page.blocks_count _Size _Alignment) 0 ns in
  exists q,
    run _Size _Alignment (map (fun r : Ty * Z => Occupy r.1 r.2) reqs)
      (Page.Page _Size _Alignment addr)
    = Ret (map Pointer
             (Layout.bump addr _Alignment
                (Page.blocks_count _Size _Alignment) 0 ns), q) /\
    Page.myData q = addr /\
    0 <= used <= Page.blocks_count _Size _Alignment /\
    Layout.bump_state _Size _Alignment addr used q.
Proof.
  intros Hbc Hreqs ns used.
  destruct (run_bump _Size _Alignment Hbc reqs addr 0
              (Page.Page _Size _Alignment addr)
              (bump_state_fresh _Size _Alignment Hbc addr) Hreqs)
    as (q & Hrun & Hst).
  exists q. split; [exact Hrun |].
  split; [by destruct Hst as (occs & l & _ & _ & _ & Hdata) |].
  split; [| exact Hst].
  apply bump_used_bounds; [lia |].
  unfold ns. apply Forall_map.
  eapply Forall_impl; [exact Hreqs |]. by intros r [_ ?].
Qed.

Lemma fresh_page_serves_in_sequence_witness :
  exists q,
    run 4 1 [Occupy char 2; Occupy char 3; Occupy char 2]
      (Page.Page 4 1 4096)
    = Ret ([Pointer (Some 4096); Pointer None; Pointer (Some 4098)], q) /\
    Page.myData q = 4096 /\
    0 <= 4 <= Page.blocks_count 4 1 /\
    Layout.bump_state 4 1 4096 4 q.
Proof.
  apply (fresh_page_serves_in_sequence 4 1 4096
           [(char, 2); (char, 3); (char, 2)]).
  - vm_compute. split; [discriminate | reflexivity].
  - repeat constructor; vm_compute; discriminate.
Defined.

(** ** Release on a directory laid out as runs *)

Lemma raw_lookup_head X (h : PageBlockInfo.t) W R :
  Layout.sized X = true ->
  (Layout.render X ++ (h :: W) ++ R) !! Z.to_nat (Layout.total X) = Some h.
Proof.
  intros H. rewrite <- (length_render X H), Nat2Z.id.
  apply lookup_at_length.
Qed.

Lemma raw_insert_head X (h y : PageBlockInfo.t) W R :
  Layout.sized X = true ->
  <[Z.to_nat (Layout.total X) := y]> (Layout.render X ++ (h :: W) ++ R)
  = Layout.render X ++ (y :: W) ++ R.
Proof.
  intros H. rewrite <- (length_render X H), Nat2Z.id.
  apply insert_at_length.
Qed.

Lemma raw_lookup_second X (h1 h2 : PageBlockInfo.t) b1 W R :
  Layout.sized X = true -> 1 <= b1 ->
  (Layout.render X
   ++ (h1 :: replicate (Z.to_nat (b1 - 1)) PageBlockInfo.default)
   ++ (h2 :: W) ++ R) !! Z.to_nat (Layout.total X + b1) = Some h2.
Proof.
  intros H Hb. pose proof (length_render X H) as Hlen.
  rewrite app_assoc.
  replace (Z.to_nat (Layout.total X + b1))
    with (length (Layout.render X
                  ++ h1 :: replicate (Z.to_nat (b1 - 1))
                             PageBlockInfo.default)).
  - apply lookup_at_length.
  - rewrite length_app. simpl. rewrite length_replicate. lia.
Qed.

Lemma raw_insert_second X (h1 h2 y : PageBlockInfo.t) b1 W R :
  Layout.sized X = true -> 1 <= b1 ->
  <[Z.to_nat (Layout.total X + b1) := y]>
    (Layout.render X
     ++ (h1 :: replicate (Z.to_nat (b1 - 1)) PageBlockInfo.default)
     ++ (h2 :: W) ++ R)
  = Layout.render X
    ++ (h1 :: replicate (Z.to_nat (b1 - 1)) PageBlockInfo.default)
    ++ (y :: W) ++ R.
Proof.
  intros H Hb. pose proof (length_render X H) as Hlen.
  rewrite !(app_assoc (Layout.render X)).
  replace (Z.to_nat (Layout.total X + b1))
    with (length (Layout.render X
                  ++ h1 :: replicate (Z.to_nat (b1 - 1))
                             PageBlockInfo.default)).
  - apply insert_at_length.
  - rewrite length_app. simpl. rewrite length_replicate. lia.
Qed.

Lemma raw_join (h1 : PageBlockInfo.t) b1 b2 R :
  1 <= b1 -> 1 <= b2 ->
  h1 :: replicate (Z.to_nat (b1 - 1)) PageBlockInfo.default
        ++ PageBlockInfo.default
           :: replicate (Z.to_nat (b2 - 1)) PageBlockInfo.default ++ R
  = h1 :: replicate (Z.to_nat (b1 + b2 - 1)) PageBlockInfo.default ++ R.
Proof.
  intros H1 H2. f_equal.
  replace (Z.to_nat (b1 + b2 - 1))
    with (Z.to_nat (b1 - 1) + S (Z.to_nat (b2 - 1)))%nat by lia.
  rewrite replicate_add. simpl. by rewrite <- app_assoc.
Qed.

Lemma relink_relink l1 l2 runs :
  Layout.relink l2 (Layout.relink l1 runs) = Layout.relink l2 runs.
Proof. by destruct runs. Qed.

Lemma render_relink l r rest :
  Layout.render (Layout.relink l (r :: rest))
  = (PageBlockInfo.set_prev l (Layout.head r)
     :: replicate (Z.to_nat (Layout.blocks r - 1)) PageBlockInfo.default)
    ++ Layout.render rest.
Proof. reflexivity. Qed.

Lemma sized_relink l runs :
  Layout.sized (Layout.relink l runs) = Layout.sized runs.
Proof. by destruct runs. Qed.

Lemma total_relink l runs :
  Layout.total (Layout.relink l runs) = Layout.total runs.
Proof. by destruct runs. Qed.

Ltac flatten_app :=
  repeat (progress (simpl; rewrite <- ?app_assoc, ?app_nil_r)).

Section LayoutRelease.

Variables _Size _Alignment : Z.

Local Abbreviation bc := (Page.blocks_count _Size _Alignment).

Hypothesis Hbc : bc < 2 ^ 63.

Lemma deref_raw_head info X h W R :
  info = Layout.render X ++ (h :: W) ++ R ->
  Layout.sized X = true ->
  Layout.total X < bc ->
  Page.deref _Size _Alignment info (Layout.total X) = Ret h.
Proof.
  intros -> Hs Ht. pose proof (total_nonneg X Hs).
  apply deref_Ret. split; [lia |]. by apply raw_lookup_head.
Qed.

Lemma update_raw_head info X h W R f :
  info = Layout.render X ++ (h :: W) ++ R ->
  Layout.sized X = true ->
  Layout.total X < bc ->
  Page.update _Size _Alignment info (Layout.total X) f
  = Ret (Layout.render X ++ (f h :: W) ++ R).
Proof.
  intros -> Hs Ht. pose proof (total_nonneg X Hs).
  apply update_Ret. exists h. split; [lia |].
  split; [by apply raw_lookup_head | by rewrite raw_insert_head].
Qed.

Lemma deref_raw_second info X h1 b1 h2 W R :
  info = Layout.render X
         ++ (h1 :: replicate (Z.to_nat (b1 - 1)) PageBlockInfo.default)
         ++ (h2 :: W) ++ R ->
  Layout.sized X = true -> 1 <= b1 ->
  Layout.total X + b1 < bc ->
  Page.deref _Size _Alignment info (Layout.total X + b1) = Ret h2.
Proof.
  intros -> Hs Hb Ht. pose proof (total_nonneg X Hs).
  apply deref_Ret. split; [lia |]. by apply raw_lookup_second.
Qed.

Lemma update_raw_second info X h1 b1 h2 W R f :
  info = Layout.render X
         ++ (h1 :: replicate (Z.to_nat (b1 - 1)) PageBlockInfo.default)
         ++ (h2 :: W) ++ R ->
  Layout.sized X = true -> 1 <= b1 ->
  Layout.total X + b1 < bc ->
  Page.update _Size _Alignment info (Layout.total X + b1) f
  = Ret (Layout.render X
         ++ (h1 :: replicate (Z.to_nat (b1 - 1)) PageBlockInfo.default)
         ++ (f h2 :: W) ++ R).
Proof.
  intros -> Hs Hb Ht. pose proof (total_nonneg X Hs).
  apply update_Ret. exists h2. split; [lia |].
  split; [by apply raw_lookup_second | by rewrite raw_insert_second].
Qed.

(** The part of [release] that joins the run behind the released one. *)
Lemma release_joins_next before r after :
  Layout.sized (before ++ r :: after) = true ->
  Layout.total (before ++ r :: after) = bc ->
  let iter := Layout.total before in
  let size := Layout.blocks r in
  let next := iter + size in
  let info1 :=
    Layout.render
      (before ++ {| Layout.free := true; Layout.blocks := size;
                    Layout.link := Layout.link r |} :: after) in
  (if negb (next =? bc) then
     n <- Page.deref _Size _Alignment info1 next ;;
     if PageBlockInfo.is_free n then
       let nextSize := PageBlockInfo.size n in
       farNext <- Page.advance _Size _Alignment next nextSize ;;
       info' <-
         (if negb (farNext =? bc)
          then Page.update _Size _Alignment info1 farNext
                 (PageBlockInfo.set_prev (Some iter))
          else Ret info1) ;;
       let size := to_size_t (size + nextSize) in
       info'' <- Page.update _Size _Alignment info' iter
                   (PageBlockInfo.make_head true size) ;;
       info''' <- Page.update _Size _Alignment info'' next
                    PageBlockInfo.remove_head ;;
       Ret (info''', size, farNext)
     else Ret (info1, size, bc)
   else Ret (info1, size, bc))
  = Ret (Layout.render
           (before
            ++ {| Layout.free := true;
                  Layout.blocks := Layout.merged_size r after;
                  Layout.link := Layout.link r |}
            :: Layout.merged_rest (Some iter) after),
         Layout.merged_size r after,
         if Layout.right_free after
         then iter + Layout.merged_size r after else bc).
Proof.
  intros Hs Ht iter size next info1.
  destruct (total_middle _ _ _ Hs) as (Ha & Hb & Hr & Hta & Htb & Hsum).
  destruct after as [| r2 after'].
  - simpl in Hsum. replace (next =? bc) with true by (unfold next, iter, size; lia).
    reflexivity.
  - simpl in Hb. apply andb_true_iff in Hb as [Hr2 Hb'].
    pose proof (total_nonneg _ Hb') as Htb'.
    simpl in Hsum, Htb.
    replace (next =? bc) with false by (unfold next, iter, size; lia).
    cbn [negb].
    assert (Page.deref _Size _Alignment info1 next = Ret (Layout.head r2))
      as ->.
    { eapply (deref_raw_second info1 before _ size);
        [unfold info1; rewrite render_middle; reflexivity
        | done | unfold size; lia | unfold size; lia]. }
    simpl bind. rewrite head_is_free by lia.
    unfold Layout.merged_size, Layout.merged_rest, Layout.right_free.
    destruct (Layout.free r2) eqn:F2; [| reflexivity].
    rewrite head_size by lia.
    assert (Page.advance _Size _Alignment next (Layout.blocks r2)
            = Ret (next + Layout.blocks r2)) as ->.
    { apply advance_Ret. rewrite to_ptrdiff_t_id by lia.
      unfold next, iter, size. lia. }
    simpl bind.
    assert ((if negb (next + Layout.blocks r2 =? bc)
             then Page.update _Size _Alignment info1
                    (next + Layout.blocks r2)
                    (PageBlockInfo.set_prev (Some iter))
             else Ret info1)
            = Ret (Layout.render before
                   ++ (Layout.head {| Layout.free := true;
                                      Layout.blocks := size;
                                      Layout.link := Layout.link r |}
                       :: replicate (Z.to_nat (size - 1))
                            PageBlockInfo.default)
                   ++ (Layout.head r2
                       :: replicate (Z.to_nat (Layout.blocks r2 - 1))
                            PageBlockInfo.default)
                   ++ Layout.render (Layout.relink (Some iter) after')))
      as ->.
    { destruct after' as [| r3 after''].
      - simpl in Hsum.
        replace (next + Layout.blocks r2 =? bc) with true
          by (unfold next, iter, size; lia).
        cbn [negb]. unfold info1. rewrite render_middle. reflexivity.
      - simpl in Hb'. apply andb_true_iff in Hb' as [Hr3 Hb''].
        pose proof (total_nonneg _ Hb'') as Htb''.
        simpl in Hsum, Htb'.
        replace (next + Layout.blocks r2 =? bc) with false
          by (unfold next, iter, size; lia).
        cbn [negb].
        set (rf := {| Layout.free := true; Layout.blocks := size;
                      Layout.link := Layout.link r |}).
        assert (Layout.sized (before ++ [rf; r2]) = true) as HsX.
        { rewrite sized_app, Ha. simpl.
          replace (1 <=? size) with true by (unfold size; lia).
          by rewrite Hr2. }
        assert (Layout.total (before ++ [rf; r2])
                = next + Layout.blocks r2) as HtX.
        { rewrite total_app. simpl. unfold next, iter, size. lia. }
        rewrite <- HtX.
        rewrite (update_raw_head info1 (before ++ [rf; r2])
                   (Layout.head r3)
                   (replicate (Z.to_nat (Layout.blocks r3 - 1))
                      PageBlockInfo.default)
                   (Layout.render after'')).
        + rewrite render_app. flatten_app. reflexivity.
        + unfold info1. rewrite !render_app. flatten_app. reflexivity.
        + done.
        + rewrite HtX. unfold next, iter, size. lia. }
    simpl bind.
    unfold iter at 1.
    erewrite (update_raw_head _ before);
      [| reflexivity | done | unfold size in *; lia].
    simpl bind. unfold next at 1. unfold iter at 1.
    erewrite (update_raw_second _ before _ size);
      [| reflexivity | done | unfold size; lia | unfold size in *; lia].
    simpl bind.
    rewrite to_size_t_id by (unfold size; lia).
    replace (next + Layout.blocks r2)
      with (iter + (size + Layout.blocks r2)) by (unfold next; lia).
    do 3 f_equal.
    change (PageBlockInfo.remove_head (Layout.head r2))
      with PageBlockInfo.default.
    rewrite raw_join by (unfold size; lia).
    rewrite render_middle. cbn [Layout.blocks].
    unfold Layout.head, PageBlockInfo.make_head. simpl.
    rewrite to_ptrdiff_t_id by (unfold size; lia). reflexivity.
Qed.

Lemma merged_sized l r after :
  Layout.sized (r :: after) = true ->
  1 <= Layout.merged_size r after /\
  Layout.sized (Layout.merged_rest l after) = true /\
  0 <= Layout.total (Layout.merged_rest l after) /\
  Layout.merged_size r after + Layout.total (Layout.merged_rest l after)
  = Layout.total (r :: after).
Proof.
  intros Hs.
  assert (Layout.sized (Layout.merged_rest l after) = true ->
          0 <= Layout.total (Layout.merged_rest l after)) as Hnn
    by apply total_nonneg.
  revert Hnn. simpl in Hs. apply andb_true_iff in Hs as [Hr Hs].
  destruct after as [| r2 after']; simpl in *; [lia |].
  apply andb_true_iff in Hs as [Hr2 Hs].
  destruct (Layout.free r2); simpl.
  - rewrite sized_relink, total_relink. intros Hnn. specialize (Hnn Hs).
    split; [lia |]. split; [done |]. split; lia.
  - rewrite Hr2, Hs. intros Hnn. specialize (Hnn eq_refl).
    split; [lia |]. split; [done |]. split; lia.
Qed.

(** The part of [release] that joins the run before the released one. *)
Lemma release_joins_prev before r after :
  Layout.sized (before ++ r :: after) = true ->
  Layout.total (before ++ r :: after) = bc ->
  Layout.link r = Layout.back_link before ->
  let iter := Layout.total before in
  let size := Layout.merged_size r after in
  let farNext := if Layout.right_free after then iter + size else bc in
  let info2 :=
    Layout.render
      (before
       ++ {| Layout.free := true; Layout.blocks := size;
             Layout.link := Layout.link r |}
       :: Layout.merged_rest (Some iter) after) in
  match Layout.link r with
  | Some pr =>
      pc <- Page.deref _Size _Alignment info2 pr ;;
      if PageBlockInfo.is_free pc then
        info' <- Page.update _Size _Alignment info2 pr
                   (PageBlockInfo.make_head true
                      (to_size_t (size + PageBlockInfo.size pc))) ;;
        info'' <- Page.update _Size _Alignment info' iter
                    PageBlockInfo.remove_head ;;
        if negb (farNext =? bc)
        then Page.update _Size _Alignment info'' farNext
               (PageBlockInfo.set_prev (Some pr))
        else Ret info''
      else Ret info2
  | None => Ret info2
  end
  = Ret (Layout.render (Layout.release_run before r after)).
Proof.
  intros Hs Ht Hlink iter size farNext info2.
  destruct (total_middle _ _ _ Hs) as (Ha & Hb & Hr & Hta & Htb & Hsum).
  unfold Layout.back_link in Hlink. unfold Layout.release_run.
  destruct (last before) as [r0 |] eqn:L.
  - apply last_Some in L as [before' ->].
    rewrite removelast_last in *. rewrite Hlink.
    rewrite sized_app in Ha. apply andb_true_iff in Ha as [Ha' Hr0].
    simpl in Hr0. rewrite andb_true_r in Hr0.
    rewrite (total_app before' [r0]) in Hsum, Hta.
    cbn [Layout.total] in Hsum, Hta.
    pose proof (total_nonneg _ Ha') as Hta'.
    assert (iter = Layout.total before' + Layout.blocks r0) as Hiter.
    { unfold iter. rewrite total_app. simpl. lia. }
    destruct (merged_sized (Some iter) r after)
      as (Hsz & Hsrest & Hnnrest & Htrest).
    { rewrite sized_app in Hs. by apply andb_true_iff in Hs as [_ Hs]. }
    fold size in Hsz, Htrest. cbn [Layout.total] in Htrest.
    assert (info2
            = Layout.render before'
              ++ (Layout.head r0
                  :: replicate (Z.to_nat (Layout.blocks r0 - 1))
                       PageBlockInfo.default)
              ++ (Layout.head {| Layout.free := true; Layout.blocks := size;
                                 Layout.link := Layout.link r |}
                  :: replicate (Z.to_nat (size - 1)) PageBlockInfo.default)
              ++ Layout.render (Layout.merged_rest (Some iter) after))
      as Hinfo2.
    { unfold info2. rewrite !render_app. flatten_app. reflexivity. }
    rewrite (deref_raw_head info2 before' _ _ _ Hinfo2 Ha') by lia.
    simpl bind. rewrite head_is_free by lia.
    destruct (Layout.free r0) eqn:F0;
      [| unfold info2; rewrite Hlink; reflexivity].
    rewrite head_size by lia.
    rewrite (to_size_t_id (size + Layout.blocks r0)) by lia.
    rewrite (update_raw_head info2 before' _ _ _ _ Hinfo2 Ha') by lia.
    simpl bind. rewrite Hiter.
    erewrite (update_raw_second _ before' _ (Layout.blocks r0));
      [| reflexivity | done | lia | lia].
    simpl bind.
    change (PageBlockInfo.remove_head
              (Layout.head {| Layout.free := true; Layout.blocks := size;
                              Layout.link := Layout.link r |}))
      with PageBlockInfo.default.
    flatten_app. rewrite raw_join by lia.
    set (r0m := {| Layout.free := true;
                   Layout.blocks := size + Layout.blocks r0;
                   Layout.link := Layout.link r0 |}).
    assert (PageBlockInfo.make_head true (size + Layout.blocks r0)
              (Layout.head r0) = Layout.head r0m) as ->.
    { unfold Layout.head, PageBlockInfo.make_head, r0m. simpl.
      by rewrite to_ptrdiff_t_id by lia. }
    replace (Layout.blocks r0 + size - 1)
      with (Layout.blocks r0m - 1) by (unfold r0m; simpl; lia).
    rewrite <- Hiter.
    unfold farNext, Layout.right_free.
    destruct after as [| r2 after'].
    + rewrite Z.eqb_refl. cbn [negb Layout.merged_rest].
      rewrite render_middle. unfold r0m, size.
      cbn [Layout.merged_size Layout.blocks].
      reflexivity.
    + cbn [Layout.merged_rest Layout.merged_size].
      cbn [Layout.merged_size] in size.
      cbn [Layout.merged_rest Layout.total] in Htrest, Hsrest, Hsum.
      destruct (Layout.free r2) eqn:F2.
      * destruct after' as [| r3 after''].
        -- cbn [Layout.relink Layout.total] in Htrest, Hsum.
           replace (iter + size =? bc) with true by lia.
           cbn [negb Layout.relink]. rewrite render_middle.
           unfold r0m, size. cbn [Layout.blocks]. reflexivity.
        -- cbn [Layout.relink Layout.total Layout.blocks] in Htrest, Hsum.
           simpl in Hsrest. apply andb_true_iff in Hsrest as [Hr3 Hsrest].
           pose proof (total_nonneg _ Hsrest).
           replace (iter + size =? bc) with false by lia.
           cbn [negb].
           replace (iter + size) with (Layout.total (before' ++ [r0m]))
             by (rewrite total_app; unfold r0m; simpl; lia).
           rewrite (update_raw_head _ (before' ++ [r0m])
                      (PageBlockInfo.set_prev (Some iter) (Layout.head r3))
                      (replicate (Z.to_nat (Layout.blocks r3 - 1))
                         PageBlockInfo.default)
                      (Layout.render after'')).
           ++ rewrite render_app, render_middle. unfold r0m, size.
              flatten_app. reflexivity.
           ++ rewrite render_app. flatten_app. reflexivity.
           ++ rewrite sized_app, Ha'. unfold r0m. simpl.
              replace (1 <=? size + Layout.blocks r0) with true by lia.
              done.
           ++ rewrite total_app. unfold r0m. simpl. lia.
      * rewrite Z.eqb_refl. cbn [negb].
        rewrite render_middle. unfold r0m, size. cbn [Layout.blocks].
        reflexivity.
  - apply last_None in L as ->. unfold info2. rewrite Hlink. reflexivity.
Qed.

(** [release(hint)] for a hint that designates the head of the run [r],
    whose backward link names the run before it. *)
Lemma release_layout hint p before r after :
  Layout.lays_out _Size _Alignment p (before ++ r :: after) ->
  Page.from_hint _Size _Alignment p hint = Layout.total before ->
  Layout.link r = Layout.back_link before ->
  Page.release _Size _Alignment hint p
  = Ret (true,
         {| Page.myData := Page.myData p;
            Page.myInfo := Layout.render (Layout.release_run before r after);
            Page.myLoad :=
              (Page.myLoad p
               - inject_Z (Layout.blocks r) / inject_Z bc)%Q |}).
Proof.
  intros (Hinfo & Hs & Ht) Hfrom Hlink.
  destruct (total_middle _ _ _ Hs) as (Ha & Hb & Hr & Hta & Htb & Hsum).
  unfold Page.release. rewrite Hfrom.
  replace (Layout.total before =? bc) with false by lia.
  cbn [negb].
  rewrite (deref_head _Size _Alignment _ before r after Hinfo Hs Ht).
  simpl bind. rewrite head_size by lia.
  assert (Page.advance _Size _Alignment (Layout.total before)
            (Layout.blocks r)
          = Ret (Layout.total before + Layout.blocks r)) as ->.
  { apply advance_Ret. rewrite to_ptrdiff_t_id by lia. lia. }
  simpl bind.
  assert (Page.update _Size _Alignment (Page.myInfo p)
            (Layout.total before)
            (PageBlockInfo.make_head true (Layout.blocks r))
          = Ret (Layout.render
                   (before
                    ++ {| Layout.free := true;
                          Layout.blocks := Layout.blocks r;
                          Layout.link := Layout.link r |} :: after))) as ->.
  { rewrite (update_raw_head (Page.myInfo p) before (Layout.head r)
               (replicate (Z.to_nat (Layout.blocks r - 1))
                  PageBlockInfo.default)
               (Layout.render after)).
    - rewrite render_middle. unfold Layout.head, PageBlockInfo.make_head.
      simpl. by rewrite to_ptrdiff_t_id by lia.
    - rewrite Hinfo. apply render_middle.
    - done.
    - lia. }
  simpl bind.
  pose proof (release_joins_next before r after Hs Ht) as Hnext.
  cbv zeta in Hnext. rewrite Hnext. clear Hnext.
  simpl bind.
  pose proof (release_joins_prev before r after Hs Ht Hlink) as Hprev.
  cbv zeta in Hprev. rewrite Hprev.
  reflexivity.
Qed.

Lemma release_run_sized before r after :
  Layout.sized (before ++ r :: after) = true ->
  Layout.sized (Layout.release_run before r after) = true /\
  Layout.total (Layout.release_run before r after)
  = Layout.total (before ++ r :: after).
Proof.
  intros Hs.
  destruct (total_middle _ _ _ Hs) as (Ha & Hb & Hr & Hta & Htb & Hsum).
  assert (forall l X,
            Layout.sized X = true ->
            Layout.sized
              (X ++ {| Layout.free := true;
                       Layout.blocks := Layout.merged_size r after;
                       Layout.link := Layout.link r |}
                 :: Layout.merged_rest l after) = true /\
            Layout.total
              (X ++ {| Layout.free := true;
                       Layout.blocks := Layout.merged_size r after;
                       Layout.link := Layout.link r |}
                 :: Layout.merged_rest l after)
            = Layout.total X + Layout.blocks r + Layout.total after)
    as Halone.
  { intros l X HX.
    destruct (merged_sized l r after) as (Hsz & Hsrest & Hnn & Htrest).
    { simpl. rewrite Hb. replace (1 <=? Layout.blocks r) with true by lia.
      done. }
    rewrite sized_app, total_app, HX. cbn [Layout.sized forallb Layout.blocks
      Layout.total andb].
    fold (Layout.sized (Layout.merged_rest l after)). rewrite Hsrest.
    cbn [Layout.total] in Htrest.
    split; [| lia].
    replace (1 <=? Layout.merged_size r after) with true by lia. done. }
  unfold Layout.release_run.
  destruct (last before) as [r0 |] eqn:L.
  - destruct (Layout.free r0) eqn:F0.
    + apply last_Some in L as [before' ->].
      rewrite removelast_last.
      rewrite sized_app in Ha. apply andb_true_iff in Ha as [Ha' Hr0].
      simpl in Hr0. rewrite andb_true_r in Hr0.
      destruct (merged_sized (Some (Layout.total before')) r after)
        as (Hsz & Hsrest & Hnn & Htrest).
      { simpl. rewrite Hb.
        replace (1 <=? Layout.blocks r) with true by lia. done. }
      rewrite sized_app, !total_app, Ha'.
      cbn [Layout.sized forallb Layout.blocks Layout.total andb].
      fold (Layout.sized
              (Layout.merged_rest (Some (Layout.total before')) after)).
      rewrite Hsrest. cbn [Layout.total] in Htrest.
      rewrite (total_app before' [r0]) in Hsum.
      cbn [Layout.total] in Hsum.
      split; [| lia].
      replace (1 <=? Layout.merged_size r after + Layout.blocks r0)
        with true by lia.
      done.
    + destruct (Halone (Some (Layout.total before)) before Ha) as [? ?].
      split; [done | lia].
  - destruct (Halone (Some (Layout.total before)) before Ha) as [? ?].
    split; [done | lia].
Qed.

End LayoutRelease.

(** ** Adjacent free runs *)

Lemma two_free_app X Y :
  Layout.two_free (X ++ Y)
  = Layout.two_free X
    || (match last X with Some r => Layout.free r | None => false end
        && Layout.right_free Y)
    || Layout.two_free Y.
Proof.
  induction X as [| a X IH]; [done |].
  destruct X as [| b X'].
  - destruct Y as [| y Y']; simpl; [by rewrite andb_false_r |].
    reflexivity.
  - change (Layout.two_free ((a :: b :: X') ++ Y))
      with ((Layout.free a && Layout.free b)
            || Layout.two_free ((b :: X') ++ Y)).
    rewrite IH.
    change (Layout.two_free (a :: b :: X'))
      with ((Layout.free a && Layout.free b) || Layout.two_free (b :: X')).
    change (last (a :: b :: X')) with (last (b :: X')).
    by rewrite !orb_assoc.
Qed.

Lemma two_free_cons a Y :
  Layout.two_free (a :: Y)
  = (Layout.free a && Layout.right_free Y) || Layout.two_free Y.
Proof. destruct Y; simpl; [by rewrite andb_false_r | done]. Qed.

Lemma occupied_cons a Y :
  Layout.occupied (a :: Y)
  = (if Layout.free a then 0 else Layout.blocks a) + Layout.occupied Y.
Proof. reflexivity. Qed.

Lemma two_free_relink l runs :
  Layout.two_free (Layout.relink l runs) = Layout.two_free runs.
Proof. destruct runs as [| a [| b rest]]; reflexivity. Qed.

Lemma right_free_relink l runs :
  Layout.right_free (Layout.relink l runs) = Layout.right_free runs.
Proof. by destruct runs. Qed.

Lemma occupied_app X Y :
  Layout.occupied (X ++ Y) = Layout.occupied X + Layout.occupied Y.
Proof. induction X as [| a X IH]; simpl; lia. Qed.

Lemma occupied_relink l runs :
  Layout.occupied (Layout.relink l runs) = Layout.occupied runs.
Proof. by destruct runs. Qed.

(** What follows a released run once a free run behind it is joined: no
    free run comes first, and no two free runs are side by side. *)
Lemma merged_rest_no_free l after :
  Layout.two_free after = false ->
  Layout.right_free (Layout.merged_rest l after) = false /\
  Layout.two_free (Layout.merged_rest l after) = false /\
  Layout.occupied (Layout.merged_rest l after) = Layout.occupied after.
Proof.
  intros H. destruct after as [| r2 after']; [done |].
  unfold Layout.merged_rest.
  destruct (Layout.free r2) eqn:F2.
  - rewrite right_free_relink, two_free_relink, occupied_relink.
    rewrite two_free_cons, F2 in H. cbn [andb] in H.
    apply orb_false_iff in H as [H1 H2].
    rewrite occupied_cons, F2. split; [done |]. split; [done | lia].
  - split; [simpl; by rewrite F2 |]. split; [exact H | done].
Qed.

Lemma release_run_no_two_free before r after :
  Layout.free r = false ->
  Layout.two_free (before ++ r :: after) = false ->
  Layout.two_free (Layout.release_run before r after) = false /\
  Layout.occupied (Layout.release_run before r after)
  = Layout.occupied (before ++ r :: after) - Layout.blocks r.
Proof.
  intros Hr H. rewrite two_free_app in H.
  apply orb_false_iff in H as [H Hafter].
  apply orb_false_iff in H as [Hbefore _].
  rewrite two_free_cons, Hr in Hafter. cbn [andb orb] in Hafter.
  assert (forall l X,
            Layout.two_free X = false ->
            match last X with
            | Some r0 => Layout.free r0
            | None => false
            end = false ->
            Layout.two_free
              (X ++ {| Layout.free := true;
                       Layout.blocks := Layout.merged_size r after;
                       Layout.link := Layout.link r |}
                 :: Layout.merged_rest l after) = false /\
            Layout.occupied
              (X ++ {| Layout.free := true;
                       Layout.blocks := Layout.merged_size r after;
                       Layout.link := Layout.link r |}
                 :: Layout.merged_rest l after)
            = Layout.occupied X + Layout.occupied after) as Halone.
  { intros l X HX Hlast.
    destruct (merged_rest_no_free l after Hafter) as (Hf & Ht & Ho).
    rewrite two_free_app, occupied_app, two_free_cons, occupied_cons.
    rewrite HX, Hlast, Hf, Ht, Ho. cbn [Layout.free andb orb].
    split; [done | lia]. }
  rewrite occupied_app, occupied_cons, Hr.
  unfold Layout.release_run.
  destruct (last before) as [r0 |] eqn:L.
  - destruct (Layout.free r0) eqn:F0.
    + apply last_Some in L as [before' ->].
      rewrite removelast_last.
      rewrite two_free_app in Hbefore. cbn [Layout.right_free] in Hbefore.
      rewrite F0, andb_true_r in Hbefore.
      apply orb_false_iff in Hbefore as [Hbefore _].
      apply orb_false_iff in Hbefore as [Hb' Hlast'].
      destruct (merged_rest_no_free (Some (Layout.total before')) after
                  Hafter) as (Hf & Ht & Ho).
      rewrite two_free_app, !occupied_app, two_free_cons, !occupied_cons.
      rewrite Hb', Hlast', Hf, Ht, Ho, F0.
      cbn [Layout.free Layout.occupied andb orb].
      split; [done | lia].
    + destruct (Halone (Some (Layout.total before)) before Hbefore)
        as [? ?]; [by rewrite L |].
      split; [done | lia].
  - destruct (Halone (Some (Layout.total before)) before Hbefore)
      as [? ?]; [by rewrite L |].
    split; [done | lia].
Qed.



(** X11.  [release] leaves no free neighbours apart.  On a laid-out
    directory without two free runs side by side, the release of an
    occupied run whose backward link names the run before it returns true
    and leaves a laid-out directory that again has no two free runs side by
    side; the blocks held by occupied runs fall by the blocks of the
    released run. *)
Theorem release_keeps_free_runs_apart (_Size _Alignment : Z)
    (hint : Page.Hint.t) (p : Page.t) (before : list Layout.run)
    (r : Layout.run) (after : list Layout.run) :
  Page.blocks_count _Size _Alignment < 2 ^ 63 ->
  Layout.lays_out _Size _Alignment p (before ++ r :: after) ->
  Page.from_hint _Size _Alignment p hint = Layout.total before ->
  Layout.link r = Layout.back_link before ->
  Layout.free r = false ->
  Layout.two_free (before ++ r :: after) = false ->
  exists q runs,
    Page.release _Size _Alignment hint p = Ret (true, q) /\
    Layout.lays_out _Size _Alignment q runs /\
    Layout.two_free runs = false /\
    Layout.occupied runs
    = Layout.occupied (before ++ r :: after) - Layout.blocks r.
Proof.
  intros Hbc Hlay Hfrom Hlink Hr Htwo.
  eexists. exists (Layout.release_run before r after).
  split; [by apply release_layout |].
  destruct (release_run_no_two_free before r after Hr Htwo) as [H2 Ho].
  split; [| by split].
  destruct Hlay as (Hinfo & Hs & Ht).
  destruct (release_run_sized before r after Hs) as [Hs' Ht'].
  split; [reflexivity |]. split; [done |]. by rewrite Ht'.
Qed.

Lemma release_keeps_free_runs_apart_witness :
  exists q runs,
    Page.release 4 1
      (Page.Hint.make {| Page.it_array := 4096; Page.it_pos := 0 |}
         (Page.cend 4 1 Sample.first_half)) Sample.first_half
    = Ret (true, q) /\
    Layout.lays_out 4 1 q runs /\
    Layout.two_free runs = false /\
    Layout.occupied runs = 2 - 2.
Proof.
  apply (release_keeps_free_runs_apart 4 1
           (Page.Hint.make {| Page.it_array := 4096; Page.it_pos := 0 |}
              (Page.cend 4 1 Sample.first_half))
           Sample.first_half []
           {| Layout.free := false; Layout.blocks := 2;
              Layout.link := None |}
           [ {| Layout.free := true; Layout.blocks := 2;
                Layout.link := Some 0 |} ]).
  - reflexivity.
  - split; [reflexivity | split; reflexivity].
  - reflexivity.
  - reflexivity.
  - reflexivity.
  - reflexivity.
Defined.

(** ** Release through the pointer *)

Section LayoutPointer.

Variables _Size _Alignment : Z.

Local Abbreviation bc := (Page.blocks_count _Size _Alignment).

Hypothesis Hbc : bc < 2 ^ 63.
Hypothesis HA : 0 < _Alignment.

Lemma contains_layout T count p before r after ptr :
  Layout.lays_out _Size _Alignment p (before ++ r :: after) ->
  alignof T <= _Alignment ->
  Page.myData p mod _Alignment = 0 ->
  ptr = Page.myData p + Layout.total before * _Alignment ->
  to_size_t (ptr + sizeof T * count)
  <= to_size_t (Page.myData p + _Size) ->
  Layout.free r = false ->
  Layout.blocks r = Page.size_in_blocks _Alignment T count ->
  Page.contains _Size _Alignment T ptr count p
  = Ret (Page.Hint.make
           {| Page.it_array := Page.myData p;
              Page.it_pos := Layout.total before |}
           (Page.cend _Size _Alignment p)).
Proof.
  intros (Hinfo & Hs & Ht) Hal Hbase -> Hend Hfree Hsize.
  destruct (total_middle _ _ _ Hs) as (Ha & Hb & Hr & Hta & Htb & Hsum).
  apply (contains_accepts _Size _Alignment T count p (Layout.total before)
           (Layout.head r)); try done.
  - lia.
  - rewrite Hinfo. by apply lookup_render_head.
  - rewrite head_is_free by lia. done.
  - rewrite head_size by lia. done.
Qed.

Lemma release_ptr_layout T count p before r after ptr :
  Layout.lays_out _Size _Alignment p (before ++ r :: after) ->
  alignof T <= _Alignment ->
  Page.myData p mod _Alignment = 0 ->
  ptr = Page.myData p + Layout.total before * _Alignment ->
  to_size_t (ptr + sizeof T * count)
  <= to_size_t (Page.myData p + _Size) ->
  Layout.free r = false ->
  Layout.blocks r = Page.size_in_blocks _Alignment T count ->
  Layout.link r = Layout.back_link before ->
  Page.release_ptr _Size _Alignment T ptr count p
  = Ret (true,
         {| Page.myData := Page.myData p;
            Page.myInfo := Layout.render (Layout.release_run before r after);
            Page.myLoad :=
              (Page.myLoad p
               - inject_Z (Layout.blocks r) / inject_Z bc)%Q |}).
Proof.
  intros Hlay Hal Hbase Hptr Hend Hfree Hsize Hlink.
  unfold Page.release_ptr.
  rewrite (contains_layout T count p before r after ptr) by done.
  simpl bind.
  apply (release_layout _Size _Alignment Hbc _ p before r after Hlay);
    [| done].
  destruct Hlay as (Hinfo & Hs & Ht).
  destruct (total_middle _ _ _ Hs) as (Ha & Hb & Hr & Hta & Htb & Hsum).
  apply from_hint_make. lia.
Qed.

End LayoutPointer.

(** ** Two allocations and their release *)

Lemma run_app _Size _Alignment ops1 : forall ops2 p rs1 q1 rs2 q2,
  run _Size _Alignment ops1 p = Ret (rs1, q1) ->
  run _Size _Alignment ops2 q1 = Ret (rs2, q2) ->
  run _Size _Alignment (ops1 ++ ops2) p = Ret (rs1 ++ rs2, q2).
Proof.
  induction ops1 as [| o ops1 IH]; intros ops2 p rs1 q1 rs2 q2 H1 H2.
  - injection H1 as <- <-. exact H2.
  - cbn [run app] in *.
    apply bind_Ret in H1 as ([r q] & Hstep & H1).
    apply bind_Ret in H1 as ([rs q'] & Hrun & H1).
    injection H1 as <- <-. cbn [fst snd] in *.
    rewrite Hstep. simpl bind. cbn [fst snd].
    rewrite (IH ops2 q rs q' rs2 q2 Hrun H2). reflexivity.
Qed.

Section RoundTrip.

Variables (k _Size addr : Z) (T1 T2 : Ty) (c1 c2 n1 n2 : Z).

Local Abbreviation bc := (Page.blocks_count _Size (2 ^ k)).

Hypothesis Hk : 0 <= k < 64.
Hypothesis HSize : 0 < _Size < 2 ^ 63.
Hypothesis Hdiv : _Size mod 2 ^ k = 0.
Hypothesis Haddr : 0 <= addr.
Hypothesis Haligned : addr mod 2 ^ k = 0.
Hypothesis Hspace : addr + _Size < 2 ^ 64.
Hypothesis Hal1 : alignof T1 <= 2 ^ k.
Hypothesis Hal2 : alignof T2 <= 2 ^ k.
Hypothesis Hbytes1 : 0 <= sizeof T1 * c1.
Hypothesis Hbytes2 : 0 <= sizeof T2 * c2.
Hypothesis Hwrap1 : sizeof T1 * c1 + 2 ^ k - 1 < 2 ^ 64.
Hypothesis Hwrap2 : sizeof T2 * c2 + 2 ^ k - 1 < 2 ^ 64.
Hypothesis En1 : Page.size_in_blocks (2 ^ k) T1 c1 = n1.
Hypothesis En2 : Page.size_in_blocks (2 ^ k) T2 c2 = n2.
Hypothesis Hn1 : 1 <= n1.
Hypothesis Hn2 : 1 <= n2.
Hypothesis Hfit : n1 + n2 <= bc.

Lemma round_trip_geometry :
  0 < 2 ^ k /\ bc * 2 ^ k = _Size /\ bc < 2 ^ 63 /\
  sizeof T1 * c1 <= n1 /\ sizeof T2 * c2 <= n2.
Proof.
  assert (0 < 2 ^ k) as HA by (apply Z.pow_pos_nonneg; lia).
  assert (bc * 2 ^ k = _Size) as Hmul.
  { unfold Page.blocks_count.
    pose proof (Z.div_mod _Size (2 ^ k) ltac:(lia)). lia. }
  pose proof (size_in_blocks_ge_bytes k T1 c1 Hk Hbytes1 Hwrap1) as H1.
  pose proof (size_in_blocks_ge_bytes k T2 c2 Hk Hbytes2 Hwrap2) as H2.
  rewrite En1 in H1. rewrite En2 in H2.
  repeat split; try done. nia.
Qed.

(** The runs after the two requests. *)
Lemma round_trip_occupied :
  exists q tail,
    run _Size (2 ^ k) [Occupy T1 c1; Occupy T2 c2]
      (Page.Page _Size (2 ^ k) addr)
    = Ret ([Pointer (Some addr); Pointer (Some (addr + n1 * 2 ^ k))], q) /\
    Layout.lays_out _Size (2 ^ k) q
      ({| Layout.free := false; Layout.blocks := n1; Layout.link := None |}
       :: {| Layout.free := false; Layout.blocks := n2;
             Layout.link := Some 0 |}
       :: tail) /\
    (tail = [] \/
     exists t l, tail = [ {| Layout.free := true; Layout.blocks := t;
                             Layout.link := l |} ]) /\
    Page.myData q = addr.
Proof.
  destruct round_trip_geometry as (HA & Hmul & Hbc & Hge1 & Hge2).
  set (F := {| Layout.free := true; Layout.blocks := bc;
               Layout.link := None |}).
  pose proof (Page_layout _Size (2 ^ k) ltac:(lia) addr) as Hlay0.
  fold F in Hlay0.
  (* the first request *)
  pose proof (try_occupy_layout _Size (2 ^ k) Hbc T1 c1
                (Page.Page _Size (2 ^ k) addr) [] F []) as H1.
  rewrite En1 in H1.
  specialize (H1 Hlay0 Hal1 Hn1 (Forall_nil_2 _)).
  assert (Layout.fits n1 F = true) as Hfits1
    by (unfold Layout.fits, F; cbn [Layout.free Layout.blocks andb]; lia).
  specialize (H1 Hfits1).
  destruct (occupy_run_sized n1 [] F [] (proj1 (proj2 Hlay0)))
    as [Hs1 Ht1]; [unfold F; cbn [Layout.blocks]; lia |].
  assert (Layout.occupy_run n1 [] F []
          = [] ++ [ {| Layout.free := false; Layout.blocks := n1;
                       Layout.link := None |} ]
            ++ {| Layout.free := true; Layout.blocks := bc - n1;
                  Layout.link := Some 0 |} :: []) as Hrun1.
  { unfold Layout.occupy_run, F. cbn [Layout.blocks Layout.link Layout.total].
    replace (n1 <? bc) with true by lia. reflexivity. }
  rewrite Hrun1 in H1, Hs1, Ht1.
  cbn [Page.Page Page.myData Page.myLoad Layout.total] in H1.
  replace (addr + 0 * 2 ^ k) with addr in H1 by lia.
  match type of H1 with
  | _ = Ret (_, ?q) => set (q1 := q) in H1
  end.
  set (occ1 := {| Layout.free := false; Layout.blocks := n1;
                  Layout.link := None |}) in *.
  set (F1 := {| Layout.free := true; Layout.blocks := bc - n1;
                Layout.link := Some 0 |}) in *.
  assert (Layout.lays_out _Size (2 ^ k) q1 ([occ1] ++ F1 :: [])) as Hlay1.
  { split; [reflexivity |]. split; [exact Hs1 |].
    exact (eq_trans Ht1 (proj2 (proj2 Hlay0))). }
  (* the second request *)
  pose proof (try_occupy_layout _Size (2 ^ k) Hbc T2 c2 q1 [occ1] F1 [])
    as H2.
  rewrite En2 in H2.
  assert (Forall (fun b => Layout.fits n2 b = false) [occ1]) as Hnf
    by (by repeat constructor).
  assert (Layout.fits n2 F1 = true) as Hfits2
    by (unfold Layout.fits, F1; cbn [Layout.free Layout.blocks andb]; lia).
  specialize (H2 Hlay1 Hal2 Hn2 Hnf Hfits2).
  destruct (occupy_run_sized n2 [occ1] F1 [] (proj1 (proj2 Hlay1)))
    as [Hs2 Ht2]; [unfold F1; cbn [Layout.blocks]; lia |].
  set (tail := if n2 <? bc - n1
               then [ {| Layout.free := true;
                         Layout.blocks := bc - n1 - n2;
                         Layout.link := Some (n1 + 0) |} ]
               else []).
  assert (Layout.occupy_run n2 [occ1] F1 []
          = occ1 :: {| Layout.free := false; Layout.blocks := n2;
                       Layout.link := Some 0 |} :: tail) as Hrun2.
  { unfold Layout.occupy_run, F1, occ1, tail.
    cbn [Layout.blocks Layout.link Layout.total app].
    by rewrite app_nil_r. }
  rewrite Hrun2 in H2, Hs2, Ht2.
  match type of H2 with
  | _ = Ret (_, ?q) => set (q2 := q) in H2
  end.
  exists q2, tail.
  split.
  { cbn [run step]. rewrite H1. simpl bind. cbn [fst snd].
    rewrite H2. simpl bind. cbn [fst snd Page.myData Layout.total].
    by rewrite Z.add_0_r. }
  split.
  { split; [reflexivity |]. split; [exact Hs2 |].
    exact (eq_trans Ht2 (proj2 (proj2 Hlay1))). }
  split.
  { unfold tail. destruct (n2 <? bc - n1); [right; eauto | by left]. }
  reflexivity.
Qed.

(** The two releases, in either order, on the page the two requests
    leave. *)
Lemma round_trip_released (first : bool) q tail :
  Layout.lays_out _Size (2 ^ k) q
    ({| Layout.free := false; Layout.blocks := n1; Layout.link := None |}
     :: {| Layout.free := false; Layout.blocks := n2;
           Layout.link := Some 0 |}
     :: tail) ->
  (tail = [] \/
   exists t l, tail = [ {| Layout.free := true; Layout.blocks := t;
                           Layout.link := l |} ]) ->
  Page.myData q = addr ->
  exists q',
    run _Size (2 ^ k)
      (if first
       then [Release T1 addr c1; Release T2 (addr + n1 * 2 ^ k) c2]
       else [Release T2 (addr + n1 * 2 ^ k) c2; Release T1 addr c1]) q
    = Ret ([Released true; Released true], q') /\
    Page.myInfo q' = Page.myInfo (Page.Page _Size (2 ^ k) addr) /\
    Page.myData q' = addr.
Proof.
  intros Hlay Htail Hdata.
  destruct round_trip_geometry as (HA & Hmul & Hbc & Hge1 & Hge2).
  set (occ1 := {| Layout.free := false; Layout.blocks := n1;
                  Layout.link := None |}) in *.
  set (occ2 := {| Layout.free := false; Layout.blocks := n2;
                  Layout.link := Some 0 |}) in *.
  pose proof (proj1 (Page_layout _Size (2 ^ k) ltac:(lia) addr)) as Hfresh.
  pose proof (proj1 (proj2 Hlay)) as Hs.
  pose proof (proj2 (proj2 Hlay)) as Ht.
  assert (0 <= Layout.total tail /\
          n1 + n2 + Layout.total tail = bc) as [Htl Hsum].
  { cbn [Layout.total Layout.blocks occ1 occ2] in Ht.
    destruct Htail as [-> | (t & l & ->)].
    - cbn [Layout.total] in *. lia.
    - cbn [Layout.sized forallb Layout.blocks occ1 occ2] in Hs.
      cbn [Layout.total Layout.blocks] in *. lia. }
  assert (Page.myData q mod 2 ^ k = 0) as Hbase by (by rewrite Hdata).
  destruct first.
  - (* the first allocation is released first *)
    pose proof (release_ptr_layout _Size (2 ^ k) Hbc HA T1 c1 q []
                  occ1 (occ2 :: tail) addr Hlay Hal1 Hbase) as H3.
    assert (Layout.release_run [] occ1 (occ2 :: tail)
            = [ {| Layout.free := true; Layout.blocks := n1;
                   Layout.link := None |} ] ++ occ2 :: tail) as Hrun3
      by reflexivity.
    rewrite Hrun3 in H3.
    destruct (release_run_sized [] occ1 (occ2 :: tail) Hs) as [Hs3 Ht3].
    rewrite Hrun3 in Hs3, Ht3.
    match type of H3 with
    | _ -> _ -> _ -> _ -> _ -> _ = Ret (_, ?p) => set (q3 := p) in H3
    end.
    assert (Page.release_ptr _Size (2 ^ k) T1 addr c1 q = Ret (true, q3))
      as E3.
    { apply H3.
      - cbn [Layout.total]. lia.
      - rewrite Hdata, !to_size_t_id by nia. nia.
      - reflexivity.
      - by rewrite En1.
      - reflexivity. }
    clear H3.
    set (f1 := {| Layout.free := true; Layout.blocks := n1;
                  Layout.link := None |}) in *.
    assert (Layout.lays_out _Size (2 ^ k) q3 ([f1] ++ occ2 :: tail)) as Hlay3.
    { split; [reflexivity |]. split; [exact Hs3 |].
      exact (eq_trans Ht3 Ht). }
    pose proof (release_ptr_layout _Size (2 ^ k) Hbc HA T2 c2 q3 [f1]
                  occ2 tail (addr + n1 * 2 ^ k) Hlay3 Hal2 Hbase) as H4.
    match type of H4 with
    | _ -> _ -> _ -> _ -> _ -> _ = Ret (_, ?p) => set (q4 := p) in H4
    end.
    assert (Page.release_ptr _Size (2 ^ k) T2 (addr + n1 * 2 ^ k) c2 q3
            = Ret (true, q4)) as E4.
    { apply H4.
      - cbn [Layout.total Layout.blocks f1 Page.myData q3]. lia.
      - cbn [Page.myData q3]. rewrite Hdata, !to_size_t_id by nia. nia.
      - reflexivity.
      - by rewrite En2.
      - reflexivity. }
    clear H4.
    exists q4. split.
    { cbn [run step]. rewrite E3. simpl bind. cbn [fst snd].
      rewrite E4. reflexivity. }
    split.
    { rewrite Hfresh. cbn [Page.myInfo q4]. f_equal.
      destruct Htail as [-> | (t & l & ->)].
      - cbn [Layout.total] in Hsum.
        replace bc with (n2 + n1) by lia. reflexivity.
      - cbn [Layout.total Layout.blocks] in Hsum.
        replace bc with (n2 + t + n1) by lia. reflexivity. }
    exact Hdata.
  - (* the second allocation is released first *)
    pose proof (release_ptr_layout _Size (2 ^ k) Hbc HA T2 c2 q [occ1]
                  occ2 tail (addr + n1 * 2 ^ k) Hlay Hal2 Hbase) as H3.
    set (fm := {| Layout.free := true;
                  Layout.blocks := Layout.merged_size occ2 tail;
                  Layout.link := Some 0 |}).
    assert (Layout.release_run [occ1] occ2 tail = [] ++ occ1 :: [fm])
      as Hrun3.
    { destruct Htail as [-> | (t & l & ->)]; reflexivity. }
    rewrite Hrun3 in H3.
    destruct (release_run_sized [occ1] occ2 tail Hs) as [Hs3 Ht3].
    rewrite Hrun3 in Hs3, Ht3.
    match type of H3 with
    | _ -> _ -> _ -> _ -> _ -> _ = Ret (_, ?p) => set (q3 := p) in H3
    end.
    assert (Page.release_ptr _Size (2 ^ k) T2 (addr + n1 * 2 ^ k) c2 q
            = Ret (true, q3)) as E3.
    { apply H3.
      - cbn [Layout.total Layout.blocks occ1]. lia.
      - rewrite Hdata, !to_size_t_id by nia. nia.
      - reflexivity.
      - by rewrite En2.
      - reflexivity. }
    clear H3.
    assert (Layout.lays_out _Size (2 ^ k) q3 ([] ++ occ1 :: [fm])) as Hlay3.
    { split; [reflexivity |]. split; [exact Hs3 |].
      exact (eq_trans Ht3 Ht). }
    pose proof (release_ptr_layout _Size (2 ^ k) Hbc HA T1 c1 q3 []
                  occ1 [fm] addr Hlay3 Hal1 Hbase) as H4.
    match type of H4 with
    | _ -> _ -> _ -> _ -> _ -> _ = Ret (_, ?p) => set (q4 := p) in H4
    end.
    assert (Page.release_ptr _Size (2 ^ k) T1 addr c1 q3 = Ret (true, q4))
      as E4.
    { apply H4.
      - cbn [Layout.total Page.myData q3]. lia.
      - cbn [Page.myData q3]. rewrite Hdata, !to_size_t_id by nia. nia.
      - reflexivity.
      - by rewrite En1.
      - reflexivity. }
    clear H4.
    exists q4. split.
    { cbn [run step]. rewrite E3. simpl bind. cbn [fst snd].
      rewrite E4. reflexivity. }
    split.
    { rewrite Hfresh. cbn [Page.myInfo q4]. f_equal.
      destruct Htail as [-> | (t & l & ->)].
      - cbn [Layout.total] in Hsum.
        replace bc with (n1 + n2) by lia. reflexivity.
      - cbn [Layout.total Layout.blocks] in Hsum.
        replace bc with (n1 + (n2 + t)) by lia. reflexivity. }
    exact Hdata.
Qed.

End RoundTrip.

(** X12.  Two allocations on a fresh page and their release, in either
    order, give the page back as it was constructed.  For a page of the
    template's constraints (a power-of-two alignment that divides the
    size) at an aligned address, and two requests of at least one block
    each that fit together: the two calls of [try_occupy] return the start
    of the buffer and the address right behind the first run; the two
    calls of [release], with these pointers and counts, return true; and
    afterwards the directory is the one [Page()] writes, one free run that
    spans the page. *)
Theorem two_allocations_round_trip (k _Size addr : Z) (T1 T2 : Ty)
    (c1 c2 : Z) (first : bool) :
  0 <= k < 64 ->
  0 < _Size < 2 ^ 63 ->
  _Size mod 2 ^ k = 0 ->
  0 <= addr ->
  addr mod 2 ^ k = 0 ->
  addr + _Size < 2 ^ 64 ->
  alignof T1 <= 2 ^ k ->
  alignof T2 <= 2 ^ k ->
  0 <= sizeof T1 * c1 ->
  0 <= sizeof T2 * c2 ->
  sizeof T1 * c1 + 2 ^ k - 1 < 2 ^ 64 ->
  sizeof T2 * c2 + 2 ^ k - 1 < 2 ^ 64 ->
  1 <= Page.size_in_blocks (2 ^ k) T1 c1 ->
  1 <= Page.size_in_blocks (2 ^ k) T2 c2 ->
  Page.size_in_blocks (2 ^ k) T1 c1 + Page.size_in_blocks (2 ^ k) T2 c2
  <= Page.blocks_count _Size (2 ^ k) ->
  let ptr1 := addr in
  let ptr2 := addr + Page.size_in_blocks (2 ^ k) T1 c1 * 2 ^ k in
  exists q,
    run _Size (2 ^ k)
      ([Occupy T1 c1; Occupy T2 c2]
       ++ (if first
           then [Release T1 ptr1 c1; Release T2 ptr2 c2]
           else [Release T2 ptr2 c2; Release T1 ptr1 c1]))
      (Page.Page _Size (2 ^ k) addr)
    = Ret ([Pointer (Some ptr1); Pointer (Some ptr2);
            Released true; Released true], q) /\
    Page.myInfo q = Page.myInfo (Page.Page _Size (2 ^ k) addr) /\
    Page.myData q = addr.
Proof.
  intros Hk HSize Hdiv Haddr Haligned Hspace Hal1 Hal2 Hb1 Hb2 Hw1 Hw2
    Hn1 Hn2 Hfit ptr1 ptr2.
  edestruct (round_trip_occupied k _Size addr T1 T2 c1 c2
               (Page.size_in_blocks (2 ^ k) T1 c1)
               (Page.size_in_blocks (2 ^ k) T2 c2))
    as (q2 & tail & Hrun & Hlay & Htail & Hdata);
    try eassumption; try reflexivity.
  edestruct (round_trip_released k _Size addr T1 T2 c1 c2
               (Page.size_in_blocks (2 ^ k) T1 c1)
               (Page.size_in_blocks (2 ^ k) T2 c2)) with
    (first := first) (q := q2) (tail := tail)
    as (q4 & Hrun' & Hinfo & Hdata');
    try eassumption; try reflexivity.
  exists q4. split.
  - exact (run_app _ _ _ _ _ _ _ _ _ Hrun Hrun').
  - split; [exact Hinfo | exact Hdata'].
Qed.

Lemma two_allocations_round_trip_witness :
  exists q,
    run 4 (2 ^ 0)
      [Occupy char 1; Occupy char 2;
       Release char (4096 + 1 * 2 ^ 0) 2; Release char 4096 1]
      (Page.Page 4 (2 ^ 0) 4096)
    = Ret ([Pointer (Some 4096); Pointer (Some (4096 + 1 * 2 ^ 0));
            Released true; Released true], q) /\
    Page.myInfo q = Page.myInfo (Page.Page 4 (2 ^ 0) 4096) /\
    Page.myData q = 4096.
Proof.
  apply (two_allocations_round_trip 0 4 4096 char char 1 2 false);
    try (vm_compute; (reflexivity || discriminate)); lia.
Defined.

(** ** The backward link is trusted *)

(** The calls of [Sample.stale_ops] all succeed; the last pointer returned
    and not released is 4101, for 5 elements. *)
Lemma stale_is_reached :
  run 16 1 Sample.stale_ops (Page.Page 16 1 4096)
  = Ret ([ Pointer (Some 4096); Pointer (Some 4099); Pointer (Some 4106);
           Released true; Pointer (Some 4099); Pointer (Some 4101);
           Released true; Released true; Pointer (Some 4096) ],
         Sample.stale).
Proof. vm_compute. reflexivity. Qed.

(** X13.  [release] joins the released run to the head its backward link
    names without asking whether that head is the run right before it.
    For a valid hint to a head of at least one block that ends inside the
    directory, with no free run behind it, whose backward link names a
    cell [pr] other than itself that holds a free head: the call returns
    true, the cell of the released head is cleared, and the head at [pr]
    is free with the sum of the two sizes.  Nothing relates [pr] plus the
    size of its head to the released head: a link that a split or a join
    left behind makes the free run cover blocks that are occupied. *)
Theorem release_joins_the_linked_head (_Size _Alignment : Z)
    (hint : Page.Hint.t) (p : Page.t) (c pc : PageBlockInfo.t) (pr : Z) :
  let bc := Page.blocks_count _Size _Alignment in
  let iter := Page.from_hint _Size _Alignment p hint in
  bc < 2 ^ 63 ->
  Z.of_nat (length (Page.myInfo p)) = bc ->
  0 <= iter < bc ->
  Page.myInfo p !! Z.to_nat iter = Some c ->
  1 <= PageBlockInfo.size c ->
  iter + PageBlockInfo.size c <= bc ->
  (forall n,
     Page.myInfo p !! Z.to_nat (iter + PageBlockInfo.size c) = Some n ->
     PageBlockInfo.is_free n = false) ->
  PageBlockInfo.prev c = Some pr ->
  0 <= pr < bc ->
  pr <> iter ->
  Page.myInfo p !! Z.to_nat pr = Some pc ->
  PageBlockInfo.is_free pc = true ->
  PageBlockInfo.size c + PageBlockInfo.size pc < 2 ^ 63 ->
  exists q h,
    Page.release _Size _Alignment hint p = Ret (true, q) /\
    Page.myInfo q !! Z.to_nat pr = Some h /\
    PageBlockInfo.is_free h = true /\
    PageBlockInfo.size h = PageBlockInfo.size c + PageBlockInfo.size pc /\
    Page.myInfo q !! Z.to_nat iter = Some PageBlockInfo.default.
Proof.
  intros bc iter Hbc Hlen Hiter Hc Hsize Hend Hnext Hprev Hpr Hne Hpc Hfree
    Hsum.
  assert (0 <= PageBlockInfo.size pc) as Hsp.
  { unfold PageBlockInfo.size. apply to_size_t_nonneg. }
  pose proof (lookup_lt_Some _ _ _ Hc) as Hlt.
  pose proof (lookup_lt_Some _ _ _ Hpc) as Hltp.
  set (s := PageBlockInfo.size c) in *.
  set (info1 := <[Z.to_nat iter := PageBlockInfo.make_head true s c]>
                  (Page.myInfo p)).
  set (h := PageBlockInfo.make_head true
              (to_size_t (s + PageBlockInfo.size pc)) pc).
  set (info2 := <[Z.to_nat pr := h]> info1).
  exists {| Page.myData := Page.myData p;
            Page.myInfo := <[Z.to_nat iter := PageBlockInfo.default]> info2;
            Page.myLoad :=
              (Page.myLoad p - inject_Z s / inject_Z bc)%Q |}, h.
  split.
  - unfold Page.release. fold iter. fold bc.
    replace (iter =? bc) with false by lia. cbn [negb].
    assert (Page.deref _Size _Alignment (Page.myInfo p) iter = Ret c) as ->
      by (by apply deref_Ret).
    simpl bind. fold s.
    assert (Page.advance _Size _Alignment iter s = Ret (iter + s)) as ->.
    { apply advance_Ret. rewrite to_ptrdiff_t_id by lia. fold bc. lia. }
    simpl bind.
    assert (Page.update _Size _Alignment (Page.myInfo p) iter
              (PageBlockInfo.make_head true s) = Ret info1) as ->.
    { apply update_Ret. exists c. fold bc.
      split; [lia |]. split; [exact Hc | reflexivity]. }
    simpl bind.
    assert ((if negb (iter + s =? bc)
             then n <- Page.deref _Size _Alignment info1 (iter + s) ;;
                  if PageBlockInfo.is_free n
                  then
                    farNext <- Page.advance _Size _Alignment (iter + s)
                                 (PageBlockInfo.size n) ;;
                    info' <-
                      (if negb (farNext =? bc)
                       then Page.update _Size _Alignment info1 farNext
                              (PageBlockInfo.set_prev (Some iter))
                       else Ret info1) ;;
                    info'' <- Page.update _Size _Alignment info' iter
                                (PageBlockInfo.make_head true
                                   (to_size_t (s + PageBlockInfo.size n))) ;;
                    info''' <- Page.update _Size _Alignment info''
                                 (iter + s) PageBlockInfo.remove_head ;;
                    Ret (info''', to_size_t (s + PageBlockInfo.size n),
                         farNext)
                  else Ret (info1, s, bc)
             else Ret (info1, s, bc))
            = Ret (info1, s, bc)) as ->.
    { destruct (iter + s =? bc) eqn:E; [reflexivity |]. cbn [negb].
      destruct (lookup_lt_is_Some_2 (Page.myInfo p) (Z.to_nat (iter + s)))
        as [n Hn]; [lia |].
      assert (Page.deref _Size _Alignment info1 (iter + s) = Ret n) as ->.
      { apply deref_Ret. fold bc. split; [lia |].
        unfold info1. rewrite list_lookup_insert_ne by lia. exact Hn. }
      simpl bind. by rewrite (Hnext n Hn). }
    simpl bind. rewrite Hprev.
    assert (Page.deref _Size _Alignment info1 pr = Ret pc) as ->.
    { apply deref_Ret. fold bc. split; [lia |].
      unfold info1. rewrite list_lookup_insert_ne by lia. exact Hpc. }
    simpl bind. rewrite Hfree.
    assert (Page.update _Size _Alignment info1 pr
              (PageBlockInfo.make_head true
                 (to_size_t (s + PageBlockInfo.size pc))) = Ret info2) as ->.
    { apply update_Ret. exists pc. fold bc. split; [lia |]. split; [| done].
      unfold info1. rewrite list_lookup_insert_ne by lia. exact Hpc. }
    simpl bind.
    assert (Page.update _Size _Alignment info2 iter
              PageBlockInfo.remove_head
            = Ret (<[Z.to_nat iter := PageBlockInfo.default]> info2)) as ->.
    { apply update_Ret.
      exists (PageBlockInfo.make_head true s c). fold bc.
      split; [lia |]. split; [| done].
      unfold info2. rewrite list_lookup_insert_ne by lia.
      unfold info1. apply list_lookup_insert_eq. exact Hlt. }
    simpl bind. rewrite Z.eqb_refl. reflexivity.
  - cbn [Page.myInfo].
    split.
    { rewrite list_lookup_insert_ne by lia.
      unfold info2. apply list_lookup_insert_eq.
      unfold info1. rewrite length_insert. exact Hltp. }
    split.
    { unfold h. rewrite to_size_t_id by lia.
      rewrite is_free_make_head_true by lia. lia. }
    split.
    { unfold h. rewrite to_size_t_id by lia.
      apply size_make_head. lia. }
    apply list_lookup_insert_eq.
    unfold info2, info1. rewrite !length_insert. exact Hlt.
Qed.

Lemma release_joins_the_linked_head_witness :
  Page.myInfo Sample.stale !! 5%nat
  = Some {| PageBlockInfo.myPrev := Some 3; PageBlockInfo.mySize := -5 |} /\
  exists q h,
    Page.release 16 1
      (Page.Hint.make {| Page.it_array := 4096; Page.it_pos := 10 |}
         (Page.cend 16 1 Sample.stale)) Sample.stale
    = Ret (true, q) /\
    Page.myInfo q !! Z.to_nat 3 = Some h /\
    PageBlockInfo.is_free h = true /\
    PageBlockInfo.size h = 6 + 2 /\
    Page.myInfo q !! Z.to_nat 10 = Some PageBlockInfo.default.
Proof.
  split; [reflexivity |].
  apply (release_joins_the_linked_head 16 1
           (Page.Hint.make {| Page.it_array := 4096; Page.it_pos := 10 |}
              (Page.cend 16 1 Sample.stale))
           Sample.stale
           {| PageBlockInfo.myPrev := Some 3; PageBlockInfo.mySize := -6 |}
           {| PageBlockInfo.myPrev := Some 0; PageBlockInfo.mySize := 2 |}
           3).
  - reflexivity.
  - reflexivity.
  - vm_compute. split; [discriminate | reflexivity].
  - reflexivity.
  - vm_compute. discriminate.
  - vm_compute. discriminate.
  - intros n. vm_compute. discriminate.
  - reflexivity.
  - vm_compute. split; [discriminate | reflexivity].
  - vm_compute. discriminate.
  - reflexivity.
  - reflexivity.
  - reflexivity.
Defined.

(** On the page [Sample.stale], whose calls were all given what an earlier
    call returned: once the run at 4106 is released, a request for 8
    elements is served at 4099, over the 5 elements at 4101 that were never
    released. *)
Lemma stale_link_hands_out_occupied_blocks :
  exists q,
    run 16 1
      (Sample.stale_ops ++ [Release char 4106 6; Occupy char 8])
      (Page.Page 16 1 4096)
    = Ret ([ Pointer (Some 4096); Pointer (Some 4099); Pointer (Some 4106);
             Released true; Pointer (Some 4099); Pointer (Some 4101);
             Released true; Released true; Pointer (Some 4096);
             Released true; Pointer (Some 4099) ], q).
Proof. eexists. vm_compute. reflexivity. Qed.

(** ** The pool *)

Lemma try_occupy_myData _Size _Alignment T count p r q :
  Page.try_occupy _Size _Alignment T count p = Ret (r, q) ->
  Page.myData q = Page.myData p.
Proof.
  unfold Page.try_occupy. intros H.
  apply bind_Ret in H as (hint & _ & H).
  unfold Page.try_occupy_at in H.
  destruct (negb _) in H; [| by injection H as <- <-].
  apply bind_Ret in H as (c & _ & H).
  apply bind_Ret in H as (info1 & _ & H).
  apply bind_Ret in H as (info2 & _ & H).
  by injection H as <- <-.
Qed.

Lemma emplace_hint_Permutation hint key page pages :
  Permutation (Pool.emplace_hint hint key page pages) ((key, page) :: pages).
Proof.
  unfold Pool.emplace_hint.
  rewrite <- Permutation_middle. by rewrite take_drop.
Qed.

(** X15.  [occupy] neither adds, drops nor duplicates a page.  Whenever a
    call returns, served or not, the mapping holds the pages it held before
    the call: the addresses of the pages are the same, up to their order in
    the mapping.  This holds whatever [++hint] gives on [end()]. *)
Theorem occupy_keeps_the_pages (_Size _Alignment : Z)
    (past_end : outcome nat) (T : Ty) (count : Z)
    (pool : Pool.t) (r : option Z) (pool' : Pool.t) :
  Pool.occupy _Size _Alignment past_end T count pool = Ret (r, pool') ->
  Permutation
    (map (fun e : Q * Page.t => Page.myData e.2) (Pool.myPages pool'))
    (map (fun e : Q * Page.t => Page.myData e.2) (Pool.myPages pool)).
Proof.
  unfold Pool.occupy. intros H.
  apply bind_Ret in H as ([r' pages'] & H & Hret).
  injection Hret as <- <-. cbn [Pool.myPages snd].
  destruct (Pool.myPages pool) as [| e rest] eqn:Hpages.
  - by injection H as <- <-.
  - destruct (Pool.select (e :: rest) (Page.load_of _Size T count))
      as [iter |]; [| by injection H as <- <-].
    destruct ((e :: rest) !! iter) as [[key page] |] eqn:Hiter;
      [| discriminate].
    apply bind_Ret in H as ([ptr q] & Htry & H).
    apply bind_Ret in H as (hint & _ & H).
    injection H as <- <-. cbn [snd].
    rewrite emplace_hint_Permutation.
    rewrite (delete_Permutation (e :: rest) iter (key, page) Hiter) at 2.
    cbn [map snd]. by rewrite (try_occupy_myData _ _ _ _ _ _ _ Htry).
Qed.

Lemma occupy_keeps_the_pages_witness :
  exists pool',
    Pool.occupy 20 1 Undefined char 3 Sample.loads_1_4_8_10
    = Ret (Some (12288 + 16), pool') /\
    Permutation
      (map (fun e : Q * Page.t => Page.myData e.2) (Pool.myPages pool'))
      (map (fun e : Q * Page.t => Page.myData e.2)
         (Pool.myPages Sample.loads_1_4_8_10)).
Proof.
  eexists. split; [vm_compute; reflexivity |].
  apply (occupy_keeps_the_pages 20 1 Undefined char 3 Sample.loads_1_4_8_10
           (Some (12288 + 16))).
  vm_compute. reflexivity.
Defined.

(** ** The worker *)

Section WorkerFacts.

Variables _Size _Alignment : Z.

Lemma make_page_in_front addr pool :
  Pool.first_key_nonneg (Pool.myPages pool) = true ->
  Pool.make_pages _Size _Alignment [addr] pool
  = {| Pool.myPages :=
         (0%Q, Page.Page _Size _Alignment addr) :: Pool.myPages pool;
       Pool.myAverageLoadRequest := Pool.myAverageLoadRequest pool;
       Pool.myRequestsCount := Pool.myRequestsCount pool |}.
Proof.
  intros H. cbn [Pool.make_pages]. f_equal.
  unfold Pool.emplace_hint. cbn [Nat.min].
  destruct (Pool.myPages pool) as [| [k pg] rest]; [reflexivity |].
  cbn [Pool.first_key_nonneg] in H. cbn [Pool.lower_bound].
  unfold Pool.Qltb. cbn [Page.load Page.Page Page.myLoad].
  rewrite H. reflexivity.
Qed.

(** A round allocates when the first key and the average request reach
    [max_load] together; an empty mapping counts as a key of [max_load]. *)
Lemma round_allocates addr pool :
  Pool.first_key_nonneg (Pool.myPages pool) = true ->
  (1 <= Pool.myAverageLoadRequest pool)%Q ->
  Pool.pages_allocating_round _Size _Alignment addr pool
  = Pool.make_pages _Size _Alignment [addr] pool.
Proof.
  intros Hkey Havg. unfold Pool.pages_allocating_round, Page.max_load.
  assert (Qle_bool 1
            (match Pool.myPages pool with
             | [] => 1
             | (first, _) :: _ => first
             end + Pool.myAverageLoadRequest pool) = true) as ->;
    [| reflexivity].
  apply Qle_bool_iff.
  destruct (Pool.myPages pool) as [| [k pg] rest].
  - rewrite <- (Qplus_0_l 1) at 1. apply Qplus_le_compat; [done | exact Havg].
  - cbn [Pool.first_key_nonneg] in Hkey. apply Qle_bool_iff in Hkey.
    rewrite <- (Qplus_0_l 1) at 1. by apply Qplus_le_compat.
Qed.

Lemma round_idles addr pool k pg rest :
  Pool.myPages pool = (k, pg) :: rest ->
  (k + Pool.myAverageLoadRequest pool < 1)%Q ->
  Pool.pages_allocating_round _Size _Alignment addr pool = pool.
Proof.
  intros Hpages Hlt. unfold Pool.pages_allocating_round, Page.max_load.
  rewrite Hpages.
  destruct (Qle_bool 1 (k + Pool.myAverageLoadRequest pool)) eqn:E;
    [| reflexivity].
  apply Qle_bool_iff in E. by apply Qlt_not_le in Hlt.
Qed.

Lemma proc_idles fresh pool k pg rest :
  Pool.myPages pool = (k, pg) :: rest ->
  (k + Pool.myAverageLoadRequest pool < 1)%Q ->
  Pool.pages_allocating_proc _Size _Alignment fresh pool = pool.
Proof.
  intros Hpages Hlt. induction fresh as [| addr fresh IH]; [reflexivity |].
  cbn [Pool.pages_allocating_proc].
  by rewrite (round_idles addr pool k pg rest Hpages Hlt).
Qed.

End WorkerFacts.

(** X16.  While the average request is at least [max_load] the worker
    allocates a page on every round.  For a pool whose first key is not
    negative and whose stored average is at least 1 (one request of more
    than a page is enough), [pages_allocating_proc] adds one page per round
    it runs, each as [Page()] leaves it, under key 0 in front of the
    mapping, and leaves the statistics as they are: nothing but the
    requests ends the growth. *)
Theorem worker_allocates_on_every_round (_Size _Alignment : Z)
    (fresh : list Z) :
  forall pool,
    Pool.first_key_nonneg (Pool.myPages pool) = true ->
    (1 <= Pool.myAverageLoadRequest pool)%Q ->
    Pool.pages_allocating_proc _Size _Alignment fresh pool
    = {| Pool.myPages :=
           rev (map (fun addr => (0%Q, Page.Page _Size _Alignment addr))
                  fresh)
           ++ Pool.myPages pool;
         Pool.myAverageLoadRequest := Pool.myAverageLoadRequest pool;
         Pool.myRequestsCount := Pool.myRequestsCount pool |}.
Proof.
  induction fresh as [| addr fresh IH]; intros pool Hkey Havg.
  - by destruct pool.
  - cbn [Pool.pages_allocating_proc].
    rewrite round_allocates, make_page_in_front by done.
    rewrite IH by done. cbn [Pool.myPages Pool.myAverageLoadRequest
      Pool.myRequestsCount map rev].
    by rewrite <- app_assoc.
Qed.

Lemma worker_allocates_on_every_round_witness :
  exists pool,
    Pool.occupy 20 1 Undefined char 40 Pool.Pool = Ret (None, pool) /\
    Pool.pages_allocating_proc 20 1 [4096; 8192; 12288] pool
    = {| Pool.myPages :=
           rev (map (fun addr => (0%Q, Page.Page 20 1 addr))
                  [4096; 8192; 12288])
           ++ Pool.myPages pool;
         Pool.myAverageLoadRequest := Pool.myAverageLoadRequest pool;
         Pool.myRequestsCount := Pool.myRequestsCount pool |}.
Proof.
  eexists. split; [vm_compute; reflexivity |].
  apply (worker_allocates_on_every_round 20 1 [4096; 8192; 12288]).
  - reflexivity.
  - vm_compute. discriminate.
Defined.

(** X17.  While the average request is below [max_load] the worker adds at
    most one page.  For a pool whose first key is not negative and whose
    stored average is below 1, the rounds [pages_allocating_proc] runs
    after its first one change nothing: the first round either leaves the
    pool, or puts a page under key 0 in front, and then the first key and
    the average stay below [max_load]. *)
Theorem worker_idles_after_first_round (_Size _Alignment : Z) (addr : Z)
    (fresh : list Z) (pool : Pool.t) :
  Pool.first_key_nonneg (Pool.myPages pool) = true ->
  (Pool.myAverageLoadRequest pool < 1)%Q ->
  Pool.pages_allocating_proc _Size _Alignment (addr :: fresh) pool
  = Pool.pages_allocating_round _Size _Alignment addr pool /\
  (Pool.myPages (Pool.pages_allocating_round _Size _Alignment addr pool)
   = Pool.myPages pool \/
   Pool.myPages (Pool.pages_allocating_round _Size _Alignment addr pool)
   = (0%Q, Page.Page _Size _Alignment addr) :: Pool.myPages pool).
Proof.
  intros Hkey Havg. cbn [Pool.pages_allocating_proc].
  unfold Pool.pages_allocating_round, Page.max_load.
  destruct (Qle_bool 1 _) eqn:E.
  - rewrite make_page_in_front by done. split; [| by right].
    eapply proc_idles; [reflexivity |].
    cbn [Pool.myAverageLoadRequest]. by rewrite Qplus_0_l.
  - split; [| by left].
    destruct (Pool.myPages pool) as [| [k pg] rest] eqn:Hpages.
    + (* an empty mapping makes the round allocate *)
      destruct (Qle_bool 1 (1 + Pool.myAverageLoadRequest pool)) eqn:E1;
        [discriminate |].
      induction fresh as [| a fresh IH]; [reflexivity |].
      cbn [Pool.pages_allocating_proc].
      unfold Pool.pages_allocating_round at 1, Page.max_load.
      by rewrite Hpages, E1.
    + eapply proc_idles; [exact Hpages |].
      apply Qnot_le_lt. intros Hle. apply Qle_bool_iff in Hle. congruence.
Qed.

Lemma worker_idles_after_first_round_witness :
  Pool.pages_allocating_proc 20 1 [4096; 8192; 12288] Pool.Pool
  = Pool.pages_allocating_round 20 1 4096 Pool.Pool /\
  (Pool.myPages (Pool.pages_allocating_round 20 1 4096 Pool.Pool)
   = Pool.myPages Pool.Pool \/
   Pool.myPages (Pool.pages_allocating_round 20 1 4096 Pool.Pool)
   = (0%Q, Page.Page 20 1 4096) :: Pool.myPages Pool.Pool).
Proof.
  apply (worker_idles_after_first_round 20 1 4096 [8192; 12288] Pool.Pool).
  - reflexivity.
  - reflexivity.
Defined.

(** ** A pool of fresh pages *)

Section FreshPool.

Variables _Size _Alignment : Z.

Lemma all_fresh_make_pages fresh : forall pool,
  Pool.all_fresh _Size _Alignment (Pool.myPages pool) ->
  Pool.all_fresh _Size _Alignment
    (Pool.myPages (Pool.make_pages _Size _Alignment fresh pool)).
Proof.
  induction fresh as [| addr fresh IH]; intros pool H; [exact H |].
  cbn [Pool.make_pages]. apply IH. cbn [Pool.myPages].
  unfold Pool.all_fresh. rewrite emplace_hint_Permutation.
  apply Forall_cons. split; [by exists addr | exact H].
Qed.

Lemma all_fresh_round addr pool :
  Pool.all_fresh _Size _Alignment (Pool.myPages pool) ->
  Pool.all_fresh _Size _Alignment
    (Pool.myPages (Pool.pages_allocating_round _Size _Alignment addr pool)).
Proof.
  intros H. unfold Pool.pages_allocating_round.
  destruct (Qle_bool _ _); [by apply all_fresh_make_pages | exact H].
Qed.

(** With every key 0, [upper_bound] is [begin()] for a negative bound and
    [end()] otherwise. *)
Lemma upper_bound_all_fresh pages x :
  Pool.all_fresh _Size _Alignment pages ->
  Pool.upper_bound pages x = if Pool.Qltb x 0 then O else length pages.
Proof.
  induction pages as [| [k pg] rest IH]; intros H.
  - by destruct (Pool.Qltb x 0).
  - apply Forall_cons in H as [(addr & [= -> ->]) Hrest].
    cbn [Pool.upper_bound length].
    destruct (Pool.Qltb x 0) eqn:E; [reflexivity |].
    by rewrite (IH Hrest).
Qed.

(** The last entry of a mapping of fresh pages. *)
Lemma all_fresh_last pages :
  Pool.all_fresh _Size _Alignment pages ->
  pages <> [] ->
  exists addr,
    pages !! pred (length pages)
    = Some (0%Q, Page.Page _Size _Alignment addr).
Proof.
  intros Hfresh Hne.
  destruct (lookup_lt_is_Some_2 pages (pred (length pages))) as [e He].
  { destruct pages; [done | simpl; lia]. }
  unfold Pool.all_fresh in Hfresh. rewrite Forall_lookup in Hfresh.
  destruct (Hfresh _ _ He) as (addr & ->). by exists addr.
Qed.

End FreshPool.

(** X18.  A request on a pool of fresh pages is served through [++end()].
    In a non-empty mapping whose pages are all as [Page()] left them, under
    key 0 (what the worker and [make_pages] build until a request is
    served), with bound the [float] difference max_load - load_of<T>(count):
    when the bound is negative, [occupy] returns null and leaves the mapping
    as it is; otherwise [upper_bound] returns [end()], the last page is
    extracted, and once [try_occupy] on it has returned, [++hint] increments
    [end()].  The call ends as that increment does: when the increment
    returns, [occupy] returns the pointer of [try_occupy] and has the page
    back among the others under key 0, whatever its load is now; when it
    does not return, or is undefined, so is the call. *)
Theorem fresh_pool_serves_through_end (_Size _Alignment : Z)
    (past_end : outcome nat) (T : Ty) (count : Z) (pool : Pool.t) :
  Pool.all_fresh _Size _Alignment (Pool.myPages pool) ->
  Pool.myPages pool <> [] ->
  ((Float.sub Page.max_load (Page.load_of _Size T count) < 0)%Q ->
   exists pool',
     Pool.occupy _Size _Alignment past_end T count pool
     = Ret (None, pool') /\
     Pool.myPages pool' = Pool.myPages pool) /\
  ((0 <= Float.sub Page.max_load (Page.load_of _Size T count))%Q ->
   exists addr,
     last (Pool.myPages pool)
     = Some (0%Q, Page.Page _Size _Alignment addr) /\
     forall ptr q,
       Page.try_occupy _Size _Alignment T count
         (Page.Page _Size _Alignment addr) = Ret (ptr, q) ->
       match past_end with
       | Ret hint =>
           exists pool',
             Pool.occupy _Size _Alignment past_end T count pool
             = Ret (ptr, pool') /\
             Pool.myPages pool'
             = Pool.emplace_hint hint 0 q
                 (delete (pred (length (Pool.myPages pool)))
                    (Pool.myPages pool))
       | Undefined =>
           Pool.occupy _Size _Alignment past_end T count pool = Undefined
       | Diverges =>
           Pool.occupy _Size _Alignment past_end T count pool = Diverges
       end).
Proof.
  intros Hfresh Hne.
  destruct (all_fresh_last _ _ _ Hfresh Hne) as (addr & Hlast).
  pose proof (upper_bound_all_fresh _Size _Alignment (Pool.myPages pool)
                (Float.sub Page.max_load (Page.load_of _Size T count))
                Hfresh) as Hub.
  destruct (Pool.myPages pool) as [| e rest] eqn:Hpages; [done |].
  split.
  - intros Hneg. apply Qltb_true in Hneg. rewrite Hneg in Hub.
    unfold Pool.occupy, Pool.select. rewrite Hpages, Hub. cbn.
    eexists. split; reflexivity.
  - intros Hpos. apply Qltb_false in Hpos. rewrite Hpos in Hub.
    exists addr. split; [by rewrite last_lookup |].
    intros ptr q Htry.
    assert (Pool.select (e :: rest) (Page.load_of _Size T count)
            = Some (pred (length (e :: rest)))) as Hsel.
    { unfold Pool.select. by rewrite Hub. }
    destruct (occupy_past_end _Size _Alignment past_end T count pool 0%Q
                (Page.Page _Size _Alignment addr) (ptr, q))
      as (Hund & Hdiv & Hret).
    { by rewrite Hpages. }
    { by rewrite Hpages. }
    { by rewrite Hpages. }
    { exact Htry. }
    rewrite Hpages in Hret.
    destruct past_end as [hint | |].
    + destruct (Hret hint eq_refl) as (pool' & Hocc & Hpg).
      exists pool'. split; [exact Hocc | exact Hpg].
    + by apply Hund.
    + by apply Hdiv.
Qed.

(** Two pages from [make_pages] and a request for 3 bytes, with an
    increment of [end()] that returns the first position: the pointer is
    the address of the last page, which is back in the mapping under key 0,
    in front of the other, with 3 of its blocks occupied. *)
Lemma fresh_pool_serves_through_end_witness :
  Pool.all_fresh 20 1
    (Pool.myPages (Pool.make_pages 20 1 [4096; 8192] Pool.Pool)) /\
  (0 <= Float.sub Page.max_load (Page.load_of 20 char 3))%Q /\
  (exists addr,
     last (Pool.myPages (Pool.make_pages 20 1 [4096; 8192] Pool.Pool))
     = Some (0%Q, Page.Page 20 1 addr) /\
     forall ptr q,
       Page.try_occupy 20 1 char 3 (Page.Page 20 1 addr) = Ret (ptr, q) ->
       exists pool',
         Pool.occupy 20 1 (Ret 0%nat) char 3
           (Pool.make_pages 20 1 [4096; 8192] Pool.Pool)
         = Ret (ptr, pool') /\
         Pool.myPages pool'
         = Pool.emplace_hint 0 0 q
             (delete
                (pred
                   (length
                      (Pool.myPages
                         (Pool.make_pages 20 1 [4096; 8192] Pool.Pool))))
                (Pool.myPages
                   (Pool.make_pages 20 1 [4096; 8192] Pool.Pool)))) /\
  exists pool',
    Pool.occupy 20 1 (Ret 0%nat) char 3
      (Pool.make_pages 20 1 [4096; 8192] Pool.Pool)
    = Ret (Some 4096, pool') /\
    map (fun e : Q * Page.t =>
           (e.1, Page.myData e.2,
            map PageBlockInfo.mySize (take 4 (Page.myInfo e.2))))
      (Pool.myPages pool')
    = [ (0%Q, 4096, [-3; 0; 0; 17]); (0%Q, 8192, [20; 0; 0; 0]) ].
Proof.
  assert (Pool.all_fresh 20 1
            (Pool.myPages (Pool.make_pages 20 1 [4096; 8192] Pool.Pool)))
    as Hfresh.
  { apply all_fresh_make_pages. constructor. }
  assert (0 <= Float.sub Page.max_load (Page.load_of 20 char 3))%Q as Hpos
    by (vm_compute; discriminate).
  split; [exact Hfresh |]. split; [exact Hpos |]. split.
  - exact (proj2 (fresh_pool_serves_through_end 20 1 (Ret 0%nat) char 3
                    (Pool.make_pages 20 1 [4096; 8192] Pool.Pool)
                    Hfresh ltac:(discriminate)) Hpos).
  - eexists. split; vm_compute; reflexivity.
Defined.

(** On the pool the worker has given its first page, a request the page
    could take extracts the only entry and increments [end()] of the empty
    mapping: the call ends as that increment does, and hangs where the
    increment walks the empty tree without end. *)
Lemma first_request_increments_end :
  Pool.myPages (Pool.pages_allocating_round 20 1 4096 Pool.Pool)
  = [ (0%Q, Page.Page 20 1 4096) ] /\
  (forall hint, exists pool',
     Pool.occupy 20 1 (Ret hint) char 3
       (Pool.pages_allocating_round 20 1 4096 Pool.Pool)
     = Ret (Some 4096, pool')) /\
  Pool.occupy 20 1 Undefined char 3
    (Pool.pages_allocating_round 20 1 4096 Pool.Pool)
  = Undefined /\
  Pool.occupy 20 1 Diverges char 3
    (Pool.pages_allocating_round 20 1 4096 Pool.Pool)
  = Diverges.
Proof.
  split; [reflexivity |]. split; [| split; vm_compute; reflexivity].
  intros hint. destruct hint; eexists; vm_compute; reflexivity.
Qed.

(** ** What [contains] finds *)

Lemma make_valid _Size _Alignment p i :
  i <> Page.blocks_count _Size _Alignment ->
  Page.Hint.is_valid_at
    (Page.Hint.make {| Page.it_array := Page.myData p; Page.it_pos := i |}
       (Page.cend _Size _Alignment p))
    (Page.cend _Size _Alignment p) = true.
Proof.
  intros Hi. unfold Page.Hint.is_valid_at, Page.Hint.make, Page.cend,
    Page.iterator_eqb.
  cbn [Page.Hint.myEnd Page.Hint.myIter Page.it_array Page.it_pos].
  rewrite !Z.eqb_refl. cbn [andb].
  replace (i =? Page.blocks_count _Size _Alignment) with false by lia.
  reflexivity.
Qed.

(** X19.  [contains] finds exactly the occupied heads, and dereferences
    [end()] for the pointer one past the buffer.  For a page at an aligned
    address whose buffer and the elements asked about lie in the address
    space, and a type the page can align: for the pointer one past the end
    of the buffer with no element, the checks pass, the offset is
    [blocks_count] and [iter->is_free()] reads [end()], which is not
    defined; for every other pointer the call returns, and the hint is
    valid exactly when the pointer is at a whole number of blocks from the
    start of the buffer, the elements end inside the buffer, and the cell
    of that block is an occupied head of [size_in_blocks(count)] blocks. *)
Theorem contains_finds_occupied_heads (_Size _Alignment : Z) (T : Ty)
    (data count : Z) (p : Page.t) :
  let bc := Page.blocks_count _Size _Alignment in
  0 < _Alignment ->
  _Size mod _Alignment = 0 ->
  0 <= bc < 2 ^ 63 ->
  Z.of_nat (length (Page.myInfo p)) = bc ->
  0 <= Page.myData p ->
  Page.myData p mod _Alignment = 0 ->
  Page.myData p + _Size < 2 ^ 64 ->
  alignof T <= _Alignment ->
  0 <= sizeof T * count ->
  0 <= data ->
  data + sizeof T * count < 2 ^ 64 ->
  (data = Page.myData p + _Size /\ sizeof T * count = 0 ->
   Page.contains _Size _Alignment T data count p = Undefined) /\
  (~ (data = Page.myData p + _Size /\ sizeof T * count = 0) ->
   exists hint,
     Page.contains _Size _Alignment T data count p = Ret hint /\
     (Page.Hint.is_valid_at hint (Page.cend _Size _Alignment p) = true <->
      exists i c,
        0 <= i < bc /\
        data = Page.myData p + i * _Alignment /\
        data + sizeof T * count <= Page.myData p + _Size /\
        Page.myInfo p !! Z.to_nat i = Some c /\
        PageBlockInfo.is_free c = false /\
        PageBlockInfo.size c = Page.size_in_blocks _Alignment T count)).
Proof.
  intros bc HA Hdiv Hbc Hlen Hbase Haligned Hspace Hal Hbytes Hdata Hend.
  assert (_Size = bc * _Alignment) as HSize.
  { unfold bc, Page.blocks_count.
    pose proof (Z.div_mod _Size _Alignment ltac:(lia)). lia. }
  unfold Page.contains.
  replace (alignof T <=? _Alignment) with true by lia.
  rewrite (to_size_t_id (data + sizeof T * count)) by lia.
  rewrite (to_size_t_id (Page.myData p + _Size)) by nia.
  split.
  - intros [-> Hzero]. rewrite Hzero, Z.add_0_r.
    replace (Page.myData p <=? Page.myData p + _Size) with true by nia.
    rewrite Z.leb_refl.
    assert ((Page.myData p + _Size) mod _Alignment = 0) as ->.
    { rewrite HSize, Z.mod_add by lia. exact Haligned. }
    cbn [andb Z.eqb].
    replace (Page.myData p + _Size - Page.myData p) with (bc * _Alignment)
      by lia.
    rewrite Z.div_mul by lia.
    assert (Page.advance _Size _Alignment 0 bc = Ret bc) as ->.
    { apply advance_Ret. rewrite to_ptrdiff_t_id by lia. fold bc. lia. }
    simpl bind. unfold Page.deref. fold bc.
    replace (bc <? bc) with false by lia. by rewrite andb_false_r.
  - intros Hnot.
    destruct ((Page.myData p <=? data)
              && (data + sizeof T * count <=? Page.myData p + _Size)
              && (data mod _Alignment =? 0)) eqn:Hcond.
    + apply andb_true_iff in Hcond as [Hcond Hmod].
      apply andb_true_iff in Hcond as [Hlow Hhigh].
      set (i := (data - Page.myData p) / _Alignment).
      assert (data = Page.myData p + i * _Alignment) as Hi.
      { assert ((data - Page.myData p) mod _Alignment = 0) as Hm.
        { rewrite Zminus_mod, Haligned.
          replace (data mod _Alignment) with 0 by lia.
          rewrite Z.sub_0_r. apply Z.mod_0_l. lia. }
        pose proof (Z.div_mod (data - Page.myData p) _Alignment
                      ltac:(lia)).
        unfold i. lia. }
      assert (0 <= i < bc) as Hrange.
      { split; [apply Z.div_pos; lia |].
        destruct (Z.eq_dec i bc) as [E | E]; [| nia].
        exfalso. apply Hnot. split; nia. }
      assert (Page.advance _Size _Alignment 0 i = Ret i) as ->.
      { apply advance_Ret. rewrite to_ptrdiff_t_id by lia. fold bc. lia. }
      simpl bind.
      destruct (lookup_lt_is_Some_2 (Page.myInfo p) (Z.to_nat i))
        as [c Hc]; [lia |].
      assert (Page.deref _Size _Alignment (Page.myInfo p) i = Ret c) as ->
        by (apply deref_Ret; fold bc; done).
      simpl bind.
      destruct (negb (PageBlockInfo.is_free c)
                && (PageBlockInfo.size c
                      =? Page.size_in_blocks _Alignment T count))
        eqn:Htest.
      * eexists. split; [reflexivity |].
        rewrite make_valid by (fold bc; lia).
        split; [intros _ | done].
        apply andb_true_iff in Htest as [Hocc Hsz].
        apply negb_true_iff in Hocc.
        exists i, c. repeat split; try done; lia.
      * eexists. split; [reflexivity |].
        rewrite make_end_invalid. split; [done |].
        intros (i' & c' & Hr' & Hd' & _ & Hc' & Hocc' & Hsz').
        assert (i' = i) as -> by nia.
        rewrite Hc in Hc'. injection Hc' as <-.
        rewrite Hocc', Hsz', Z.eqb_refl in Htest. discriminate.
    + eexists. split; [reflexivity |].
      rewrite make_end_invalid. split; [done |].
      intros (i' & c' & Hr' & Hd' & He' & _).
      assert ((Page.myData p <=? data) = true) as H1 by nia.
      assert ((data + sizeof T * count <=? Page.myData p + _Size) = true)
        as H2 by lia.
      assert ((data mod _Alignment =? 0) = true) as H3.
      { apply Z.eqb_eq. rewrite Hd', Z.mod_add by lia. exact Haligned. }
      rewrite H1, H2, H3 in Hcond. discriminate.
Qed.

Lemma contains_finds_occupied_heads_witness :
  Page.contains 4 1 char (4096 + 4) 0 Sample.first_half = Undefined /\
  exists hint,
    Page.contains 4 1 char 4096 2 Sample.first_half = Ret hint /\
    (Page.Hint.is_valid_at hint (Page.cend 4 1 Sample.first_half) = true <->
     exists i c,
       0 <= i < Page.blocks_count 4 1 /\
       4096 = Page.myData Sample.first_half + i * 1 /\
       4096 + sizeof char * 2 <= Page.myData Sample.first_half + 4 /\
       Page.myInfo Sample.first_half !! Z.to_nat i = Some c /\
       PageBlockInfo.is_free c = false /\
       PageBlockInfo.size c = Page.size_in_blocks 1 char 2).
Proof.
  split.
  - apply (contains_finds_occupied_heads 4 1 char (4096 + 4) 0
             Sample.first_half);
      try (vm_compute; (reflexivity || discriminate)).
    + vm_compute. split; [discriminate | reflexivity].
    + split; reflexivity.
  - apply (contains_finds_occupied_heads 4 1 char 4096 2
             Sample.first_half);
      try (vm_compute; (reflexivity || discriminate)).
    + vm_compute. split; [discriminate | reflexivity].
    + intros [H _]. vm_compute in H. discriminate.
Defined.

(** ** Allocations released in the reverse order *)

Lemma stack_occs_snoc ns : forall pos prev n,
  Layout.stack_occs pos prev (ns ++ [n])
  = Layout.stack_occs pos prev ns
    ++ [ {| Layout.free := false; Layout.blocks := n;
            Layout.link :=
              match last (Layout.stack_occs pos prev ns) with
              | Some _ =>
                  Some (pos + Layout.total
                                (removelast (Layout.stack_occs pos prev ns)))
              | None => prev
              end |} ].
Proof.
  induction ns as [| a ns IH]; intros pos prev n; [reflexivity |].
  cbn [app Layout.stack_occs]. rewrite IH. cbn [app]. f_equal. f_equal.
  f_equal. f_equal.
  destruct ns as [| m ns'].
  - cbn [Layout.stack_occs last removelast Layout.total]. f_equal. lia.
  - cbn [Layout.stack_occs].
    set (o := {| Layout.free := false; Layout.blocks := m;
                 Layout.link := Some pos |}).
    set (os := Layout.stack_occs (pos + a + m) (Some (pos + a)) ns').
    change (last (?x :: o :: os)) with (last (o :: os)).
    change (removelast (?x :: o :: os)) with (x :: removelast (o :: os)).
    destruct (last (o :: os)) eqn:L; [| by apply last_None in L].
    cbn [Layout.total Layout.blocks]. f_equal. lia.
Qed.

Lemma stack_occs_occupied ns : forall pos prev,
  Forall (fun r => Layout.free r = false) (Layout.stack_occs pos prev ns).
Proof.
  induction ns as [| a ns IH]; intros pos prev; cbn [Layout.stack_occs];
    [constructor |].
  constructor; [reflexivity | apply IH].
Qed.

Lemma stack_occs_last_occupied pos prev ns r0 :
  last (Layout.stack_occs pos prev ns) = Some r0 -> Layout.free r0 = false.
Proof.
  intros L. apply last_Some in L as [l' E].
  pose proof (stack_occs_occupied ns pos prev) as H. rewrite E in H.
  apply Forall_app in H as [_ H]. by apply Forall_cons in H as [H _].
Qed.

Lemma total_stack_snoc ns n :
  Layout.total (Layout.stack_occs 0 None (ns ++ [n]))
  = Layout.total (Layout.stack_occs 0 None ns) + n.
Proof.
  rewrite stack_occs_snoc, total_app. cbn [Layout.total Layout.blocks]. lia.
Qed.

(** The runs of a stack with one more allocation on top. *)
Lemma stack_runs_snoc bc ns n :
  Layout.stack_runs bc (ns ++ [n])
  = Layout.stack_occs 0 None ns
    ++ {| Layout.free := false; Layout.blocks := n;
          Layout.link := Layout.back_link (Layout.stack_occs 0 None ns) |}
    :: (if Layout.total (Layout.stack_occs 0 None ns) + n <? bc
        then [ {| Layout.free := true;
                  Layout.blocks :=
                    bc - (Layout.total (Layout.stack_occs 0 None ns) + n);
                  Layout.link :=
                    Some (Layout.total (Layout.stack_occs 0 None ns)) |} ]
        else []).
Proof.
  unfold Layout.stack_runs. cbv zeta.
  rewrite total_stack_snoc, stack_occs_snoc.
  set (occs := Layout.stack_occs 0 None ns).
  rewrite <- app_assoc. cbn [app]. f_equal. f_equal.
  destruct (Layout.total occs + n <? bc); [| reflexivity].
  f_equal. f_equal. unfold Layout.back_link.
  by rewrite last_snoc, removelast_last.
Qed.

Lemma occupy_run_stack bc ns n :
  1 <= n ->
  Layout.total (Layout.stack_occs 0 None ns) + n <= bc ->
  Layout.occupy_run n (Layout.stack_occs 0 None ns)
    {| Layout.free := true;
       Layout.blocks := bc - Layout.total (Layout.stack_occs 0 None ns);
       Layout.link := Layout.back_link (Layout.stack_occs 0 None ns) |} []
  = Layout.stack_runs bc (ns ++ [n]).
Proof.
  intros Hn Hfit. rewrite stack_runs_snoc. unfold Layout.occupy_run.
  cbn [Layout.blocks Layout.link]. rewrite app_nil_r.
  set (used := Layout.total (Layout.stack_occs 0 None ns)) in *.
  f_equal. f_equal.
  destruct (n <? bc - used) eqn:E1, (used + n <? bc) eqn:E2; try lia;
    [| reflexivity].
  by replace (bc - used - n) with (bc - (used + n)) by lia.
Qed.

Lemma release_run_stack bc ns n l :
  1 <= n ->
  Layout.total (Layout.stack_occs 0 None ns) + n <= bc ->
  Layout.release_run (Layout.stack_occs 0 None ns)
    {| Layout.free := false; Layout.blocks := n;
       Layout.link := Layout.back_link (Layout.stack_occs 0 None ns) |}
    (if Layout.total (Layout.stack_occs 0 None ns) + n <? bc
     then [ {| Layout.free := true;
               Layout.blocks :=
                 bc - (Layout.total (Layout.stack_occs 0 None ns) + n);
               Layout.link := l |} ]
     else [])
  = Layout.stack_runs bc ns.
Proof.
  intros Hn Hfit. unfold Layout.stack_runs. cbv zeta.
  set (occs := Layout.stack_occs 0 None ns) in *.
  set (used := Layout.total occs) in *.
  replace (used <? bc) with true by lia.
  assert (Layout.release_run occs
            {| Layout.free := false; Layout.blocks := n;
               Layout.link := Layout.back_link occs |}
            (if used + n <? bc
             then [ {| Layout.free := true;
                       Layout.blocks := bc - (used + n);
                       Layout.link := l |} ]
             else [])
          = occs
            ++ [ {| Layout.free := true;
                    Layout.blocks :=
                      if used + n <? bc then n + (bc - (used + n)) else n;
                    Layout.link := Layout.back_link occs |} ]) as ->.
  { unfold Layout.release_run. fold used.
    assert (match last occs with
            | Some r0 => Layout.free r0
            | None => false
            end = false) as Hlast.
    { destruct (last occs) as [r0 |] eqn:L; [| reflexivity].
      by apply (stack_occs_last_occupied 0 None ns). }
    destruct (used + n <? bc);
      (destruct (last occs) as [r0 |]; [rewrite Hlast |]; reflexivity). }
  f_equal. f_equal. f_equal.
  destruct (used + n <? bc) eqn:E; lia.
Qed.

Section StackFacts.

Variables k _Size addr : Z.

Local Abbreviation bc := (Page.blocks_count _Size (2 ^ k)).

Hypothesis Hk : 0 <= k < 64.
Hypothesis HSize : 0 < _Size < 2 ^ 63.
Hypothesis Hdiv : _Size mod 2 ^ k = 0.
Hypothesis Haddr : 0 <= addr.
Hypothesis Haligned : addr mod 2 ^ k = 0.
Hypothesis Hspace : addr + _Size < 2 ^ 64.

Lemma stack_geometry :
  0 < 2 ^ k /\ bc * 2 ^ k = _Size /\ 1 <= bc < 2 ^ 63.
Proof.
  assert (0 < 2 ^ k) as HA by (apply Z.pow_pos_nonneg; lia).
  assert (bc * 2 ^ k = _Size) as Hmul.
  { unfold Page.blocks_count.
    pose proof (Z.div_mod _Size (2 ^ k) ltac:(lia)). lia. }
  repeat split; try done; nia.
Qed.

Lemma stack_state_fresh :
  Layout.stack_state _Size (2 ^ k) addr [] (Page.Page _Size (2 ^ k) addr).
Proof.
  destruct stack_geometry as (HA & Hmul & Hbc).
  unfold Layout.stack_state, Layout.stack_sizes, Layout.stack_runs.
  cbn [map rev Layout.stack_occs Layout.total app].
  replace (0 <? bc) with true by lia. rewrite Z.sub_0_r.
  split; [exact (Page_layout _Size (2 ^ k) Hbc addr) |].
  split; [reflexivity |]. split; [exact I | constructor].
Qed.

Lemma push_ok_Push T count :
  push_ok (2 ^ k) (Push T count) = true ->
  alignof T <= 2 ^ k /\ 0 <= sizeof T * count /\
  sizeof T * count + 2 ^ k - 1 < 2 ^ 64 /\
  1 <= Page.size_in_blocks (2 ^ k) T count /\
  sizeof T * count <= Page.size_in_blocks (2 ^ k) T count.
Proof.
  unfold push_ok. rewrite !andb_true_iff.
  intros [[[H1 H2] H3] H4].
  assert (0 <= sizeof T * count) as Hb by lia.
  assert (sizeof T * count + 2 ^ k - 1 < 2 ^ 64) as Hw by lia.
  pose proof (size_in_blocks_ge_bytes k T count Hk Hb Hw).
  repeat split; try done; lia.
Qed.

(** A request on a stacked page: served right behind the allocations
    that are live when it fits, refused otherwise. *)
Lemma stack_push live p T count :
  Layout.stack_state _Size (2 ^ k) addr live p ->
  push_ok (2 ^ k) (Push T count) = true ->
  (exists ptr q,
     Page.try_occupy _Size (2 ^ k) T count p = Ret (Some ptr, q) /\
     Layout.stack_state _Size (2 ^ k) addr ((T, count, ptr) :: live) q) \/
  Page.try_occupy _Size (2 ^ k) T count p = Ret (None, p).
Proof.
  intros (Hlay & Hdata & Hat & Hok) Hpush.
  destruct stack_geometry as (HA & Hmul & Hbc).
  assert (bc < 2 ^ 63) as Hbc' by lia.
  destruct (push_ok_Push T count Hpush) as (Hal & Hb & Hw & Hn & Hge).
  set (n := Page.size_in_blocks (2 ^ k) T count) in *.
  set (ns := Layout.stack_sizes (2 ^ k) live) in *.
  unfold Layout.stack_runs in Hlay. cbv zeta in Hlay.
  set (occs := Layout.stack_occs 0 None ns) in *.
  set (used := Layout.total occs) in *.
  destruct (used + n <=? bc) eqn:E.
  - left.
    replace (used <? bc) with true in Hlay by lia.
    set (F := {| Layout.free := true; Layout.blocks := bc - used;
                 Layout.link := Layout.back_link occs |}) in *.
    assert (Layout.fits n F = true) as Hfit
      by (unfold Layout.fits, F; cbn [Layout.free Layout.blocks andb]; lia).
    pose proof (try_occupy_layout _Size (2 ^ k) Hbc' T count p occs F []
                  Hlay Hal Hn
                  (occupied_do_not_fit _ _ (stack_occs_occupied ns 0 None))
                  Hfit) as Hres.
    fold n in Hres. rewrite Hdata in Hres.
    destruct (occupy_run_sized n occs F [] (proj1 (proj2 Hlay)))
      as [Hs' Ht']; [unfold F; cbn [Layout.blocks]; lia |].
    assert (Layout.occupy_run n occs F []
            = Layout.stack_runs bc (ns ++ [n])) as Erun
      by (apply occupy_run_stack; fold occs used; lia).
    rewrite Erun in Hres, Hs', Ht'.
    eexists. eexists. split; [exact Hres |].
    unfold Layout.stack_state.
    repeat match goal with
    | |- context [Layout.stack_sizes (2 ^ k) (?e :: live)] =>
        change (Layout.stack_sizes (2 ^ k) (e :: live)) with (ns ++ [n])
    end.
    split.
    { split; [reflexivity |]. split; [exact Hs' |].
      exact (eq_trans Ht' (proj2 (proj2 Hlay))). }
    split; [reflexivity |].
    split; [by split |].
    constructor; [exact Hpush | exact Hok].
  - right.
    apply (try_occupy_layout_none _Size (2 ^ k) Hbc' T count p _ Hlay).
    apply Forall_app. split.
    + apply occupied_do_not_fit, stack_occs_occupied.
    + destruct (used <? bc) eqn:E1; [| constructor].
      repeat constructor. unfold Layout.fits.
      cbn [Layout.free Layout.blocks andb]. fold n. lia.
Qed.

(** The release of the most recent allocation of a stacked page. *)
Lemma stack_pop live p T count ptr :
  Layout.stack_state _Size (2 ^ k) addr ((T, count, ptr) :: live) p ->
  exists q,
    Page.release_ptr _Size (2 ^ k) T ptr count p = Ret (true, q) /\
    Layout.stack_state _Size (2 ^ k) addr live q.
Proof.
  intros (Hlay & Hdata & [Hptr Hat] & Hok).
  apply Forall_cons in Hok as [Hpush Hok]. cbn [fst snd] in Hpush.
  destruct stack_geometry as (HA & Hmul & Hbc).
  assert (bc < 2 ^ 63) as Hbc' by lia.
  destruct (push_ok_Push T count Hpush) as (Hal & Hb & Hw & Hn & Hge).
  set (n := Page.size_in_blocks (2 ^ k) T count) in *.
  assert (Layout.stack_sizes (2 ^ k) ((T, count, ptr) :: live)
          = Layout.stack_sizes (2 ^ k) live ++ [n]) as Hsizes
    by reflexivity.
  rewrite Hsizes in Hlay.
  set (ns := Layout.stack_sizes (2 ^ k) live) in *.
  rewrite stack_runs_snoc in Hlay.
  set (occs := Layout.stack_occs 0 None ns) in *.
  set (used := Layout.total occs) in *.
  set (r := {| Layout.free := false; Layout.blocks := n;
               Layout.link := Layout.back_link occs |}) in *.
  set (tail := if used + n <? bc
               then [ {| Layout.free := true;
                         Layout.blocks := bc - (used + n);
                         Layout.link := Some used |} ]
               else []) in *.
  pose proof (proj1 (proj2 Hlay)) as Hs.
  pose proof (proj2 (proj2 Hlay)) as Ht.
  destruct (total_middle _ _ _ Hs) as (Ha & Hb' & Hr & Hta & Htb & Hsum).
  cbn [Layout.blocks r] in Hsum, Hr.
  assert (used + n <= bc) as Hfit by lia.
  pose proof (release_ptr_layout _Size (2 ^ k) Hbc' HA T count p occs r
                tail ptr Hlay Hal) as Hres.
  destruct (release_run_sized occs r tail Hs) as [Hs' Ht'].
  assert (Layout.release_run occs r tail = Layout.stack_runs bc ns)
    as Erun
    by (apply (release_run_stack bc ns n (Some used));
        fold occs used; lia).
  rewrite Erun in Hres, Hs', Ht'.
  eexists. split.
  - apply Hres.
    + by rewrite Hdata.
    + rewrite Hdata. exact Hptr.
    + rewrite Hptr, Hdata. fold ns occs used.
      rewrite !to_size_t_id by nia. nia.
    + reflexivity.
    + reflexivity.
    + reflexivity.
  - split.
    { split; [reflexivity |]. split; [exact Hs' |].
      exact (eq_trans Ht' Ht). }
    split; [exact Hdata |]. by split.
Qed.

Lemma run_stack_state ops : forall live p,
  Layout.stack_state _Size (2 ^ k) addr live p ->
  forallb (push_ok (2 ^ k)) ops = true ->
  exists rs live' q,
    run_stack _Size (2 ^ k) ops live p = Ret (rs, live', q) /\
    Forall (fun r => r <> Released false) rs /\
    Layout.stack_state _Size (2 ^ k) addr live' q.
Proof.
  induction ops as [| [T count |] ops IH]; intros live p Hst Hops.
  - exists [], live, p.
    split; [reflexivity | split; [constructor | exact Hst]].
  - cbn [forallb] in Hops. apply andb_true_iff in Hops as [Hpush Hops].
    cbn [run_stack].
    destruct (stack_push live p T count Hst Hpush)
      as [(ptr & q1 & Hocc & Hst1) | Hocc].
    + destruct (IH _ q1 Hst1 Hops) as (rs & live' & q & Hrun & Hrs & Hst').
      exists (Pointer (Some ptr) :: rs), live', q.
      rewrite Hocc. simpl bind. cbn [fst snd]. rewrite Hrun.
      split; [reflexivity |]. split; [| done].
      constructor; [discriminate | done].
    + destruct (IH _ p Hst Hops) as (rs & live' & q & Hrun & Hrs & Hst').
      exists (Pointer None :: rs), live', q.
      rewrite Hocc. simpl bind. cbn [fst snd]. rewrite Hrun.
      split; [reflexivity |]. split; [| done].
      constructor; [discriminate | done].
  - cbn [forallb push_ok andb] in Hops. cbn [run_stack].
    destruct live as [| [[T count] ptr] live].
    + apply (IH _ p Hst Hops).
    + destruct (stack_pop live p T count ptr Hst) as (q1 & Hrel & Hst1).
      destruct (IH _ q1 Hst1 Hops) as (rs & live' & q & Hrun & Hrs & Hst').
      exists (Released true :: rs), live', q.
      rewrite Hrel. simpl bind. cbn [fst snd]. rewrite Hrun.
      split; [reflexivity |]. split; [| done].
      constructor; [discriminate | done].
Qed.

End StackFacts.

(** X21.  Used as a stack, a page serves and takes back every allocation
    exactly.  For a page of the template's constraints at an aligned
    address, and a caller that mixes requests (every type alignable, every
    request of at least one block) with releases of its most recent live
    allocation, each with the pointer and the count of that allocation:
    every call returns and every [release] returns true; at any time the
    directory holds the live allocations as occupied runs one behind the
    other in the order they were made, each linked to the one before it,
    followed by one free run for the rest of the page; every live pointer
    is the start of the buffer plus the blocks of the older live
    allocations; and once nothing is live the directory is the one
    [Page()] wrote. *)
Theorem stack_discipline_is_exact (k _Size addr : Z)
    (ops : list stack_op) :
  0 <= k < 64 ->
  0 < _Size < 2 ^ 63 ->
  _Size mod 2 ^ k = 0 ->
  0 <= addr ->
  addr mod 2 ^ k = 0 ->
  addr + _Size < 2 ^ 64 ->
  forallb (push_ok (2 ^ k)) ops = true ->
  exists rs live q,
    run_stack _Size (2 ^ k) ops [] (Page.Page _Size (2 ^ k) addr)
    = Ret (rs, live, q) /\
    Forall (fun r => r <> Released false) rs /\
    Layout.stack_state _Size (2 ^ k) addr live q /\
    (live = [] ->
     Page.myInfo q = Page.myInfo (Page.Page _Size (2 ^ k) addr)).
Proof.
  intros Hk HSize Hdiv Haddr Haligned Hspace Hops.
  pose proof (stack_state_fresh k _Size addr Hk HSize Hdiv) as Hfresh.
  edestruct (run_stack_state k _Size addr) with
    (ops := ops) (live := @nil (Ty * Z * Z))
    (p := Page.Page _Size (2 ^ k) addr)
    as (rs & live & q & Hrun & Hrs & Hst); try eassumption.
  exists rs, live, q. split; [exact Hrun |]. split; [exact Hrs |].
  split; [exact Hst |].
  intros ->. destruct Hst as ((Hinfo & _) & _).
  destruct Hfresh as ((Hinfo0 & _) & _).
  by rewrite Hinfo, Hinfo0.
Qed.

Lemma stack_discipline_is_exact_witness :
  exists rs live q,
    run_stack 16 (2 ^ 0)
      [ Push char 3; Push char 7; Push char 9; Pop; Push char 6; Pop; Pop;
        Pop ] [] (Page.Page 16 (2 ^ 0) 4096)
    = Ret (rs, live, q) /\
    Forall (fun r => r <> Released false) rs /\
    Layout.stack_state 16 (2 ^ 0) 4096 live q /\
    (live = [] ->
     Page.myInfo q = Page.myInfo (Page.Page 16 (2 ^ 0) 4096)).
Proof.
  apply (stack_discipline_is_exact 0 16 4096
           [ Push char 3; Push char 7; Push char 9; Pop; Push char 6; Pop;
             Pop; Pop ]);
    try (vm_compute; (reflexivity || discriminate)).
  - lia.
  - lia.
Defined.

(** A caller of a [Page<16, 1>]: the third request does not fit, and the
    three releases give the page back. *)
Lemma stack_discipline_example :
  exists q,
    run_stack 16 1
      [ Push char 3; Push char 7; Push char 9; Pop; Push char 6; Pop; Pop;
        Pop ] [] (Page.Page 16 1 4096)
    = Ret ([ Pointer (Some 4096); Pointer (Some 4099); Pointer None;
             Released true; Pointer (Some 4099); Released true;
             Released true ], [], q) /\
    Page.myInfo q = Page.myInfo (Page.Page 16 1 4096).
Proof. eexists. split; vm_compute; reflexivity. Qed.
